(** * Watch descriptors and the watch runner of the Qwik core

    A shallow embedding of [packages/qwik/src/core/use/use-watch.ts]:
    the descriptor record with its flag bits, the runner [runWatch] with its
    single-flight continuation, the tracker, [cleanupWatch], [destroyWatch]
    and the two deferred registrars [useWatchQrl] and [useClientEffectQrl].

    The JavaScript event loop is modelled explicitly: promises live in a
    table, [.then] reactions wait on pending promises, settled promises move
    their reactions to the microtask queue, and the queue is drained one job
    at a time.  The code is executed in a small state/exception monad whose
    state is the whole machine.  The trace ([m_trace]) is instrumentation: it
    records, newest first, the observable actions (runs created and started,
    user functions called, bodies started and finished, promises settled). *)

From Stdlib Require Import ZArith Lia.
From stdpp Require Import base list strings.

Open Scope Z_scope.

(** ** Flags (the four [WatchFlags*] constants) *)

Definition WatchFlagsIsEffect : Z := Z.shiftl 1 0.
Definition WatchFlagsIsWatch : Z := Z.shiftl 1 1.
Definition WatchFlagsIsDirty : Z := Z.shiftl 1 2.
Definition WatchFlagsIsCleanup : Z := Z.shiftl 1 3.

(** [!!(f & flag)] *)
Definition has_flag (f flag : Z) : bool := negb (Z.land f flag =? 0).

(** ** Values, objects and user functions *)

(** JavaScript values the tracker can be given or return; [VObj l] is a
    reference to heap cell [l]. *)
Inductive val : Type :=
| VUndef
| VNum (n : Z)
| VStr (s : string)
| VObj (l : nat).

(** A heap object: [js_target] is what [getProxyTarget] answers for it
    ([Some t] for a store proxy whose target is [t], [None] for a plain
    object); [js_props] are its own properties. *)
Record jsobj : Type := mkObj {
  js_target : option nat;
  js_props : list (string * val)
}.

(** Exceptions: the assertion error of [assertDefined] and the errors user
    code throws. *)
Inductive exn : Type :=
| ExnAssert (msg : string)
| ExnUser (n : nat).

(** ** The watch descriptor ([interface WatchDescriptor]) *)

(** [qrl] is the identity of the registered function, [el] of the owning
    element; [destroy] holds the identity of the stored cleanup function and
    [running] the promise id of the in-flight run ([undefined] = [None]). *)
Record WatchDescriptor : Type := mkWatch {
  qrl : nat;
  el : nat;
  f : Z;
  i : nat;
  destroy : option nat;
  running : option nat
}.

(** ** Promises, jobs and the event trace *)

(** A promise value: the descriptor itself (what runs resolve with) or a
    value returned by an effect body ([Some fn] when it is the function
    [fn], [None] for any non-function value). *)
Inductive pval : Type :=
| PWatch
| PRet (v : option nat).

Inductive pstate : Type :=
| Pending
| Fulfilled (v : pval)
| Rejected (e : exn).

(** Which code allocated a promise: a run handle of [runWatch], the
    promise returned by run [p]'s asynchronous body, a [Promise.resolve(..)]
    result, or the promise of [Promise.resolve().then(..)] in
    [useWatchQrl]. *)
Inductive origin : Type :=
| PKRun
| PKBody (p : nat)
| PKResolved
| PKDeferred.

Record promise : Type := mkP {
  pst : pstate;
  pkind : origin
}.

Inductive settlement : Type :=
| SOk (v : pval)
| SErr (e : exn).

(** The callbacks handed to [.then]:
    - [JStart p]: the continuation [() => { cleanupWatch(watch); ... }] of
      run [p] passed to [then(watch.running, ..)];
    - [JFinish p]: [(returnValue) => { ...; resolve(watch) }] passed to
      [then(watchFn(track), ..)];
    - [JDeferredRun w]: [() => runWatch(watch, containerState)] of
      [useWatchQrl], whose derived promise is [w];
    - [JAdopt w]: promise [w] following the promise its callback returned. *)
Inductive job : Type :=
| JStart (p : nat)
| JFinish (p : nat)
| JDeferredRun (w : nat)
| JAdopt (w : nat).

Inductive trigger : Type := TVisible | TLoad.

Inductive event : Type :=
| ECreate (p : nat) (prev : option nat)  (* runWatch created run [p]; [prev] was [watch.running] *)
| EStart (p : nat)                       (* the continuation of run [p] begins *)
| ECall (fn : nat)                       (* the user function [fn] is invoked *)
| EBodyStart (p : nat)                   (* the effect body of run [p] is invoked *)
| EBodyEnd (p : nat)                     (* the body's result (value, throw, or promise) settled *)
| EStore (p : nat) (fn : nat)            (* run [p] stored [fn] in [watch.destroy] *)
| EFulfil (p : nat)
| EReject (p : nat)
| EDeferred (w : nat) (p : nat)          (* the deferred callback of [w] got handle [p] *)
| EUncaught (e : exn)                    (* a job threw: its derived promise rejects unobserved *)
| ERegister (t : trigger)                (* useRunWatch registered a run trigger *)
| EObserve (el : nat).                   (* doc.qO.observe(el) *)

(** A subscription: subscriber (the descriptor, by element and index),
    target object and property ([None]: the whole object). *)
Definition sub : Type := (nat * nat * nat * option string)%type.

Record machine : Type := mkM {
  m_watch : WatchDescriptor;
  m_heap : list jsobj;
  m_fns : nat -> option exn;  (* what each user function does: return, or throw *)
  m_subs : list sub;
  m_proms : list promise;
  m_reacts : list (nat * job);  (* reactions waiting on a pending promise *)
  m_queue : list (job * settlement);  (* the microtask queue *)
  m_waiton : list nat;  (* promises registered with useWaitOn *)
  m_log : list exn;  (* logError output *)
  m_trace : list event
}.

Definition set_watch (m : machine) (w : WatchDescriptor) : machine :=
  mkM w (m_heap m) (m_fns m) (m_subs m) (m_proms m) (m_reacts m) (m_queue m)
      (m_waiton m) (m_log m) (m_trace m).
Definition set_subs (m : machine) (s : list sub) : machine :=
  mkM (m_watch m) (m_heap m) (m_fns m) s (m_proms m) (m_reacts m) (m_queue m)
      (m_waiton m) (m_log m) (m_trace m).
Definition set_proms (m : machine) (ps : list promise) : machine :=
  mkM (m_watch m) (m_heap m) (m_fns m) (m_subs m) ps (m_reacts m) (m_queue m)
      (m_waiton m) (m_log m) (m_trace m).
Definition set_reacts (m : machine) (rs : list (nat * job)) : machine :=
  mkM (m_watch m) (m_heap m) (m_fns m) (m_subs m) (m_proms m) rs (m_queue m)
      (m_waiton m) (m_log m) (m_trace m).
Definition set_queue (m : machine) (q : list (job * settlement)) : machine :=
  mkM (m_watch m) (m_heap m) (m_fns m) (m_subs m) (m_proms m) (m_reacts m) q
      (m_waiton m) (m_log m) (m_trace m).
Definition set_waiton (m : machine) (ws : list nat) : machine :=
  mkM (m_watch m) (m_heap m) (m_fns m) (m_subs m) (m_proms m) (m_reacts m)
      (m_queue m) ws (m_log m) (m_trace m).
Definition set_log (m : machine) (l : list exn) : machine :=
  mkM (m_watch m) (m_heap m) (m_fns m) (m_subs m) (m_proms m) (m_reacts m)
      (m_queue m) (m_waiton m) l (m_trace m).
Definition set_trace (m : machine) (t : list event) : machine :=
  mkM (m_watch m) (m_heap m) (m_fns m) (m_subs m) (m_proms m) (m_reacts m)
      (m_queue m) (m_waiton m) (m_log m) t.

Definition with_f (w : WatchDescriptor) (x : Z) : WatchDescriptor :=
  mkWatch (qrl w) (el w) x (i w) (destroy w) (running w).
Definition with_destroy (w : WatchDescriptor) (d : option nat) : WatchDescriptor :=
  mkWatch (qrl w) (el w) (f w) (i w) d (running w).
Definition with_running (w : WatchDescriptor) (r : option nat) : WatchDescriptor :=
  mkWatch (qrl w) (el w) (f w) (i w) (destroy w) r.

(** ** The state/exception monad *)

Inductive res (A : Type) : Type :=
| Ok (a : A)
| Throw (e : exn).
Arguments Ok {A} a.
Arguments Throw {A} e.

Definition M (A : Type) : Type := machine -> res A * machine.

Definition ret {A} (a : A) : M A := fun m => (Ok a, m).
Definition bind {A B} (c : M A) (k : A -> M B) : M B := fun m =>
  match c m with
  | (Ok a, m') => k a m'
  | (Throw e, m') => (Throw e, m')
  end.
Definition throw {A} (e : exn) : M A := fun m => (Throw e, m).
(** [try { c } catch (err) { h(err) }] *)
Definition catch {A} (c : M A) (h : exn -> M A) : M A := fun m =>
  match c m with
  | (Ok a, m') => (Ok a, m')
  | (Throw e, m') => h e m'
  end.

Notation "'let!' x ':=' c 'in' k" := (bind c (fun x => k))
  (at level 200, x name, c at level 100, k at level 200).

Definition get : M machine := fun m => (Ok m, m).
Definition modify (g : machine -> machine) : M unit := fun m => (Ok tt, g m).
Definition emit (e : event) : M unit :=
  modify (fun m => set_trace m (e :: m_trace m)).
Definition get_watch : M WatchDescriptor := fun m => (Ok (m_watch m), m).
Definition modify_watch (g : WatchDescriptor -> WatchDescriptor) : M unit :=
  modify (fun m => set_watch m (g (m_watch m))).

(** ** Promise primitives *)

Definition ev_settle (p : nat) (s : settlement) : event :=
  match s with SOk _ => EFulfil p | SErr _ => EReject p end.
Definition st_of (s : settlement) : pstate :=
  match s with SOk v => Fulfilled v | SErr e => Rejected e end.

(** A fresh pending promise ([new Promise(..)], or the one [.then] returns). *)
Definition new_pending (k : origin) : M nat := fun m =>
  (Ok (length (m_proms m)), set_proms m (m_proms m ++ [mkP Pending k])).

(** [Promise.resolve(v)]. *)
Definition promise_resolve (v : pval) : M nat := fun m =>
  let p := length (m_proms m) in
  (Ok p, set_trace (set_proms m (m_proms m ++ [mkP (Fulfilled v) PKResolved]))
                   (EFulfil p :: m_trace m)).

Definition jobs_on (p : nat) (rs : list (nat * job)) : list job :=
  map snd (List.filter (fun r => Nat.eqb (fst r) p) rs).
Definition not_on (p : nat) (rs : list (nat * job)) : list (nat * job) :=
  List.filter (fun r => negb (Nat.eqb (fst r) p)) rs.

(** Resolving or rejecting a promise: a settled promise ignores it; a
    pending one takes the state and its reactions move to the queue. *)
Definition settle (p : nat) (s : settlement) : M unit := fun m =>
  match m_proms m !! p with
  | Some (mkP Pending k) =>
      (Ok tt, mkM (m_watch m) (m_heap m) (m_fns m) (m_subs m)
                  (<[p := mkP (st_of s) k]> (m_proms m))
                  (not_on p (m_reacts m))
                  (m_queue m ++ map (fun j => (j, s)) (jobs_on p (m_reacts m)))
                  (m_waiton m) (m_log m) (ev_settle p s :: m_trace m))
  | _ => (Ok tt, m)
  end.

(** Modelled from the spec: [then] (util/promises, not in src) is
    [q.then(j)]: wait while [q] is pending, otherwise queue [j] at once. *)
Definition add_then (q : nat) (j : job) : M unit := fun m =>
  match m_proms m !! q with
  | Some (mkP Pending _) => (Ok tt, set_reacts m (m_reacts m ++ [(q, j)]))
  | Some (mkP (Fulfilled v) _) => (Ok tt, set_queue m (m_queue m ++ [(j, SOk v)]))
  | Some (mkP (Rejected e) _) => (Ok tt, set_queue m (m_queue m ++ [(j, SErr e)]))
  | None => (Ok tt, m)
  end.

(** ** Collaborators *)

(** Modelled from the spec: the subscription manager (not in src).
    [$getLocal$(target).$addSub$(watch, prop)] records the subscription of
    the descriptor to [prop] of [target] ([None]: the whole object), once;
    [$clearSub$(watch)] removes every subscription of the descriptor. *)
Definition watch_key (w : WatchDescriptor) : nat * nat := (el w, i w).

Definition addSub (target : nat) (prop : option string) : M unit := fun m =>
  let e : sub := (watch_key (m_watch m), target, prop) in
  (Ok tt, set_subs m (if decide (e ∈ m_subs m) then m_subs m else m_subs m ++ [e])).

Definition clearSub : M unit := fun m =>
  (Ok tt, set_subs m (List.filter
                        (fun e : sub => negb (bool_decide (e.1.1 = watch_key (m_watch m))))
                        (m_subs m))).

(** Modelled from the spec: [getProxyTarget] (q-object, not in src) answers
    the target of a store proxy and [undefined] for anything else. *)
Definition getProxyTarget (h : list jsobj) (o : val) : option nat :=
  match o with
  | VObj l => match h !! l with Some ob => js_target ob | None => None end
  | _ => None
  end.

Fixpoint lookup_prop (k : string) (ps : list (string * val)) : option val :=
  match ps with
  | [] => None
  | (k', v) :: ps' => if String.eqb k k' then Some v else lookup_prop k ps'
  end.

(** [obj[prop]] *)
Definition js_get (h : list jsobj) (o : val) (prop : string) : val :=
  match o with
  | VObj l => match h !! l with
              | Some ob => match lookup_prop prop (js_props ob) with Some v => v | None => VUndef end
              | None => VUndef
              end
  | _ => VUndef
  end.

(** JavaScript truthiness of [prop?: string]: [undefined] and [''] are falsy. *)
Definition truthy (prop : option string) : bool :=
  match prop with Some s => negb (String.eqb s "") | None => false end.

(** Modelled from the spec: [assertDefined] (assert, not in src) fails fast
    with an assertion error on [undefined]. *)
Definition assertDefined {A} (x : option A) (msg : string) : M A :=
  match x with Some a => ret a | None => throw (ExnAssert msg) end.

(** Invoking a user function: it returns or throws, as [m_fns] says. *)
Definition call_fn (fn : nat) : M unit := fun m =>
  let m1 := set_trace m (ECall fn :: m_trace m) in
  match m_fns m fn with None => (Ok tt, m1) | Some e => (Throw e, m1) end.

Definition logError (e : exn) : M unit := modify (fun m => set_log m (e :: m_log m)).

(** ** The tracker built by [runWatch] *)

Definition track (obj : val) (prop : option string) : M val :=
  let! m := get in
  let! target := assertDefined (getProxyTarget (m_heap m) obj)
                               "Expected a Proxy object to track" in
  let! _ := addSub target prop in
  if truthy prop then ret (js_get (m_heap m) obj (default "" prop)) else ret obj.

(** An effect body, as the runner sees it: its synchronous part calls the
    tracker or writes a tracked property (which the notifier turns into
    setting IS_DIRTY on this descriptor), then it returns a value, throws,
    or returns a promise that settles later. *)
Inductive action : Type :=
| ATrack (obj : val) (prop : option string)
| ANotify.

Inductive bres : Type :=
| BRet (v : option nat)
| BThrow (e : exn)
| BAsync.

Record behaviour : Type := mkB {
  b_acts : list action;
  b_res : bres
}.

(** Modelled from the spec: the notifier (not in src) sets IS_DIRTY on a
    subscribed descriptor when a tracked property is written. *)
Definition notify : M unit :=
  modify_watch (fun w => with_f w (Z.lor (f w) WatchFlagsIsDirty)).

Fixpoint run_acts (acts : list action) : M unit :=
  match acts with
  | [] => ret tt
  | ATrack o p :: rest => let! _ := track o p in run_acts rest
  | ANotify :: rest => let! _ := notify in run_acts rest
  end.

Inductive bodyret : Type :=
| RVal (v : pval)
| RProm (q : nat).

(** [watchFn(track)] with [watchFn = watch.qrl.invokeFn(el, ctx, () =>
    subsManager.$clearSub$(watch))]: the before-hook clears the
    subscriptions, then the body runs.  The [catch] only records the end of
    the body and rethrows. *)
Definition invoke_watchFn (p : nat) (b : behaviour) : M bodyret :=
  let! _ := clearSub in
  let! _ := emit (EBodyStart p) in
  catch (let! _ := run_acts (b_acts b) in
         match b_res b with
         | BRet v => let! _ := emit (EBodyEnd p) in ret (RVal (PRet v))
         | BThrow e => throw e
         | BAsync => let! q := new_pending (PKBody p) in ret (RProm q)
         end)
        (fun e => let! _ := emit (EBodyEnd p) in throw e).

(** ** [cleanupWatch], [destroyWatch] *)

Definition cleanupWatch : M unit :=
  let! w := get_watch in
  match destroy w with
  | Some fn =>
      let! _ := modify_watch (fun w => with_destroy w None) in
      catch (call_fn fn) logError
  | None => ret tt
  end.

(** [watch.qrl.invokeFn(watch.el)] gives the registered function, which is
    then called with no argument. *)
Definition destroyWatch : M unit :=
  let! w := get_watch in
  if has_flag (f w) WatchFlagsIsCleanup then
    let! _ := modify_watch (fun w => with_f w (Z.land (f w) (Z.lnot WatchFlagsIsCleanup))) in
    call_fn (qrl w)
  else cleanupWatch.

(** ** [runWatch] *)

Definition isFunction (v : pval) : option nat :=
  match v with PRet (Some fn) => Some fn | _ => None end.

(** [(returnValue) => { if (isFunction(returnValue)) watch.destroy = ..;
    resolve(watch); }] *)
Definition finish (p : nat) (v : pval) : M unit :=
  let! _ := match isFunction v with
            | Some fn =>
                let! _ := modify_watch (fun w => with_destroy w (Some fn)) in
                emit (EStore p fn)
            | None => ret tt
            end in
  settle p (SOk PWatch).

(** The callback passed to [then(watch.running, ..)] for run [p]. *)
Definition watch_cont (p : nat) (b : behaviour) : M unit :=
  let! _ := emit (EStart p) in
  let! _ := cleanupWatch in
  let! r := invoke_watchFn p b in
  match r with
  | RVal v => finish p v
  | RProm q => add_then q (JFinish p)
  end.

(** [runWatch(watch, containerState)]; [b] is how the body behaves if it is
    invoked.  The promise executor runs synchronously: when [watch.running]
    is [undefined], [then] calls the continuation at once, inside the
    executor, whose throw rejects the run's promise.  The flags are small,
    so [&= ~IsDirty] on 32-bit integers is [Z.land] with [Z.lnot]. *)
Definition runWatch (b : behaviour) : M nat :=
  let! w := get_watch in
  if negb (has_flag (f w) WatchFlagsIsDirty) then
    promise_resolve PWatch
  else
    let! _ := modify_watch (fun w => with_f w (Z.land (f w) (Z.lnot WatchFlagsIsDirty))) in
    let! p := new_pending PKRun in
    let! _ := emit (ECreate p (running w)) in
    let! _ := match running w with
              | Some r => add_then r (JStart p)
              | None => catch (watch_cont p b) (fun e => settle p (SErr e))
              end in
    let! _ := modify_watch (fun w => with_running w (Some p)) in
    ret p.

(** ** Jobs of the microtask queue *)

(** A job with a rejected input and no rejection handler only rejects its
    derived promise, which nobody observes. *)
Definition exec_job (b : behaviour) (j : job) (s : settlement) : M unit :=
  match j, s with
  | JStart p, SOk _ => watch_cont p b
  | JFinish p, SOk v => finish p v
  | JDeferredRun w, SOk _ =>
      catch (let! p := runWatch b in
             let! _ := emit (EDeferred w p) in
             add_then p (JAdopt w))
            (fun e => settle w (SErr e))
  | JDeferredRun w, SErr e => settle w (SErr e)
  | JAdopt w, s => settle w s
  | _, SErr _ => ret tt
  end.

(** Run the oldest queued job. *)
Definition run_task (b : behaviour) (m : machine) : machine :=
  match m_queue m with
  | [] => m
  | (j, s) :: rest =>
      match exec_job b j s (set_queue m rest) with
      | (Ok _, m') => m'
      | (Throw e, m') => set_trace m' (EUncaught e :: m_trace m')
      end
  end.

(** An asynchronous body's promise settles; [s] is its value or error. *)
Definition settle_body (q : nat) (s : settlement) (m : machine) : machine :=
  match m_proms m !! q with
  | Some (mkP Pending (PKBody p)) =>
      snd (settle q s (set_trace m (EBodyEnd p :: m_trace m)))
  | _ => m
  end.

(** One step of the single cooperative task queue: a queued job runs, the
    scheduler calls [runWatch], a tracked property is written elsewhere, or
    a pending body promise settles. *)
Inductive step (m : machine) : machine -> Prop :=
| step_task b j s rest :
    m_queue m = (j, s) :: rest -> step m (run_task b m)
| step_run b : step m (snd (runWatch b m))
| step_notify : step m (snd (notify m))
| step_settle q p v :
    m_proms m !! q = Some (mkP Pending (PKBody p)) ->
    step m (settle_body q (SOk (PRet v)) m)
| step_settle_err q p e :
    m_proms m !! q = Some (mkP Pending (PKBody p)) ->
    step m (settle_body q (SErr e) m).

Inductive reach (m : machine) : machine -> Prop :=
| reach_refl : reach m m
| reach_step m1 m2 : reach m m1 -> step m1 m2 -> reach m m2.

(** ** Registrars *)

(** [useRunWatch(watch, run)] *)
Definition useRunWatch (run : option trigger) : M unit :=
  match run with
  | Some TLoad => emit (ERegister TLoad)
  | Some TVisible => emit (ERegister TVisible)
  | None => ret tt
  end.

(** Modelled from the spec: [useWaitOn] (use-core, not in src) adds a
    promise that component setup awaits ("awaited as part of setup"). *)
Definition useWaitOn (w : nat) : M unit :=
  modify (fun m => set_waiton m (w :: m_waiton m)).

(** Setup may complete once every promise it waits on is fulfilled. *)
Definition fulfilled (m : machine) (p : nat) : Prop :=
  exists v k, m_proms m !! p = Some (mkP (Fulfilled v) k).

Definition setup_settled (m : machine) : Prop :=
  Forall (fulfilled m) (m_waiton m).

(** [useWatchQrl(qrl, opts)]; [scoped] is whether [useSequentialScope]
    already holds a watch for this call site. *)
Definition useWatchQrl (scoped : bool) (q el0 i0 : nat) (isServer : bool)
    (run : option trigger) : M unit :=
  if scoped then ret tt else
  let! _ := modify_watch (fun _ =>
              mkWatch q el0 (Z.lor WatchFlagsIsDirty WatchFlagsIsWatch) i0 None None) in
  let! r := promise_resolve (PRet None) in
  let! w := new_pending PKDeferred in
  let! _ := add_then r (JDeferredRun w) in
  let! _ := useWaitOn w in
  if isServer then useRunWatch run else ret tt.

(** [useClientEffectQrl(qrl, opts)]; [hasObserver] is whether [doc.qO]
    exists. *)
Definition useClientEffectQrl (scoped : bool) (q el0 i0 : nat)
    (run : option trigger) (hasObserver : bool) : M unit :=
  if scoped then ret tt else
  let! _ := modify_watch (fun _ => mkWatch q el0 WatchFlagsIsEffect i0 None None) in
  let! _ := useRunWatch (Some (match run with Some t => t | None => TVisible end)) in
  if hasObserver then emit (EObserve el0) else ret tt.

(** A machine before any run: the descriptor [w] is fresh (no cleanup, no
    run in flight) and nothing is queued. *)
Definition fresh_machine (w : WatchDescriptor) (h : list jsobj) (fns : nat -> option exn) : machine :=
  mkM w h fns [] [] [] [] [] [] [].

Inductive initial : machine -> Prop :=
| initial_fresh w h fns :
    destroy w = None -> running w = None -> initial (fresh_machine w h fns)
| initial_watch w h fns q el0 i0 srv run :
    initial (snd (useWatchQrl false q el0 i0 srv run (fresh_machine w h fns))).

(** ** The view of the runs' progress *)

(** The part of a machine the ordering properties are about: the trace,
    the promises, the reactions, the queue, the running handle, the cleanup
    slot and what setup waits on.  Subscriptions, flags and the error log
    are left out. *)
Record view : Type := mkV {
  v_tr : list event;
  v_proms : list promise;
  v_reacts : list (nat * job);
  v_queue : list (job * settlement);
  v_running : option nat;
  v_destroy : option nat;
  v_waiton : list nat
}.

Definition view_of (m : machine) : view :=
  mkV (m_trace m) (m_proms m) (m_reacts m) (m_queue m)
      (running (m_watch m)) (destroy (m_watch m)) (m_waiton m).

Definition vemit (e : event) (v : view) : view :=
  mkV (e :: v_tr v) (v_proms v) (v_reacts v) (v_queue v) (v_running v) (v_destroy v) (v_waiton v).
Definition vnew (k : origin) (v : view) : view :=
  mkV (v_tr v) (v_proms v ++ [mkP Pending k]) (v_reacts v) (v_queue v)
      (v_running v) (v_destroy v) (v_waiton v).
Definition vset_destroy (d : option nat) (v : view) : view :=
  mkV (v_tr v) (v_proms v) (v_reacts v) (v_queue v) (v_running v) d (v_waiton v).
Definition vset_running (r : option nat) (v : view) : view :=
  mkV (v_tr v) (v_proms v) (v_reacts v) (v_queue v) r (v_destroy v) (v_waiton v).
Definition vset_queue (q : list (job * settlement)) (v : view) : view :=
  mkV (v_tr v) (v_proms v) (v_reacts v) q (v_running v) (v_destroy v) (v_waiton v).

(** [settle], [add_then], [promise_resolve] and [cleanupWatch] on views. *)
Definition vsettle (p : nat) (s : settlement) (v : view) : view :=
  match v_proms v !! p with
  | Some (mkP Pending k) =>
      mkV (ev_settle p s :: v_tr v) (<[p := mkP (st_of s) k]> (v_proms v))
          (not_on p (v_reacts v))
          (v_queue v ++ map (fun j => (j, s)) (jobs_on p (v_reacts v)))
          (v_running v) (v_destroy v) (v_waiton v)
  | _ => v
  end.

Definition vadd_then (q : nat) (j : job) (v : view) : view :=
  match v_proms v !! q with
  | Some (mkP Pending _) =>
      mkV (v_tr v) (v_proms v) (v_reacts v ++ [(q, j)]) (v_queue v)
          (v_running v) (v_destroy v) (v_waiton v)
  | Some (mkP (Fulfilled x) _) => vset_queue (v_queue v ++ [(j, SOk x)]) v
  | Some (mkP (Rejected e) _) => vset_queue (v_queue v ++ [(j, SErr e)]) v
  | None => v
  end.

Definition vresolve (x : pval) (v : view) : nat * view :=
  let p := length (v_proms v) in
  (p, mkV (EFulfil p :: v_tr v) (v_proms v ++ [mkP (Fulfilled x) PKResolved]) (v_reacts v)
          (v_queue v) (v_running v) (v_destroy v) (v_waiton v)).

Definition vcleanup (v : view) : view :=
  match v_destroy v with
  | Some fn => vemit (ECall fn) (vset_destroy None v)
  | None => v
  end.

Definition vfinish (p : nat) (x : pval) (v : view) : view :=
  vsettle p (SOk PWatch)
    (match isFunction x with
     | Some fn => vemit (EStore p fn) (vset_destroy (Some fn) v)
     | None => v
     end).

(** How a body invocation ends: it throws (directly or from the tracker),
    returns [x], or returns a promise. *)
Inductive bout : Type :=
| BOThrow (e : exn)
| BORet (x : option nat)
| BOAsync.

Definition vwatch_cont (p : nat) (o : bout) (v : view) : option exn * view :=
  let v1 := vemit (EBodyStart p) (vcleanup (vemit (EStart p) v)) in
  match o with
  | BOThrow e => (Some e, vemit (EBodyEnd p) v1)
  | BORet x => (None, vfinish p (PRet x) (vemit (EBodyEnd p) v1))
  | BOAsync => (None, vadd_then (length (v_proms v1)) (JFinish p) (vnew (PKBody p) v1))
  end.

Definition vrunWatch (dirty : bool) (o : bout) (v : view) : nat * view :=
  if negb dirty then vresolve PWatch v
  else
    let p := length (v_proms v) in
    let v1 := vemit (ECreate p (v_running v)) (vnew PKRun v) in
    let v2 := match v_running v with
              | Some r => vadd_then r (JStart p) v1
              | None => match vwatch_cont p o v1 with
                        | (Some e, v') => vsettle p (SErr e) v'
                        | (None, v') => v'
                        end
              end in
    (p, vset_running (Some p) v2).

Definition vexec (dirty : bool) (o : bout) (j : job) (s : settlement) (v : view) :
  option exn * view :=
  match j, s with
  | JStart p, SOk _ => vwatch_cont p o v
  | JFinish p, SOk x => (None, vfinish p x v)
  | JDeferredRun w, SOk _ =>
      let (p, v') := vrunWatch dirty o v in
      (None, vadd_then p (JAdopt w) (vemit (EDeferred w p) v'))
  | JDeferredRun w, SErr e => (None, vsettle w (SErr e) v)
  | JAdopt w, s => (None, vsettle w s v)
  | _, SErr _ => (None, v)
  end.

Definition vuncaught (r : option exn * view) : view :=
  match r with
  | (Some e, v') => vemit (EUncaught e) v'
  | (None, v') => v'
  end.

(** The steps as the view sees them. *)
Inductive vstep (v : view) : view -> Prop :=
| vstep_task d o j s rest :
    v_queue v = (j, s) :: rest -> vstep v (vuncaught (vexec d o j s (vset_queue rest v)))
| vstep_run d o : vstep v (snd (vrunWatch d o v))
| vstep_same : vstep v v
| vstep_settle q p s :
    v_proms v !! q = Some (mkP Pending (PKBody p)) -> vstep v (vsettle q s (vemit (EBodyEnd p) v)).

(** The pair of a result and its view-level exception. *)
Definition res_match {A} (r : res A) (e : option exn) : Prop :=
  match r, e with
  | Ok _, None => True
  | Throw e1, Some e2 => e1 = e2
  | _, _ => False
  end.

(** ** What the runs' ordering properties say *)

Definition kind_of (v : view) (p : nat) : option origin := pkind <$> (v_proms v !! p).

(** Every job waiting in a reaction or in the queue. *)
Definition jobs (v : view) : list job := map snd (v_reacts v) ++ map fst (v_queue v).

(** The cleanup slot as the trace tells it: [ECall f] empties a slot that
    holds [f], a body starts only on an empty slot, and a run stores its
    cleanup only in an empty slot.  [None]: the trace breaks the rule. *)
Definition cstep (pend : option nat) (e : event) : option (option nat) :=
  match e with
  | ECall fn => match pend with Some g => if Nat.eqb fn g then Some None else None | None => None end
  | EBodyStart _ => match pend with None => Some None | Some _ => None end
  | EStore _ fn => match pend with None => Some (Some fn) | Some _ => None end
  | _ => Some pend
  end.

Fixpoint ccheck (tr : list event) : option (option nat) :=
  match tr with
  | [] => Some None
  | e :: tr' => match ccheck tr' with Some pend => cstep pend e | None => None end
  end.

(** Run [p]'s body has been invoked and has not ended. *)
Definition body_active (m : machine) (p : nat) : Prop :=
  In (EBodyStart p) (m_trace m) /\ ~ In (EBodyEnd p) (m_trace m).

(** A run starts only after the handle it waited on was fulfilled. *)
Definition ordered (tr : list event) : Prop :=
  forall post pre p q, tr = post ++ EStart p :: pre ->
    In (ECreate p (Some q)) tr -> In (EFulfil q) pre.

(** A body is invoked only after its run's continuation began. *)
Definition bstarted (tr : list event) : Prop :=
  forall post pre p, tr = post ++ EBodyStart p :: pre -> In (EStart p) pre.

Record Inv (v : view) : Prop := {
  inv_kcreate : forall p r, In (ECreate p r) (v_tr v) -> kind_of v p = Some PKRun;
  inv_cuniq : forall p r r', In (ECreate p r) (v_tr v) -> In (ECreate p r') (v_tr v) -> r = r';
  inv_ful : forall p x k, v_proms v !! p = Some (mkP (Fulfilled x) k) -> In (EFulfil p) (v_tr v);
  inv_ful' : forall p, In (EFulfil p) (v_tr v) -> exists x k, v_proms v !! p = Some (mkP (Fulfilled x) k);
  inv_ord : ordered (v_tr v);
  inv_fin : forall p, In (EFulfil p) (v_tr v) -> kind_of v p = Some PKRun ->
              In (EBodyEnd p) (v_tr v) /\ In (EStart p) (v_tr v);
  inv_body : forall p, In (EBodyStart p) (v_tr v) -> In (EStart p) (v_tr v);
  inv_start : forall p, In (EStart p) (v_tr v) -> exists r, In (ECreate p r) (v_tr v);
  inv_seq : forall p p' r r', In (ECreate p r) (v_tr v) -> In (ECreate p' r') (v_tr v) ->
              (p' < p)%nat -> In (EStart p) (v_tr v) -> In (EFulfil p') (v_tr v);
  inv_prev : forall p q p' r', In (ECreate p (Some q)) (v_tr v) -> In (ECreate p' r') (v_tr v) ->
               (p' < p)%nat -> (p' <= q)%nat;
  inv_none : forall p p' r', In (ECreate p None) (v_tr v) -> In (ECreate p' r') (v_tr v) -> (p <= p')%nat;
  inv_runmax : forall p r, In (ECreate p r) (v_tr v) -> exists q, v_running v = Some q /\ (p <= q)%nat;
  inv_runc : forall q, v_running v = Some q -> exists r, In (ECreate q r) (v_tr v);
  inv_prevc : forall p q, In (ECreate p (Some q)) (v_tr v) -> exists r, In (ECreate q r) (v_tr v);
  inv_rs : forall q p, In (q, JStart p) (v_reacts v) -> In (ECreate p (Some q)) (v_tr v);
  inv_qs : forall p s, In (JStart p, s) (v_queue v) ->
             exists q, In (ECreate p (Some q)) (v_tr v) /\ (forall x, s = SOk x -> In (EFulfil q) (v_tr v));
  inv_js : forall p, In (JStart p) (jobs v) -> ~ In (EStart p) (v_tr v);
  inv_nodup : NoDup (jobs v);
  inv_jf : forall p, In (JFinish p) (jobs v) ->
             In (EStart p) (v_tr v) /\ ~ In (EFulfil p) (v_tr v) /\ v_destroy v = None /\
             kind_of v p = Some PKRun;
  inv_rkey : forall q j, In (q, j) (v_reacts v) ->
               match j with
               | JFinish p => kind_of v q = Some (PKBody p)
               | _ => exists k, kind_of v q = Some k /\ forall p, k <> PKBody p
               end;
  inv_jfq : forall p x, In (JFinish p, SOk x) (v_queue v) -> In (EBodyEnd p) (v_tr v);
  inv_kdef : forall w, In (JDeferredRun w) (jobs v) \/ In (JAdopt w) (jobs v) ->
               kind_of v w = Some PKDeferred;
  inv_adopt : forall w, In (JAdopt w) (jobs v) -> ~ In (JDeferredRun w) (jobs v);
  inv_wdef : forall w, kind_of v w = Some PKDeferred -> In (EFulfil w) (v_tr v) ->
               exists p, In (EDeferred w p) (v_tr v) /\ In (EFulfil p) (v_tr v);
  inv_jar : forall p w, In (p, JAdopt w) (v_reacts v) -> In (EDeferred w p) (v_tr v);
  inv_jaq : forall w x, In (JAdopt w, SOk x) (v_queue v) ->
              exists p, In (EDeferred w p) (v_tr v) /\ In (EFulfil p) (v_tr v);
  inv_cc : ccheck (v_tr v) = Some (v_destroy v);
  inv_wait : forall w, In w (v_waiton v) -> kind_of v w = Some PKDeferred;
  inv_bst : bstarted (v_tr v)
}.

(** The events that record progress without constraining it. *)
Definition quiet (e : event) : bool :=
  match e with
  | EBodyEnd _ | EDeferred _ _ | EUncaught _ | ERegister _ | EObserve _ => true
  | _ => false
  end.

(** ** Sample states *)

(** A store proxy (cell 0, target 5) with [count = 3] and [''] = 1, and a
    plain object (cell 1). *)
Definition sample_heap : list jsobj :=
  [mkObj (Some 5%nat) [("count", VNum 3); ("", VNum 1)]; mkObj None []].

(** User function 7 throws, every other one returns. *)
Definition sample_fns (fn : nat) : option exn :=
  if Nat.eqb fn 7 then Some (ExnUser 1) else None.

Definition sample_watch (flags : Z) : WatchDescriptor := mkWatch 100 1 flags 0 (Some 7%nat) None.

Definition sample (flags : Z) : machine :=
  fresh_machine (sample_watch flags) sample_heap sample_fns.

(** A tracked watch registered on the client by [useWatchQrl], before
    and after its deferred initial run, whose body is asynchronous. *)
Definition setup_m0 : machine := snd (useWatchQrl false 100 1 0 false None (sample 0)).
Definition setup_m1 : machine := run_task (mkB [] BAsync) setup_m0.
(** The body's promise [3] then fulfils; the run's [JFinish] job resolves
    the handle [2], and the [JAdopt] job fulfils the awaited promise [1]. *)
Definition setup_m2 : machine := settle_body 3 (SOk (PRet None)) setup_m1.
Definition setup_m3 : machine := run_task (mkB [] BAsync) setup_m2.
Definition setup_m4 : machine := run_task (mkB [] BAsync) setup_m3.

(** Two runs of a dirty descriptor whose body returns the cleanup [5]: the
    first run stores it, a mutation makes the descriptor dirty again, the
    second run waits on the first and its continuation runs as a job. *)
Definition cleanup_b : behaviour := mkB [] (BRet (Some 5%nat)).
Definition cleanup_m0 : machine :=
  fresh_machine (mkWatch 100 1 WatchFlagsIsDirty 0 None None) sample_heap sample_fns.
Definition cleanup_m1 : machine := snd (runWatch cleanup_b cleanup_m0).
Definition cleanup_m2 : machine := snd (notify cleanup_m1).
Definition cleanup_m3 : machine := snd (runWatch cleanup_b cleanup_m2).
Definition cleanup_m4 : machine := run_task cleanup_b cleanup_m3.
(** The same descriptor whose first body tracks the plain object: the
    tracker throws, which rejects the first run's handle; a mutation then
    makes the descriptor dirty again, and the second run's continuation is
    queued with that rejection and dropped. *)
Definition reject_b : behaviour := mkB [ATrack (VObj 1) None] (BRet None).
Definition reject_m1 : machine := snd (runWatch reject_b cleanup_m0).
Definition reject_m2 : machine := snd (notify reject_m1).
Definition reject_m3 : machine := snd (runWatch cleanup_b reject_m2).
Definition reject_m4 : machine := run_task cleanup_b reject_m3.
(** After the first run of [cleanup_b] and a mutation, the second run
    waits on the first: its continuation is queued, and its tracker will
    hit the plain object. *)
Definition hang_m3 : machine := snd (runWatch reject_b cleanup_m2).

(** ** Frame relations *)

(** [c] keeps every state it runs from related by [P] to its result. *)
Definition stable (P : machine -> machine -> Prop) {A} (c : M A) : Prop :=
  forall m, P m (snd (c m)).

(** The trace only grows and the heap and user functions never change. *)
Definition grows (m m' : machine) : Prop :=
  (exists l, m_trace m' = l ++ m_trace m) /\ m_heap m' = m_heap m /\ m_fns m' = m_fns m.

(** A set IS_DIRTY bit stays set. *)
Definition dirty_kept (m m' : machine) : Prop :=
  has_flag (f (m_watch m)) WatchFlagsIsDirty = true ->
  has_flag (f (m_watch m')) WatchFlagsIsDirty = true.

(** The promise table is untouched. *)
Definition proms_same (m m' : machine) : Prop := m_proms m' = m_proms m.

(** A body action that does not throw: a tracked object is a proxy. *)
Definition act_ok (h : list jsobj) (a : action) : Prop :=
  match a with ATrack o _ => getProxyTarget h o <> None | ANotify => True end.

(** ** Intermediate states *)

(** The state in which run [p]'s body starts: the continuation has begun,
    cleaned up, cleared the subscriptions and recorded the body's start. *)
Definition body_state (p : nat) (m : machine) : machine :=
  let m1 := snd (cleanupWatch (set_trace m (EStart p :: m_trace m))) in
  let m2 := snd (clearSub m1) in
  set_trace m2 (EBodyStart p :: m_trace m2).

Definition body_part (p : nat) (b : behaviour) : M bodyret :=
  catch (let! _ := run_acts (b_acts b) in
         match b_res b with
         | BRet v => let! _ := emit (EBodyEnd p) in ret (RVal (PRet v))
         | BThrow e => throw e
         | BAsync => let! q := new_pending (PKBody p) in ret (RProm q)
         end)
        (fun e => let! _ := emit (EBodyEnd p) in throw e).

Definition result_part (p : nat) (r : bodyret) : M unit :=
  match r with
  | RVal v => finish p v
  | RProm q => add_then q (JFinish p)
  end.

(** The state in which a dirty run has cleared IS_DIRTY, allocated its
    promise and recorded its creation, and what it does next. *)
Definition run_state (m : machine) : machine :=
  let w := m_watch m in
  let m1 := set_watch m (with_f w (Z.land (f w) (Z.lnot WatchFlagsIsDirty))) in
  let m2 := set_proms m1 (m_proms m1 ++ [mkP Pending PKRun]) in
  set_trace m2 (ECreate (length (m_proms m)) (running w) :: m_trace m2).

Definition run_start (b : behaviour) (p : nat) (r : option nat) : M unit :=
  match r with
  | Some r => add_then r (JStart p)
  | None => catch (watch_cont p b) (fun e => settle p (SErr e))
  end.

(** * Properties *)

(** ** Bits of the flag word *)

Lemma land_shiftl1_eqb0 (x k : Z) :
  0 <= k -> (Z.land x (Z.shiftl 1 k) =? 0) = negb (Z.testbit x k).
Proof.
  intros Hk. rewrite Z.shiftl_1_l.
  destruct (Z.testbit x k) eqn:E; simpl.
  - apply Z.eqb_neq. intros H0.
    assert (Z.testbit (Z.land x (2 ^ k)) k = true) as Ht.
    { rewrite Z.land_spec, E, Z.pow2_bits_true by lia. reflexivity. }
    rewrite H0, Z.bits_0 in Ht. discriminate.
  - apply Z.eqb_eq. apply Z.bits_inj'. intros n Hn.
    rewrite Z.land_spec, Z.bits_0, Z.pow2_bits_eqb by lia.
    destruct (Z.eqb_spec k n) as [->|]; [rewrite E; reflexivity | apply andb_false_r].
Qed.

Lemma has_flag_testbit (x k : Z) :
  0 <= k -> has_flag x (Z.shiftl 1 k) = Z.testbit x k.
Proof. intros Hk. unfold has_flag. rewrite land_shiftl1_eqb0 by exact Hk. apply negb_involutive. Qed.

Lemma has_flag_set (x k : Z) :
  0 <= k -> has_flag (Z.lor x (Z.shiftl 1 k)) (Z.shiftl 1 k) = true.
Proof.
  intros Hk. rewrite !has_flag_testbit, Z.lor_spec by lia.
  rewrite Z.shiftl_1_l, Z.pow2_bits_true by lia. apply orb_true_r.
Qed.

Lemma has_flag_clear (x k : Z) :
  0 <= k -> has_flag (Z.land x (Z.lnot (Z.shiftl 1 k))) (Z.shiftl 1 k) = false.
Proof.
  intros Hk. rewrite has_flag_testbit, Z.land_spec, Z.lnot_spec by lia.
  rewrite Z.shiftl_1_l, Z.pow2_bits_true by lia. apply andb_false_r.
Qed.

Lemma has_flag_lor (x y k : Z) :
  0 <= k -> has_flag x (Z.shiftl 1 k) = true -> has_flag (Z.lor x y) (Z.shiftl 1 k) = true.
Proof.
  intros Hk. rewrite !has_flag_testbit, Z.lor_spec by lia. intros ->. reflexivity.
Qed.

(** ** Frame properties of the monadic code *)

Section Stable.
Variable P : machine -> machine -> Prop.
Hypothesis P_refl : forall m, P m m.
Hypothesis P_trans : forall m1 m2 m3, P m1 m2 -> P m2 m3 -> P m1 m3.

Lemma stable_ret {A} (a : A) : stable P (ret a).
Proof. intros m. apply P_refl. Qed.

Lemma stable_throw {A} (e : exn) : stable P (@throw A e).
Proof. intros m. apply P_refl. Qed.

Lemma stable_get : stable P get.
Proof. intros m. apply P_refl. Qed.

Lemma stable_get_watch : stable P get_watch.
Proof. intros m. apply P_refl. Qed.

Lemma stable_bind {A B} (c : M A) (k : A -> M B) :
  stable P c -> (forall a, stable P (k a)) -> stable P (bind c k).
Proof.
  intros Hc Hk m. unfold bind. specialize (Hc m).
  destruct (c m) as [[a|e] m'] eqn:E; simpl in *; [|exact Hc].
  eapply P_trans; [exact Hc | apply Hk].
Qed.

Lemma stable_catch {A} (c : M A) (h : exn -> M A) :
  stable P c -> (forall e, stable P (h e)) -> stable P (catch c h).
Proof.
  intros Hc Hh m. unfold catch. specialize (Hc m).
  destruct (c m) as [[a|e] m'] eqn:E; simpl in *; [exact Hc|].
  eapply P_trans; [exact Hc | apply Hh].
Qed.
End Stable.

Create HintDb stab.
#[export] Hint Resolve stable_ret stable_throw stable_get stable_get_watch : stab.

(** Decompose a computation into its primitives. *)
Ltac stab_step :=
  match goal with
  | |- stable ?P (bind _ _) =>
      apply (stable_bind P); try solve [intros; eauto with stab];
      lazymatch goal with |- stable _ _ => idtac | |- _ => intros ? end
  | |- stable ?P (catch _ _) =>
      apply (stable_catch P); try solve [intros; eauto with stab];
      lazymatch goal with |- stable _ _ => idtac | |- _ => intros ? end
  | |- stable _ (match ?x with _ => _ end) => destruct x
  | |- stable _ (if ?x then _ else _) => destruct x
  end.

Lemma grows_refl m : grows m m.
Proof. split; [exists []; reflexivity | split; reflexivity]. Qed.

Lemma grows_trans m1 m2 m3 : grows m1 m2 -> grows m2 m3 -> grows m1 m3.
Proof.
  intros [[l1 H1] [H1h H1f]] [[l2 H2] [H2h H2f]].
  split; [exists (l2 ++ l1); rewrite H2, H1, app_assoc; reflexivity | split; congruence].
Qed.

Ltac grow_prim :=
  intros ?m; unfold grows; cbn;
  repeat match goal with
         | |- context [match ?x with _ => _ end] => destruct x
         end;
  cbn; repeat split;
  solve [ exists []; reflexivity | eexists [_]; reflexivity | eexists [_; _]; reflexivity ].

Lemma grows_emit e : stable grows (emit e).
Proof. grow_prim. Qed.
Lemma grows_modify_watch g : stable grows (modify_watch g).
Proof. grow_prim. Qed.
Lemma grows_new_pending k : stable grows (new_pending k).
Proof. grow_prim. Qed.
Lemma grows_promise_resolve v : stable grows (promise_resolve v).
Proof. grow_prim. Qed.
Lemma grows_settle p s : stable grows (settle p s).
Proof.
  intros m. unfold settle, grows.
  destruct (m_proms m !! p) as [[[] k]|]; cbn; repeat split;
    solve [ exists []; reflexivity | eexists [_]; reflexivity ].
Qed.
Lemma grows_add_then q j : stable grows (add_then q j).
Proof.
  intros m. unfold add_then, grows.
  destruct (m_proms m !! q) as [[[] k]|]; cbn; repeat split; exists []; reflexivity.
Qed.
Lemma grows_addSub t p : stable grows (addSub t p).
Proof. grow_prim. Qed.
Lemma grows_clearSub : stable grows clearSub.
Proof. grow_prim. Qed.
Lemma grows_call_fn fn : stable grows (call_fn fn).
Proof.
  intros m. unfold call_fn, grows.
  destruct (m_fns m fn); cbn; repeat split; eexists [_]; reflexivity.
Qed.
Lemma grows_logError e : stable grows (logError e).
Proof. grow_prim. Qed.

#[export] Hint Resolve grows_refl grows_trans grows_emit grows_modify_watch grows_new_pending
  grows_promise_resolve grows_settle grows_add_then grows_addSub grows_clearSub
  grows_call_fn grows_logError : stab.

Ltac stab := repeat (stab_step || eauto with stab).

Lemma grows_track o p : stable grows (track o p).
Proof. unfold track, assertDefined. stab. Qed.
#[export] Hint Resolve grows_track : stab.

Lemma grows_run_acts acts : stable grows (run_acts acts).
Proof. induction acts as [|[] acts IH]; simpl; unfold notify; stab. Qed.
#[export] Hint Resolve grows_run_acts : stab.

Lemma grows_watch_cont p b : stable grows (watch_cont p b).
Proof. unfold watch_cont, cleanupWatch, invoke_watchFn, finish. stab. Qed.
#[export] Hint Resolve grows_watch_cont : stab.

Lemma grows_runWatch b : stable grows (runWatch b).
Proof. unfold runWatch. stab. Qed.
#[export] Hint Resolve grows_runWatch : stab.

Lemma stable_get_grows : stable grows get_watch.
Proof. apply stable_get_watch, grows_refl. Qed.

(** *** IS_DIRTY is only ever cleared by [runWatch] *)

Lemma dirty_kept_refl m : dirty_kept m m.
Proof. unfold dirty_kept. auto. Qed.

Lemma dirty_kept_trans m1 m2 m3 : dirty_kept m1 m2 -> dirty_kept m2 m3 -> dirty_kept m1 m3.
Proof. unfold dirty_kept. auto. Qed.

Ltac dk_prim :=
  intros ?m; unfold dirty_kept; cbn;
  repeat match goal with
         | |- context [match ?x with _ => _ end] => destruct x
         end;
  cbn; auto.

Lemma dk_emit e : stable dirty_kept (emit e).
Proof. dk_prim. Qed.
Lemma dk_destroy d : stable dirty_kept (modify_watch (fun w => with_destroy w d)).
Proof. dk_prim. Qed.
Lemma dk_running r : stable dirty_kept (modify_watch (fun w => with_running w r)).
Proof. dk_prim. Qed.
Lemma dk_notify : stable dirty_kept notify.
Proof. intros m _. apply has_flag_set. lia. Qed.
Lemma dk_new_pending k : stable dirty_kept (new_pending k).
Proof. dk_prim. Qed.
Lemma dk_promise_resolve v : stable dirty_kept (promise_resolve v).
Proof. dk_prim. Qed.
Lemma dk_settle p s : stable dirty_kept (settle p s).
Proof. intros m. unfold settle, dirty_kept. destruct (m_proms m !! p) as [[[] k]|]; cbn; auto. Qed.
Lemma dk_add_then q j : stable dirty_kept (add_then q j).
Proof. intros m. unfold add_then, dirty_kept. destruct (m_proms m !! q) as [[[] k]|]; cbn; auto. Qed.
Lemma dk_addSub t p : stable dirty_kept (addSub t p).
Proof. dk_prim. Qed.
Lemma dk_clearSub : stable dirty_kept clearSub.
Proof. dk_prim. Qed.
Lemma dk_call_fn fn : stable dirty_kept (call_fn fn).
Proof. intros m. unfold call_fn, dirty_kept. destruct (m_fns m fn); cbn; auto. Qed.
Lemma dk_logError e : stable dirty_kept (logError e).
Proof. dk_prim. Qed.

#[export] Hint Resolve dirty_kept_refl dirty_kept_trans dk_emit dk_destroy dk_running dk_notify
  dk_new_pending dk_promise_resolve dk_settle dk_add_then dk_addSub dk_clearSub dk_call_fn
  dk_logError : stab.

Lemma dk_track o p : stable dirty_kept (track o p).
Proof. unfold track, assertDefined. stab. Qed.
#[export] Hint Resolve dk_track : stab.

Lemma dk_run_acts acts : stable dirty_kept (run_acts acts).
Proof. induction acts as [|[] acts IH]; simpl; stab. Qed.
#[export] Hint Resolve dk_run_acts : stab.

Lemma dk_cleanupWatch : stable dirty_kept cleanupWatch.
Proof. unfold cleanupWatch. stab. Qed.
Lemma dk_finish p v : stable dirty_kept (finish p v).
Proof. unfold finish. stab. Qed.
#[export] Hint Resolve dk_cleanupWatch dk_finish : stab.

Lemma dk_watch_cont p b : stable dirty_kept (watch_cont p b).
Proof. unfold watch_cont, invoke_watchFn. stab. Qed.
#[export] Hint Resolve dk_watch_cont : stab.

(** *** The promise table is untouched by the synchronous body actions *)

Lemma proms_same_refl m : proms_same m m.
Proof. reflexivity. Qed.
Lemma proms_same_trans m1 m2 m3 : proms_same m1 m2 -> proms_same m2 m3 -> proms_same m1 m3.
Proof. unfold proms_same. congruence. Qed.

Ltac ps_prim :=
  intros ?m; unfold proms_same; cbn;
  repeat match goal with
         | |- context [match ?x with _ => _ end] => destruct x
         end;
  cbn; reflexivity.

Lemma ps_emit e : stable proms_same (emit e).
Proof. ps_prim. Qed.
Lemma ps_modify_watch g : stable proms_same (modify_watch g).
Proof. ps_prim. Qed.
Lemma ps_addSub t p : stable proms_same (addSub t p).
Proof. ps_prim. Qed.
Lemma ps_clearSub : stable proms_same clearSub.
Proof. ps_prim. Qed.
Lemma ps_call_fn fn : stable proms_same (call_fn fn).
Proof. intros m. unfold call_fn, proms_same. destruct (m_fns m fn); reflexivity. Qed.
Lemma ps_logError e : stable proms_same (logError e).
Proof. ps_prim. Qed.
#[export] Hint Resolve proms_same_refl proms_same_trans ps_emit ps_modify_watch ps_addSub
  ps_clearSub ps_call_fn ps_logError : stab.

Lemma ps_track o p : stable proms_same (track o p).
Proof. unfold track, assertDefined. stab. Qed.
#[export] Hint Resolve ps_track : stab.
Lemma ps_run_acts acts : stable proms_same (run_acts acts).
Proof. induction acts as [|[] acts IH]; simpl; unfold notify; stab. Qed.
Lemma ps_cleanupWatch : stable proms_same cleanupWatch.
Proof. unfold cleanupWatch. stab. Qed.
#[export] Hint Resolve ps_run_acts ps_cleanupWatch : stab.

(** *** Unfolding lemmas *)

Lemma bind_ok {A B} (c : M A) (k : A -> M B) m a m' :
  c m = (Ok a, m') -> bind c k m = k a m'.
Proof. intros H. unfold bind. rewrite H. reflexivity. Qed.

Lemma bind_throw {A B} (c : M A) (k : A -> M B) m e m' :
  c m = (Throw e, m') -> bind c k m = (Throw e, m').
Proof. intros H. unfold bind. rewrite H. reflexivity. Qed.

Lemma catch_ok {A} (c : M A) h m a m' :
  c m = (Ok a, m') -> catch c h m = (Ok a, m').
Proof. intros H. unfold catch. rewrite H. reflexivity. Qed.

Lemma catch_throw {A} (c : M A) h m e m' :
  c m = (Throw e, m') -> catch c h m = h e m'.
Proof. intros H. unfold catch. rewrite H. reflexivity. Qed.

Lemma cleanupWatch_eq m :
  cleanupWatch m =
  match destroy (m_watch m) with
  | Some fn =>
      let m1 := set_trace (set_watch m (with_destroy (m_watch m) None)) (ECall fn :: m_trace m) in
      (Ok tt, match m_fns m fn with None => m1 | Some e => set_log m1 (e :: m_log m1) end)
  | None => (Ok tt, m)
  end.
Proof.
  unfold cleanupWatch, bind, get_watch, modify_watch, modify, catch, call_fn, logError.
  destruct (destroy (m_watch m)) as [fn|]; cbn; [destruct (m_fns m fn)|]; reflexivity.
Qed.

Lemma bind_bind_ok {A B C} (c : M A) (k1 : A -> M B) (k2 : B -> M C) m a m' :
  c m = (Ok a, m') -> bind (bind c k1) k2 m = bind (k1 a) k2 m'.
Proof. intros H. unfold bind at 1 2. rewrite H. reflexivity. Qed.

Lemma bind_bind_throw {A B C} (c : M A) (k1 : A -> M B) (k2 : B -> M C) m e m' :
  c m = (Throw e, m') -> bind (bind c k1) k2 m = (Throw e, m').
Proof. intros H. unfold bind at 1 2. rewrite H. reflexivity. Qed.

Lemma cleanupWatch_ok m : cleanupWatch m = (Ok tt, snd (cleanupWatch m)).
Proof. rewrite cleanupWatch_eq. repeat case_match; reflexivity. Qed.

Lemma watch_cont_eq p b m :
  watch_cont p b m = bind (body_part p b) (result_part p) (body_state p m).
Proof.
  unfold watch_cont. rewrite (bind_ok _ _ _ tt (set_trace m (EStart p :: m_trace m))) by reflexivity.
  rewrite (bind_ok _ _ _ tt _ (cleanupWatch_ok _)).
  unfold invoke_watchFn.
  erewrite (bind_bind_ok clearSub) by reflexivity.
  erewrite (bind_bind_ok (emit (EBodyStart p))) by reflexivity.
  reflexivity.
Qed.

Lemma track_ok o p m t :
  getProxyTarget (m_heap m) o = Some t ->
  exists v m', track o p m = (Ok v, m') /\ m_heap m' = m_heap m.
Proof.
  intros Ht. unfold track, bind, get, assertDefined. rewrite Ht. cbn.
  destruct (truthy p); eexists _, _; split; reflexivity.
Qed.

Lemma track_plain o p m :
  getProxyTarget (m_heap m) o = None ->
  track o p m = (Throw (ExnAssert "Expected a Proxy object to track"), m).
Proof. intros Ht. unfold track, bind, get, assertDefined. rewrite Ht. reflexivity. Qed.

Lemma run_acts_app l1 l2 m :
  run_acts (l1 ++ l2) m = bind (run_acts l1) (fun _ => run_acts l2) m.
Proof.
  revert m. induction l1 as [|a l1 IH]; intros m; simpl.
  - reflexivity.
  - destruct a as [o p|];
      [destruct (track o p m) as [[v|e] m'] eqn:E | destruct (notify m) as [[v|e] m'] eqn:E].
    all: first [ rewrite (bind_ok _ _ _ _ _ E), (bind_bind_ok _ _ _ _ _ _ E); apply IH
               | rewrite (bind_throw _ _ _ _ _ E), (bind_bind_throw _ _ _ _ _ _ E); reflexivity ].
Qed.

Lemma run_acts_ok acts m :
  Forall (act_ok (m_heap m)) acts ->
  exists m', run_acts acts m = (Ok tt, m') /\ m_heap m' = m_heap m.
Proof.
  revert m. induction acts as [|a acts IH]; intros m Hok; simpl.
  - exists m. split; reflexivity.
  - inversion Hok as [|? ? Ha Hrest]; subst. destruct a as [o p|].
    + simpl in Ha. destruct (getProxyTarget (m_heap m) o) as [t|] eqn:Ht; [|congruence].
      destruct (track_ok o p m t Ht) as (v & m1 & Htr & Hh).
      rewrite (bind_ok _ _ _ _ _ Htr). rewrite <- Hh in Hrest.
      destruct (IH m1 Hrest) as (m' & Hr & Hh'). exists m'. split; congruence.
    + rewrite (bind_ok _ _ _ tt (snd (notify m))) by reflexivity.
      destruct (IH (snd (notify m)) Hrest) as (m' & Hr & Hh'). exists m'. split; assumption.
Qed.

Lemma grows_cleanupWatch : stable grows cleanupWatch.
Proof. unfold cleanupWatch. stab. Qed.
Lemma grows_finish p v : stable grows (finish p v).
Proof. unfold finish. stab. Qed.
#[export] Hint Resolve grows_cleanupWatch grows_finish : stab.
Lemma grows_body_part p b : stable grows (body_part p b).
Proof. unfold body_part. stab. Qed.
Lemma grows_result_part p r : stable grows (result_part p r).
Proof. unfold result_part. stab. Qed.
#[export] Hint Resolve grows_body_part grows_result_part : stab.

Lemma body_state_heap p m : m_heap (body_state p m) = m_heap m.
Proof. unfold body_state. rewrite cleanupWatch_eq. cbn. repeat case_match; reflexivity. Qed.

(** ** C3: a clean descriptor is not run *)

(** C3: when IS_DIRTY is unset, [runWatch] returns a new promise already
    fulfilled with the descriptor and changes nothing else: the descriptor
    (flags, cleanup slot, running handle), the subscriptions, the queue and
    the reactions are as they were, and the only trace event is that
    fulfilment (no cleanup or body call). *)
Theorem runWatch_clean_noop (b : behaviour) (m : machine) :
  has_flag (f (m_watch m)) WatchFlagsIsDirty = false ->
  let p := length (m_proms m) in
  let (r, m') := runWatch b m in
  r = Ok p /\ m_proms m' !! p = Some (mkP (Fulfilled PWatch) PKResolved) /\
  m_watch m' = m_watch m /\ m_subs m' = m_subs m /\
  m_trace m' = EFulfil p :: m_trace m /\
  m_queue m' = m_queue m /\ m_reacts m' = m_reacts m.
Proof.
  intros Hd. unfold runWatch, bind, get_watch. rewrite Hd. cbn.
  repeat split. apply list_lookup_middle. reflexivity.
Qed.

(** ** C10: [cleanupWatch] runs a stored cleanup at most once *)

(** C10: [cleanupWatch] never fails, always leaves the cleanup slot empty
    (whether or not the cleanup function throws), and a second call right
    after it does nothing at all. *)
Theorem cleanupWatch_at_most_once (m : machine) :
  fst (cleanupWatch m) = Ok tt /\
  destroy (m_watch (snd (cleanupWatch m))) = None /\
  cleanupWatch (snd (cleanupWatch m)) = (Ok tt, snd (cleanupWatch m)).
Proof.
  assert (Hn : destroy (m_watch (snd (cleanupWatch m))) = None).
  { rewrite cleanupWatch_eq. destruct (destroy (m_watch m)) eqn:Hd; [|exact Hd].
    cbn. destruct (m_fns m n); reflexivity. }
  split; [|split; [exact Hn|]].
  - rewrite cleanupWatch_eq. destruct (destroy (m_watch m)); reflexivity.
  - rewrite (cleanupWatch_eq (snd (cleanupWatch m))), Hn. reflexivity.
Qed.

(** ** C8: a throwing cleanup is logged and the body still runs *)

(** C8: when the stored cleanup throws, [cleanupWatch] returns normally,
    logs the error and empties the slot; and the continuation of a run
    goes on to invoke the body right after the failed cleanup. *)
Theorem cleanup_failure_suppressed (m : machine) (fn : nat) (e : exn) :
  destroy (m_watch m) = Some fn -> m_fns m fn = Some e ->
  fst (cleanupWatch m) = Ok tt /\
  m_log (snd (cleanupWatch m)) = e :: m_log m /\
  destroy (m_watch (snd (cleanupWatch m))) = None /\
  (forall p b, exists l,
     m_trace (snd (watch_cont p b m)) = l ++ EBodyStart p :: ECall fn :: EStart p :: m_trace m).
Proof.
  intros Hd Hf. split; [|split; [|split]].
  1-3: rewrite cleanupWatch_eq, Hd, Hf; reflexivity.
  intros p b. rewrite watch_cont_eq.
  destruct (stable_bind grows grows_trans _ _ (grows_body_part p b)
              (grows_result_part p) (body_state p m)) as [[l Hl] _].
  exists l. rewrite Hl. unfold body_state. rewrite cleanupWatch_eq. cbn. rewrite Hd, Hf.
  reflexivity.
Qed.

(** ** C9: the IS_CLEANUP branch of [destroyWatch] *)

(** C9: with IS_CLEANUP set, [destroyWatch] clears that flag and calls the
    registered function itself, and nothing else (no subscription change,
    cleanup slot untouched); an exception it throws is neither caught nor
    logged but is [destroyWatch]'s own result. *)
Theorem destroyWatch_teardown (m : machine) :
  has_flag (f (m_watch m)) WatchFlagsIsCleanup = true ->
  let (r, m') := destroyWatch m in
  has_flag (f (m_watch m')) WatchFlagsIsCleanup = false /\
  m_trace m' = ECall (qrl (m_watch m)) :: m_trace m /\
  m_log m' = m_log m /\ m_subs m' = m_subs m /\
  destroy (m_watch m') = destroy (m_watch m) /\
  r = match m_fns m (qrl (m_watch m)) with None => Ok tt | Some e => Throw e end.
Proof.
  intros Hc. unfold destroyWatch, bind, get_watch. rewrite Hc. cbn.
  unfold call_fn. cbn.
  destruct (m_fns m (qrl (m_watch m))); cbn;
    (split; [apply has_flag_clear; lia | repeat split]).
Qed.

(** ** C7: the tracker refuses a plain object *)

(** C7: given an object that is not a store proxy, the tracker throws the
    assertion error and leaves the state as it was (no subscription); the
    runner does not catch it: a body that makes such a call (after calls
    that succeed) makes the run's continuation throw that same error. *)
Theorem tracker_plain_object_fails (o : val) (prop : option string) (m : machine) :
  getProxyTarget (m_heap m) o = None ->
  track o prop m = (Throw (ExnAssert "Expected a Proxy object to track"), m) /\
  (forall p b pre rest,
     b_acts b = pre ++ ATrack o prop :: rest ->
     Forall (act_ok (m_heap m)) pre ->
     fst (watch_cont p b m) = Throw (ExnAssert "Expected a Proxy object to track")).
Proof.
  intros Ho. split; [apply track_plain; exact Ho |].
  intros p b pre rest Hb Hpre. rewrite watch_cont_eq. unfold body_part.
  pose proof (body_state_heap p m) as Hh.
  remember (body_state p m) as m2 eqn:Hm2.
  rewrite <- Hh in Hpre, Ho.
  destruct (run_acts_ok pre m2 Hpre) as (m3 & Hr & Hh3).
  rewrite <- Hh3 in Ho.
  assert (Hrun : run_acts (b_acts b) m2 =
                 (Throw (ExnAssert "Expected a Proxy object to track"), m3)).
  { rewrite Hb, run_acts_app, (bind_ok _ _ _ _ _ Hr). simpl.
    rewrite (bind_throw _ _ _ _ _ (track_plain o prop m3 Ho)). reflexivity. }
  erewrite bind_throw; [reflexivity |].
  erewrite catch_throw by (apply bind_throw; exact Hrun).
  reflexivity.
Qed.

(** ** C5: what the tracker returns *)

(** C5 (code_bug): at a store proxy with an own property named [''],
    [track(store, '')] returns the store itself and not the property's value
    [1], because [if (prop)] treats the empty name as no name. *)
Theorem track_empty_name_returns_object :
  fst (track (VObj 0) (Some "") (sample WatchFlagsIsWatch)) = Ok (VObj 0) /\
  js_get sample_heap (VObj 0) "" = VNum 1 /\
  m_subs (snd (track (VObj 0) (Some "") (sample WatchFlagsIsWatch))) = [((1%nat, 0%nat), 5%nat, Some "")].
Proof. repeat split; reflexivity. Qed.

(** What the tracker does on a store proxy: it answers [obj[prop]] for a
    truthy name and the object otherwise, and subscribes the descriptor to
    [(target, prop)] once. *)
Lemma track_contract o prop m t :
  getProxyTarget (m_heap m) o = Some t ->
  let e : sub := (watch_key (m_watch m), t, prop) in
  track o prop m =
    (Ok (if truthy prop then js_get (m_heap m) o (default "" prop) else o),
     set_subs m (if decide (e ∈ m_subs m) then m_subs m else m_subs m ++ [e])).
Proof.
  intros Ht. unfold track, bind, get, assertDefined. rewrite Ht. cbn.
  destruct (truthy prop); reflexivity.
Qed.

Lemma runWatch_dirty_eq b m :
  has_flag (f (m_watch m)) WatchFlagsIsDirty = true ->
  runWatch b m =
    bind (run_start b (length (m_proms m)) (running (m_watch m)))
         (fun _ => bind (modify_watch (fun w => with_running w (Some (length (m_proms m)))))
                        (fun _ => ret (length (m_proms m))))
         (run_state m).
Proof.
  intros Hd. unfold runWatch.
  rewrite (bind_ok get_watch _ m (m_watch m) m) by reflexivity. rewrite Hd. cbn [negb].
  erewrite (bind_ok (modify_watch _)) by reflexivity.
  erewrite (bind_ok (new_pending PKRun)) by reflexivity.
  erewrite (bind_ok (emit _)) by reflexivity.
  reflexivity.
Qed.

Lemma run_state_dirty m :
  has_flag (f (m_watch (run_state m))) WatchFlagsIsDirty = false.
Proof. apply has_flag_clear. unfold WatchFlagsIsDirty. lia. Qed.

Lemma catch_shift {A} (c c' : M A) h m m' :
  c m = c' m' -> catch c h m = catch c' h m'.
Proof. intros E. unfold catch. rewrite E. reflexivity. Qed.

Lemma bind_shift {A B} (c c' : M A) (k : A -> M B) m m' :
  c m = c' m' -> bind c k m = bind c' k m'.
Proof. intros E. unfold bind. rewrite E. reflexivity. Qed.

Lemma dk_body_tail p b rest : stable dirty_kept
  (catch (let! _ := run_acts rest in
          match b_res b with
          | BRet v => let! _ := emit (EBodyEnd p) in ret (RVal (PRet v))
          | BThrow e => throw e
          | BAsync => let! q := new_pending (PKBody p) in ret (RProm q)
          end)
         (fun e => let! _ := emit (EBodyEnd p) in throw e)).
Proof. stab. Qed.

Lemma dk_result_part p r : stable dirty_kept (result_part p r).
Proof. unfold result_part. stab. Qed.

(** A body that begins with a mutation leaves IS_DIRTY set after its run. *)
Lemma watch_cont_notify_first p b rest m :
  b_acts b = ANotify :: rest ->
  has_flag (f (m_watch (snd (watch_cont p b m)))) WatchFlagsIsDirty = true.
Proof.
  intros Hb. rewrite watch_cont_eq. unfold body_part. rewrite Hb.
  set (m2 := body_state p m). set (m3 := snd (notify m2)).
  assert (H3 : has_flag (f (m_watch m3)) WatchFlagsIsDirty = true).
  { apply has_flag_set. lia. }
  erewrite (bind_shift _ _ _ m2 m3);
    [| apply catch_shift; simpl run_acts; apply (bind_bind_ok notify _ _ m2 tt m3); reflexivity].
  cbv beta.
  exact (stable_bind dirty_kept dirty_kept_trans _ _ (dk_body_tail p b rest) (dk_result_part p) m3 H3).
Qed.

Lemma settle_ok p s m : settle p s m = (Ok tt, snd (settle p s m)).
Proof. unfold settle. repeat case_match; reflexivity. Qed.

Lemma add_then_frame q j m :
  exists m', add_then q j m = (Ok tt, m') /\ m_watch m' = m_watch m /\
             m_trace m' = m_trace m /\ m_subs m' = m_subs m.
Proof. unfold add_then. repeat case_match; eexists; repeat split. Qed.

Lemma watch_cont_body_started p b m :
  In (EBodyStart p) (m_trace (snd (watch_cont p b m))).
Proof.
  rewrite watch_cont_eq.
  destruct (stable_bind grows grows_trans _ _ (grows_body_part p b)
              (grows_result_part p) (body_state p m)) as [[l Hl] _].
  rewrite Hl. apply in_app_iff. right. left. reflexivity.
Qed.

(** ** C2: IS_DIRTY is cleared before anything else *)

(** C2: on a dirty descriptor, [runWatch] first clears IS_DIRTY (it then
    goes on from [run_state m], where the flag is off and only the promise
    table and the trace have changed).  If a run is in flight, it returns
    with the flag off having only recorded the new run, the body waiting
    for the previous run; if none is, and the body starts by mutating
    tracked state, the flag is set again after the run, for a next run.  A
    continuation that starts later keeps a flag that was set in between. *)
Theorem runWatch_clears_dirty_first (b : behaviour) (m : machine) :
  has_flag (f (m_watch m)) WatchFlagsIsDirty = true ->
  let p := length (m_proms m) in
  (has_flag (f (m_watch (run_state m))) WatchFlagsIsDirty = false /\
   runWatch b m =
     bind (run_start b p (running (m_watch m)))
          (fun _ => bind (modify_watch (fun w => with_running w (Some p))) (fun _ => ret p))
          (run_state m)) /\
  (forall q, running (m_watch m) = Some q ->
     let (r, m') := runWatch b m in
     r = Ok p /\ has_flag (f (m_watch m')) WatchFlagsIsDirty = false /\
     m_trace m' = ECreate p (Some q) :: m_trace m) /\
  (forall rest, running (m_watch m) = None -> b_acts b = ANotify :: rest ->
     has_flag (f (m_watch (snd (runWatch b m)))) WatchFlagsIsDirty = true /\
     In (EBodyStart p) (m_trace (snd (runWatch b m)))) /\
  (forall p' b' m2, has_flag (f (m_watch m2)) WatchFlagsIsDirty = true ->
     has_flag (f (m_watch (snd (watch_cont p' b' m2)))) WatchFlagsIsDirty = true).
Proof.
  intros Hd p. split; [split; [apply run_state_dirty | apply runWatch_dirty_eq, Hd] |].
  split; [| split].
  - intros q Hq. rewrite (runWatch_dirty_eq b m Hd), Hq. unfold run_start.
    destruct (add_then_frame q (JStart p) (run_state m)) as (m1 & E & Hw & Ht & _).
    rewrite (bind_ok _ _ _ _ _ E). cbn.
    split; [reflexivity | split].
    + rewrite Hw. apply run_state_dirty.
    + rewrite Ht. cbn. rewrite Hq. reflexivity.
  - intros rest Hr Hb. rewrite (runWatch_dirty_eq b m Hd), Hr. unfold run_start.
    destruct (watch_cont p b (run_state m)) as [r1 m1] eqn:E.
    pose proof (watch_cont_notify_first p b rest (run_state m) Hb) as H1.
    pose proof (watch_cont_body_started p b (run_state m)) as H2.
    rewrite E in H1, H2. simpl in H1, H2.
    destruct r1 as [u|e].
    + rewrite (bind_ok _ _ _ u m1) by (apply catch_ok; exact E). cbn.
      split; assumption.
    + rewrite (bind_ok _ _ _ tt (snd (settle p (SErr e) m1)))
        by (erewrite catch_throw by exact E; apply settle_ok).
      cbn. split.
      * exact (dk_settle p (SErr e) m1 H1).
      * destruct (grows_settle p (SErr e) m1) as [[l Hl] _]. rewrite Hl.
        apply in_app_iff. right. exact H2.
  - intros p' b' m2 H. exact (dk_watch_cont p' b' m2 H).
Qed.

(** ** Facts about views *)

Lemma kind_of_lt v p k : kind_of v p = Some k -> (p < length (v_proms v))%nat.
Proof.
  unfold kind_of. destruct (v_proms v !! p) eqn:E; [|discriminate].
  intros _. apply lookup_lt_Some in E. exact E.
Qed.

Lemma kind_of_vnew_old k v p : (p < length (v_proms v))%nat -> kind_of (vnew k v) p = kind_of v p.
Proof. intros H. unfold kind_of, vnew. cbn. rewrite lookup_app_l by exact H. reflexivity. Qed.

Lemma kind_of_vnew_new k v : kind_of (vnew k v) (length (v_proms v)) = Some k.
Proof. unfold kind_of, vnew. cbn. rewrite list_lookup_middle by reflexivity. reflexivity. Qed.

Lemma kind_of_vnew_some k v p k' : kind_of v p = Some k' -> kind_of (vnew k v) p = Some k'.
Proof. intros H. rewrite kind_of_vnew_old; [exact H | eapply kind_of_lt; exact H]. Qed.

Lemma kind_of_vsettle p s v q : kind_of (vsettle p s v) q = kind_of v q.
Proof.
  unfold vsettle. destruct (v_proms v !! p) as [[[| |] k]|] eqn:E; try reflexivity.
  unfold kind_of. cbn. destruct (decide (p = q)) as [-> | Hne].
  - rewrite list_lookup_insert_eq by (eapply lookup_lt_Some; exact E). rewrite E. reflexivity.
  - rewrite list_lookup_insert_ne by exact Hne. reflexivity.
Qed.

Lemma kind_of_vadd_then q j v p : kind_of (vadd_then q j v) p = kind_of v p.
Proof. unfold vadd_then. destruct (v_proms v !! q) as [[[| |] k]|]; reflexivity. Qed.

Lemma filter_split_perm (f : nat * job -> bool) (rs : list (nat * job)) :
  Permutation (map snd (List.filter f rs) ++ map snd (List.filter (fun r => negb (f r)) rs)) (map snd rs).
Proof.
  induction rs as [|r rs IH]; simpl; [constructor |].
  destruct (f r); simpl.
  - constructor. exact IH.
  - apply Permutation_sym. apply Permutation_cons_app. apply Permutation_sym. exact IH.
Qed.

Lemma map_fst_pairs (l : list job) (s : settlement) : map fst (map (fun j => (j, s)) l) = l.
Proof. induction l; simpl; congruence. Qed.

Lemma jobs_vsettle p s v : Permutation (jobs (vsettle p s v)) (jobs v).
Proof.
  unfold vsettle. destruct (v_proms v !! p) as [[[| |] k]|]; try reflexivity.
  unfold jobs, jobs_on, not_on. cbn. rewrite map_app, map_fst_pairs.
  pose proof (filter_split_perm (fun r => Nat.eqb (fst r) p) (v_reacts v)) as H.
  apply (Permutation_app_tail (map fst (v_queue v))) in H. cbv beta in H.
  eapply Permutation_trans; [| exact H]. solve_Permutation.
Qed.

Lemma jobs_vadd_then q j v :
  Permutation (jobs (vadd_then q j v))
              (match v_proms v !! q with Some _ => j :: jobs v | None => jobs v end).
Proof.
  unfold vadd_then, jobs. destruct (v_proms v !! q) as [[[| |] k]|]; cbn; rewrite ?map_app; cbn;
    solve_Permutation.
Qed.

Lemma vsettle_pending w s v k :
  v_proms v !! w = Some (mkP Pending k) ->
  v_tr (vsettle w s v) = ev_settle w s :: v_tr v /\
  v_proms (vsettle w s v) = <[w := mkP (st_of s) k]> (v_proms v) /\
  v_reacts (vsettle w s v) = not_on w (v_reacts v) /\
  v_queue (vsettle w s v) = v_queue v ++ map (fun j => (j, s)) (jobs_on w (v_reacts v)) /\
  v_running (vsettle w s v) = v_running v /\ v_destroy (vsettle w s v) = v_destroy v /\
  v_waiton (vsettle w s v) = v_waiton v.
Proof. intros E. unfold vsettle. rewrite E. repeat split. Qed.

Lemma vsettle_other w s v :
  (forall k, v_proms v !! w <> Some (mkP Pending k)) -> vsettle w s v = v.
Proof.
  intros H. unfold vsettle. destruct (v_proms v !! w) as [[[| |] k]|]; try reflexivity.
  exfalso. exact (H k eq_refl).
Qed.

Lemma In_not_on w q j rs : In (q, j) (not_on w rs) -> In (q, j) rs /\ q <> w.
Proof.
  unfold not_on. rewrite filter_In. cbn. intros [H1 H2]. split; [exact H1 |].
  intros ->. rewrite Nat.eqb_refl in H2. discriminate.
Qed.

Lemma In_moved w (s : settlement) (j : job) (s' : settlement) rs :
  In (j, s') (map (fun j => (j, s)) (jobs_on w rs)) -> s' = s /\ In (w, j) rs.
Proof.
  unfold jobs_on. rewrite in_map_iff. intros [j0 [E H]]. injection E as -> ->.
  split; [reflexivity |]. rewrite in_map_iff in H. destruct H as [[q j1] [E H]].
  cbn in E. subst j1. rewrite filter_In in H. destruct H as [H Hq]. cbn in Hq.
  apply Nat.eqb_eq in Hq. subst q. exact H.
Qed.

Lemma ordered_cons tr e :
  ordered tr -> (forall p, e <> EStart p) ->
  (forall p q, e = ECreate p (Some q) -> ~ In (EStart p) tr) ->
  ordered (e :: tr).
Proof.
  intros Ho He Hc post pre p q Heq Hin.
  destruct post as [|e' post]; simpl in Heq; injection Heq as -> Heq.
  - exfalso. exact (He p eq_refl).
  - destruct Hin as [Hin|Hin].
    + exfalso. apply (Hc p q Hin). rewrite Heq. apply in_or_app. right. left. reflexivity.
    + exact (Ho post pre p q Heq Hin).
Qed.

Lemma ordered_start tr p :
  ordered tr -> (forall q, In (ECreate p (Some q)) tr -> In (EFulfil q) tr) ->
  ordered (EStart p :: tr).
Proof.
  intros Ho Hp post pre p' q Heq Hin.
  destruct post as [|e' post]; simpl in Heq.
  - injection Heq as <- <-. destruct Hin as [Hin|Hin]; [discriminate | exact (Hp q Hin)].
  - injection Heq as <- Heq. destruct Hin as [Hin|Hin]; [discriminate | exact (Ho post pre p' q Heq Hin)].
Qed.

Lemma bstarted_cons tr e :
  bstarted tr -> (forall p, e = EBodyStart p -> In (EStart p) tr) -> bstarted (e :: tr).
Proof.
  intros Hb He post pre p Heq. destruct post as [|e' post]; simpl in Heq; injection Heq as E Heq.
  - subst. exact (He p eq_refl).
  - exact (Hb post pre p Heq).
Qed.

Ltac inv_intro H :=
  destruct H as [Hkc Hcu Hful Hful' Hord Hfin Hbody Hstart Hseq Hprev Hnone Hrmax Hrunc Hprevc
                 Hrs Hqs Hjs Hnd Hjf Hrk Hjfq Hkd Had Hwd Hjar Hjaq Hcc Hwt Hbst].

Lemma Inv_settle v w s :
  Inv v ->
  (forall x, s = SOk x ->
     (kind_of v w = Some PKRun ->
        In (EBodyEnd w) (v_tr v) /\ In (EStart w) (v_tr v) /\ ~ In (JFinish w) (jobs v)) /\
     (kind_of v w = Some PKDeferred -> exists p, In (EDeferred w p) (v_tr v) /\ In (EFulfil p) (v_tr v)) /\
     (forall p, kind_of v w = Some (PKBody p) -> In (EBodyEnd p) (v_tr v))) ->
  Inv (vsettle w s v).
Proof.
  intros Hi Hpre.
  destruct (v_proms v !! w) as [[st k]|] eqn:E;
    [destruct st as [|x0|e0] | ]; try (rewrite vsettle_other; [exact Hi | intros k'; rewrite E; discriminate]).
  destruct (vsettle_pending w s v k E) as (Htr & Hpr & Hre & Hq & Hru & Hde & Hwa).
  pose proof (kind_of_vsettle w s v) as Hk. pose proof (jobs_vsettle w s v) as Hj.
  set (v' := vsettle w s v) in *. clearbody v'.
  assert (Hjin : forall j, In j (jobs v') -> In j (jobs v))
    by (intros j; apply Permutation_in; exact Hj).
  assert (Htr' : forall e, In e (v_tr v) -> In e (v_tr v')) by (intros e He; rewrite Htr; right; exact He).
  assert (Hnc : forall p r, ev_settle w s <> ECreate p r) by (intros; destruct s; discriminate).
  assert (Hwl : (w < length (v_proms v))%nat) by (eapply lookup_lt_Some; exact E).
  assert (Hcr : forall p r, In (ECreate p r) (v_tr v') -> In (ECreate p r) (v_tr v))
    by (intros p r H; rewrite Htr in H; destruct H as [H|H]; [exfalso; exact (Hnc p r H) | exact H]).
  assert (Hst : forall p, In (EStart p) (v_tr v') -> In (EStart p) (v_tr v))
    by (intros p H; rewrite Htr in H; destruct H as [H|H]; [destruct s; discriminate | exact H]).
  inv_intro Hi. constructor.
  - intros p r H. rewrite Hk. eauto.
  - intros p r r' H1 H2. eauto.
  - intros p x k1 H. rewrite Hpr in H. apply list_lookup_insert_Some in H.
    destruct H as [(-> & Hx & _)|(Hne & H)].
    + destruct s; cbn in Hx; [| discriminate]. rewrite Htr. left. reflexivity.
    + apply Htr'. eauto.
  - intros p H. rewrite Htr in H. rewrite Hpr. destruct H as [H|H].
    + destruct s as [x|e]; cbn in H; [|discriminate]. injection H as <-.
      rewrite list_lookup_insert_eq by exact Hwl. eauto.
    + destruct (Hful' p H) as (x & k1 & Hp). rewrite list_lookup_insert_ne; [eauto |].
      intros ->. rewrite E in Hp. discriminate.
  - rewrite Htr. apply ordered_cons; [exact Hord | intros p; destruct s; discriminate |].
    intros p q H. exfalso. exact (Hnc p (Some q) H).
  - intros p H Hkp. rewrite Hk in Hkp. rewrite Htr in H. destruct H as [H|H].
    + destruct s as [x|e]; cbn in H; [|discriminate]. injection H as <-.
      destruct (Hpre x eq_refl) as (H1 & _ & _). destruct (H1 Hkp) as (Ha & Hb & _).
      split; apply Htr'; assumption.
    + destruct (Hfin p H Hkp). split; apply Htr'; assumption.
  - intros p H. rewrite Htr in H. destruct H as [H|H]; [destruct s; discriminate |].
    apply Htr'. eauto.
  - intros p H. destruct (Hstart p (Hst p H)) as [r Hr]. exists r. apply Htr'. exact Hr.
  - intros p p' r r' H1 H2 H3 H4. apply Htr'. eauto.
  - intros p q p' r' H1 H2 H3. eauto.
  - intros p p' r' H1 H2. eauto.
  - intros p r H. rewrite Hru. eauto.
  - intros q H. rewrite Hru in H. destruct (Hrunc q H) as [r Hr]. exists r. apply Htr'. exact Hr.
  - intros p q H. destruct (Hprevc p q (Hcr _ _ H)) as [r Hr]. exists r. apply Htr'. exact Hr.
  - intros q p H. rewrite Hre in H. apply In_not_on in H. apply Htr'. exact (Hrs q p (proj1 H)).
  - intros p s' H. rewrite Hq in H. apply in_app_or in H. destruct H as [H|H].
    + destruct (Hqs p s' H) as (q & H1 & H2). exists q. split; [apply Htr'; exact H1 |].
      intros x Hx. apply Htr'. exact (H2 x Hx).
    + apply In_moved in H. destruct H as [-> H]. exists w. split; [apply Htr'; exact (Hrs w p H) |].
      intros x ->. rewrite Htr. left. reflexivity.
  - intros p H. rewrite Htr. intros [H1|H1]; [destruct s; discriminate |]. exact (Hjs p (Hjin _ H) H1).
  - rewrite Hj. exact Hnd.
  - intros p H. apply Hjin in H. destruct (Hjf p H) as (H1 & H2 & H3 & H4).
    split; [apply Htr'; exact H1 |]. split; [| rewrite Hde, Hk; split; assumption].
    rewrite Htr. intros [H5|H5]; [| exact (H2 H5)].
    destruct s as [x|e]; cbn in H5; [|discriminate]. injection H5 as ->.
    destruct (Hpre x eq_refl) as (H6 & _ & _). destruct (H6 H4) as (_ & _ & H7). exact (H7 H).
  - intros q j H. rewrite Hre in H. apply In_not_on in H. rewrite !Hk. exact (Hrk q j (proj1 H)).
  - intros p x H. rewrite Hq in H. apply in_app_or in H. destruct H as [H|H]; [apply Htr'; eauto |].
    apply In_moved in H. destruct H as [Hs H]. apply Htr'.
    destruct (Hpre x (eq_sym Hs)) as (_ & _ & H1). apply H1. exact (Hrk w (JFinish p) H).
  - intros w' H. rewrite Hk. apply Hkd. destruct H as [H|H]; [left|right]; apply Hjin; exact H.
  - intros w' H1 H2. apply (Had w' (Hjin _ H1)). apply Hjin. exact H2.
  - intros w' Hkw H. rewrite Hk in Hkw. rewrite Htr in H. destruct H as [H|H].
    + destruct s as [x|e]; cbn in H; [|discriminate]. injection H as <-.
      destruct (Hpre x eq_refl) as (_ & H1 & _). destruct (H1 Hkw) as (p & Ha & Hb).
      exists p. split; apply Htr'; assumption.
    + destruct (Hwd w' Hkw H) as (p & Ha & Hb). exists p. split; apply Htr'; assumption.
  - intros p w' H. rewrite Hre in H. apply In_not_on in H. apply Htr'. exact (Hjar p w' (proj1 H)).
  - intros w' x H. rewrite Hq in H. apply in_app_or in H. destruct H as [H|H].
    + destruct (Hjaq w' x H) as (p & Ha & Hb). exists p. split; apply Htr'; assumption.
    + apply In_moved in H. destruct H as [Hs H]. exists w.
      split; [apply Htr'; exact (Hjar w w' H) | rewrite Htr, <- Hs; left; reflexivity].
  - rewrite Htr, Hde. cbn. rewrite Hcc. destruct s; reflexivity.
  - intros w' H. rewrite Hk. apply Hwt. rewrite <- Hwa. exact H.
  - rewrite Htr. apply bstarted_cons; [exact Hbst | intros p Eb; destruct s; discriminate].
Qed.

Lemma kind_of_vnew_cases k v p k' :
  kind_of (vnew k v) p = Some k' ->
  kind_of v p = Some k' \/ (p = length (v_proms v) /\ k' = k).
Proof.
  unfold kind_of, vnew. cbn. intros H.
  destruct ((v_proms v ++ [mkP Pending k]) !! p) as [x|] eqn:E; cbn in H; [|discriminate].
  injection H as <-. apply lookup_app_Some in E. destruct E as [E|[Hl E]].
  - left. rewrite E. reflexivity.
  - right. apply list_lookup_singleton_Some in E. destruct E as [E <-].
    split; [lia | reflexivity].
Qed.

Lemma In_EFulfil_lt v p : Inv v -> In (EFulfil p) (v_tr v) -> (p < length (v_proms v))%nat.
Proof.
  intros Hi H. destruct (inv_ful' v Hi p H) as (x & k & E). eapply lookup_lt_Some. exact E.
Qed.

Lemma In_ECreate_lt v p r : Inv v -> In (ECreate p r) (v_tr v) -> (p < length (v_proms v))%nat.
Proof. intros Hi H. eapply kind_of_lt. exact (inv_kcreate v Hi p r H). Qed.

Lemma ccheck_quiet e tr : quiet e = true -> ccheck (e :: tr) = ccheck tr.
Proof. intros H. cbn. destruct (ccheck tr); [destruct e; try discriminate; reflexivity | reflexivity]. Qed.

(** A quiet event keeps the invariant. *)
Lemma Inv_quiet v e : Inv v -> quiet e = true -> Inv (vemit e v).
Proof.
  intros Hi Hq.
  assert (Hin : forall x, In x (v_tr (vemit e v)) -> quiet x = true \/ In x (v_tr v))
    by (intros x [H|H]; [left; subst; exact Hq | right; exact H]).
  assert (Htr' : forall x, In x (v_tr v) -> In x (v_tr (vemit e v))) by (intros x H; right; exact H).
  assert (Hck : ccheck (v_tr (vemit e v)) = ccheck (v_tr v)) by (apply ccheck_quiet; exact Hq).
  set (v' := vemit e v) in *.
  assert (Hk : forall p, kind_of v' p = kind_of v p) by reflexivity.
  assert (Hj : jobs v' = jobs v) by reflexivity.
  assert (Hpr : v_proms v' = v_proms v) by reflexivity.
  assert (Hre : v_reacts v' = v_reacts v) by reflexivity.
  assert (Hqu : v_queue v' = v_queue v) by reflexivity.
  assert (Hru : v_running v' = v_running v) by reflexivity.
  assert (Hde : v_destroy v' = v_destroy v) by reflexivity.
  assert (Hwa : v_waiton v' = v_waiton v) by reflexivity.
  assert (Hord' : ordered (v_tr v')).
  { apply ordered_cons; [exact (inv_ord v Hi) | intros p E; subst; discriminate |].
    intros p q E. subst. discriminate. }
  assert (Hbst' : bstarted (v_tr v')).
  { apply bstarted_cons; [exact (inv_bst v Hi) | intros p Eb; subst; discriminate]. }
  clearbody v'.
  assert (Hcr : forall p r, In (ECreate p r) (v_tr v') -> In (ECreate p r) (v_tr v))
    by (intros p r H; destruct (Hin _ H); [discriminate | assumption]).
  assert (Hst : forall p, In (EStart p) (v_tr v') -> In (EStart p) (v_tr v))
    by (intros p H; destruct (Hin _ H); [discriminate | assumption]).
  assert (Hfu : forall p, In (EFulfil p) (v_tr v') -> In (EFulfil p) (v_tr v))
    by (intros p H; destruct (Hin _ H); [discriminate | assumption]).
  assert (Hbs : forall p, In (EBodyStart p) (v_tr v') -> In (EBodyStart p) (v_tr v))
    by (intros p H; destruct (Hin _ H); [discriminate | assumption]).
  clear Hin.
  inv_intro Hi. constructor; rewrite ?Hj, ?Hpr, ?Hre, ?Hqu, ?Hru, ?Hde, ?Hwa, ?Hck; intros; rewrite ?Hk in *.
  - eauto.
  - eauto.
  - eauto.
  - destruct (Hful' p (Hfu p H)) as (x & k & E). eauto.
  - exact Hord'.
  - destruct (Hfin p (Hfu p H) H0). split; auto.
  - eauto.
  - destruct (Hstart p (Hst p H)) as [r Hr]. eauto.
  - apply Htr'. apply (Hseq p p' r r'); auto.
  - apply (Hprev p q p' r'); auto.
  - apply (Hnone p p' r'); auto.
  - apply (Hrmax p r); auto.
  - destruct (Hrunc q H) as [r Hr]. eauto.
  - destruct (Hprevc p q (Hcr _ _ H)) as [r Hr]. eauto.
  - eauto.
  - destruct (Hqs p s H) as (q & H1 & H2). eauto 7.
  - intros H1. exact (Hjs p H (Hst p H1)).
  - exact Hnd.
  - destruct (Hjf p H) as (H1 & H2 & H3 & H4). repeat split; auto.
  - exact (Hrk q j H).
  - eauto.
  - eauto.
  - eauto.
  - destruct (Hwd w H (Hfu w H0)) as (p & H1 & H2). eauto.
  - eauto.
  - destruct (Hjaq w x H) as (p & H1 & H2). eauto.
  - exact Hcc.
  - eauto.
  - exact Hbst'.
Qed.

Lemma Inv_vnew k v : Inv v -> Inv (vnew k v).
Proof.
  intros Hi. assert (Hlt : forall p, In (EFulfil p) (v_tr v) -> (p < length (v_proms v))%nat) by (intros p; apply In_EFulfil_lt; exact Hi).
  pose proof (inv_ful' v Hi) as Hful0.
  assert (Hks : forall p k', kind_of v p = Some k' -> kind_of (vnew k v) p = Some k')
    by (intros; apply kind_of_vnew_some; assumption).
  assert (Hkb : forall p k', kind_of (vnew k v) p = Some k' -> In (EFulfil p) (v_tr v) ->
                  kind_of v p = Some k').
  { intros p k' H1 H2. destruct (kind_of_vnew_cases k v p k' H1) as [H|[-> _]]; [exact H |].
    specialize (Hlt _ H2). lia. }
  inv_intro Hi. constructor; cbn [vnew v_tr v_proms v_reacts v_queue v_running v_destroy v_waiton];
    change (jobs (vnew k v)) with (jobs v); intros.
  - eauto.
  - eauto.
  - apply lookup_app_Some in H. destruct H as [H|[Hl H]]; [eauto |].
    apply list_lookup_singleton_Some in H. destruct H as [_ H]. discriminate.
  - destruct (Hful' p H) as (x & k1 & E). exists x, k1. apply lookup_app_l_Some. exact E.
  - exact Hord.
  - apply Hfin; [exact H | exact (Hkb p _ H0 H)].
  - eauto.
  - eauto.
  - apply (Hseq p p' r r'); auto.
  - apply (Hprev p q p' r'); auto.
  - apply (Hnone p p' r'); auto.
  - apply (Hrmax p r); auto.
  - eauto.
  - eauto.
  - eauto.
  - eauto.
  - eauto.
  - exact Hnd.
  - destruct (Hjf p H) as (H1 & H2 & H3 & H4). repeat split; auto.
  - specialize (Hrk q j H). destruct j; try (destruct Hrk as (k1 & H1 & H2); exists k1; split; auto).
    auto.
  - eauto.
  - eauto.
  - eauto.
  - apply Hwd; [exact (Hkb w _ H H0) | exact H0].
  - eauto.
  - eauto.
  - exact Hcc.
  - eauto.
  - exact Hbst.
Qed.

(** Popping the head of the queue keeps the invariant and the popped job
    leaves the pending work. *)
Lemma Inv_pop v j s rest :
  Inv v -> v_queue v = (j, s) :: rest ->
  Inv (vset_queue rest v) /\ ~ In j (jobs (vset_queue rest v)).
Proof.
  intros Hi Hq.
  assert (Hperm : Permutation (jobs v) (j :: jobs (vset_queue rest v))).
  { unfold jobs. cbn. rewrite Hq. cbn. solve_Permutation. }
  assert (Hjin : forall j', In j' (jobs (vset_queue rest v)) -> In j' (jobs v))
    by (intros j' H; eapply Permutation_in; [apply Permutation_sym; exact Hperm | right; exact H]).
  assert (Hqin : forall x, In x rest -> In x (v_queue v)) by (intros x H; rewrite Hq; right; exact H).
  assert (Hnd1 : NoDup (j :: jobs (vset_queue rest v))) by (rewrite <- Hperm; exact (inv_nodup v Hi)).
  split; [| apply NoDup_cons_1_1 in Hnd1; intros H; apply Hnd1; apply list_elem_of_In; exact H].
  apply NoDup_cons_1_2 in Hnd1.
  inv_intro Hi. constructor; cbn [vset_queue v_tr v_proms v_reacts v_queue v_running v_destroy v_waiton];
    change (kind_of (vset_queue rest v)) with (kind_of v); intros.
  all: first
    [ exact Hord | exact Hcc | exact Hnd1 | exact (Hrk _ _ H)
    | solve [eauto]
    | solve [eapply Hseq; eauto] | solve [eapply Hprev; eauto] | solve [eapply Hnone; eauto]
    | exact (Hjs p (Hjin _ H))
    | (apply Hkd; destruct H as [H|H]; [left|right]; apply Hjin; exact H)
    | (intros H1; exact (Had w (Hjin _ H) (Hjin _ H1))) ].
Qed.

Lemma kind_of_vresolve x v p : kind_of (snd (vresolve x v)) p = kind_of (vnew PKResolved v) p.
Proof.
  unfold kind_of, vresolve, vnew. cbn. rewrite !lookup_app.
  destruct (v_proms v !! p); [reflexivity |]. destruct (p - length (v_proms v))%nat; reflexivity.
Qed.

Lemma Inv_resolve x v :
  Inv v -> Inv (snd (vresolve x v)) /\ fst (vresolve x v) = length (v_proms v) /\
           kind_of (snd (vresolve x v)) (fst (vresolve x v)) = Some PKResolved.
Proof.
  intros Hi. split; [| split; [reflexivity | rewrite kind_of_vresolve; apply kind_of_vnew_new]].
  assert (Hlt : forall p, In (EFulfil p) (v_tr v) -> (p < length (v_proms v))%nat)
    by (intros p; apply In_EFulfil_lt; exact Hi).
  assert (Hclt : forall p r, In (ECreate p r) (v_tr v) -> (p < length (v_proms v))%nat)
    by (intros p r; apply In_ECreate_lt; exact Hi).
  set (n := length (v_proms v)).
  assert (Hks : forall p k', kind_of v p = Some k' -> kind_of (snd (vresolve x v)) p = Some k')
    by (intros; rewrite kind_of_vresolve; apply kind_of_vnew_some; assumption).
  assert (Hkb : forall p k', kind_of (snd (vresolve x v)) p = Some k' ->
                  kind_of v p = Some k' \/ (p = n /\ k' = PKResolved))
    by (intros p k' H; rewrite kind_of_vresolve in H; exact (kind_of_vnew_cases _ _ _ _ H)).
  assert (Hpr : v_proms (snd (vresolve x v)) = v_proms v ++ [mkP (Fulfilled x) PKResolved]) by reflexivity.
  assert (Htr : v_tr (snd (vresolve x v)) = EFulfil n :: v_tr v) by reflexivity.
  assert (Hj : jobs (snd (vresolve x v)) = jobs v) by reflexivity.
  assert (Hre : v_reacts (snd (vresolve x v)) = v_reacts v) by reflexivity.
  assert (Hqu : v_queue (snd (vresolve x v)) = v_queue v) by reflexivity.
  assert (Hru : v_running (snd (vresolve x v)) = v_running v) by reflexivity.
  assert (Hde : v_destroy (snd (vresolve x v)) = v_destroy v) by reflexivity.
  assert (Hwa : v_waiton (snd (vresolve x v)) = v_waiton v) by reflexivity.
  set (v' := snd (vresolve x v)) in *.
  clearbody v'.
  assert (Htr' : forall e, In e (v_tr v) -> In e (v_tr v')) by (intros e H; rewrite Htr; right; exact H).
  assert (Hcr : forall p r, In (ECreate p r) (v_tr v') -> In (ECreate p r) (v_tr v))
    by (intros p r H; rewrite Htr in H; destruct H as [H|H]; [discriminate | exact H]).
  assert (Hst : forall p, In (EStart p) (v_tr v') -> In (EStart p) (v_tr v))
    by (intros p H; rewrite Htr in H; destruct H as [H|H]; [discriminate | exact H]).
  assert (Hbs : forall p, In (EBodyStart p) (v_tr v') -> In (EBodyStart p) (v_tr v))
    by (intros p H; rewrite Htr in H; destruct H as [H|H]; [discriminate | exact H]).
  inv_intro Hi. constructor; rewrite ?Hj, ?Hre, ?Hqu, ?Hru, ?Hde, ?Hwa; intros.
  - eauto.
  - eauto.
  - rewrite Hpr in H. apply lookup_app_Some in H. destruct H as [H|[Hl H]]; [eauto |].
    apply list_lookup_singleton_Some in H. destruct H as [H _].
    rewrite Htr. left. f_equal. unfold n. lia.
  - rewrite Hpr. rewrite Htr in H. destruct H as [H|H].
    + injection H as <-. exists x, PKResolved. apply list_lookup_middle. reflexivity.
    + destruct (Hful' p H) as (x1 & k1 & E). exists x1, k1. apply lookup_app_l_Some. exact E.
  - rewrite Htr. apply ordered_cons; [exact Hord | discriminate | discriminate].
  - destruct (Hkb p _ H0) as [H1|[_ H1]]; [| discriminate].
    rewrite Htr in H. destruct H as [H|H].
    + injection H as Hn. subst p. apply kind_of_lt in H1. unfold n in H1. lia.
    + destruct (Hfin p H H1). split; auto.
  - eauto.
  - destruct (Hstart p (Hst p H)) as [r Hr]. eauto.
  - apply Htr'. apply (Hseq p p' r r'); auto.
  - apply (Hprev p q p' r'); auto.
  - apply (Hnone p p' r'); auto.
  - apply (Hrmax p r); auto.
  - destruct (Hrunc q H) as [r Hr]. eauto.
  - destruct (Hprevc p q (Hcr _ _ H)) as [r Hr]. eauto.
  - eauto.
  - destruct (Hqs p s H) as (q & H1 & H2). eauto 7.
  - intros H1. exact (Hjs p H (Hst p H1)).
  - exact Hnd.
  - destruct (Hjf p H) as (H1 & H2 & H3 & H4). repeat split; auto.
    rewrite Htr. intros [H5|H5]; [| exact (H2 H5)]. injection H5 as Hn. subst p.
    apply kind_of_lt in H4. unfold n in H4. lia.
  - specialize (Hrk q j H). destruct j; try (destruct Hrk as (k1 & H1 & H2); exists k1; split; auto).
    auto.
  - eauto.
  - auto.
  - eauto.
  - destruct (Hkb w _ H) as [H1|[_ H1]]; [| discriminate].
    rewrite Htr in H0. destruct H0 as [H0|H0].
    + injection H0 as Hn. subst w. apply kind_of_lt in H1. unfold n in H1. lia.
    + destruct (Hwd w H1 H0) as (p & H2 & H3). eauto.
  - eauto.
  - destruct (Hjaq w x0 H) as (p & H1 & H2). eauto.
  - rewrite Htr. cbn. rewrite Hcc. reflexivity.
  - eauto.
  - rewrite Htr. apply bstarted_cons; [exact Hbst | discriminate].
Qed.

Lemma vsettle_running p s r v : vsettle p s (vset_running r v) = vset_running r (vsettle p s v).
Proof. unfold vsettle. cbn. destruct (v_proms v !! p) as [[[| |] k]|]; reflexivity. Qed.

Lemma vadd_then_running q j r v : vadd_then q j (vset_running r v) = vset_running r (vadd_then q j v).
Proof. unfold vadd_then. cbn. destruct (v_proms v !! q) as [[[| |] k]|]; reflexivity. Qed.

Lemma vwatch_cont_running p o r v :
  vwatch_cont p o (vset_running r v) =
  (fst (vwatch_cont p o v), vset_running r (snd (vwatch_cont p o v))).
Proof.
  destruct o as [e|x|]; unfold vwatch_cont, vcleanup, vfinish; cbn; destruct (v_destroy v); cbn;
    try reflexivity; try destruct x;
    rewrite <- ?vsettle_running, <- ?vadd_then_running; reflexivity.
Qed.

Lemma Inv_create_at u n :
  Inv u -> kind_of u n = Some PKRun ->
  (forall p r, In (ECreate p r) (v_tr u) -> (p < n)%nat) -> ~ In (EStart n) (v_tr u) ->
  Inv (vset_running (Some n) (vemit (ECreate n (v_running u)) u)).
Proof.
  intros Hi Hkn Hlt Hns.
  set (r0 := v_running u).
  assert (Htr : v_tr (vset_running (Some n) (vemit (ECreate n r0) u)) = ECreate n r0 :: v_tr u)
    by reflexivity.
  assert (Hk : forall p, kind_of (vset_running (Some n) (vemit (ECreate n r0) u)) p = kind_of u p)
    by reflexivity.
  assert (Hj : jobs (vset_running (Some n) (vemit (ECreate n r0) u)) = jobs u) by reflexivity.
  assert (Hpr : v_proms (vset_running (Some n) (vemit (ECreate n r0) u)) = v_proms u) by reflexivity.
  assert (Hre : v_reacts (vset_running (Some n) (vemit (ECreate n r0) u)) = v_reacts u) by reflexivity.
  assert (Hqu : v_queue (vset_running (Some n) (vemit (ECreate n r0) u)) = v_queue u) by reflexivity.
  assert (Hru : v_running (vset_running (Some n) (vemit (ECreate n r0) u)) = Some n) by reflexivity.
  assert (Hde : v_destroy (vset_running (Some n) (vemit (ECreate n r0) u)) = v_destroy u) by reflexivity.
  assert (Hwa : v_waiton (vset_running (Some n) (vemit (ECreate n r0) u)) = v_waiton u) by reflexivity.
  assert (Hr0 : v_running u = r0) by reflexivity.
  set (v' := vset_running (Some n) (vemit (ECreate n r0) u)) in *.
  clearbody v' r0.
  assert (Htr' : forall e, In e (v_tr u) -> In e (v_tr v')) by (intros e H; rewrite Htr; right; exact H).
  assert (Hcr : forall p r, In (ECreate p r) (v_tr v') -> (p = n /\ r = r0) \/ In (ECreate p r) (v_tr u))
    by (intros p r H; rewrite Htr in H; destruct H as [H|H]; [left; injection H as -> ->; auto | right; exact H]).
  assert (Hst : forall p, In (EStart p) (v_tr v') -> In (EStart p) (v_tr u))
    by (intros p H; rewrite Htr in H; destruct H as [H|H]; [discriminate | exact H]).
  assert (Hfu : forall p, In (EFulfil p) (v_tr v') -> In (EFulfil p) (v_tr u))
    by (intros p H; rewrite Htr in H; destruct H as [H|H]; [discriminate | exact H]).
  assert (Hbs : forall p, In (EBodyStart p) (v_tr v') -> In (EBodyStart p) (v_tr u))
    by (intros p H; rewrite Htr in H; destruct H as [H|H]; [discriminate | exact H]).
  assert (Hnc : forall r, ~ In (ECreate n r) (v_tr u)) by (intros r H; specialize (Hlt n r H); lia).
  inv_intro Hi. constructor; rewrite ?Hj, ?Hpr, ?Hre, ?Hqu, ?Hru, ?Hde, ?Hwa; intros; rewrite ?Hk in *.
  - destruct (Hcr p r H) as [[-> _]|H1]; eauto.
  - destruct (Hcr p r H) as [[Hp E1]|H1]; destruct (Hcr p r' H0) as [[Hp' E2]|H2]; subst.
    + reflexivity.
    + exfalso. exact (Hnc r' H2).
    + exfalso. exact (Hnc r H1).
    + eauto.
  - eauto.
  - eauto.
  - rewrite Htr. apply ordered_cons; [exact Hord | discriminate |].
    intros p q E. injection E as -> _. exact Hns.
  - destruct (Hfin p (Hfu p H) H0). auto.
  - eauto.
  - destruct (Hstart p (Hst p H)) as [r Hr]. eauto.
  - apply Htr'. apply Hst in H2.
    destruct (Hcr p r H) as [[-> _]|H3]; [exfalso; exact (Hns H2) |].
    destruct (Hcr p' r' H0) as [[-> _]|H4]; [specialize (Hlt p r H3); lia |].
    eauto.
  - destruct (Hcr p (Some q) H) as [[-> E]|H3]; destruct (Hcr p' r' H0) as [[-> _]|H4].
    + lia.
    + rewrite <- Hr0 in E. destruct (Hrmax p' r' H4) as (q0 & E1 & Hq0). rewrite E1 in E.
      injection E as <-. exact Hq0.
    + specialize (Hlt p _ H3). lia.
    + eauto.
  - destruct (Hcr p None H) as [[-> E]|H3]; destruct (Hcr p' r' H0) as [[-> _]|H4].
    + lia.
    + rewrite <- Hr0 in E. destruct (Hrmax p' r' H4) as (q0 & E1 & _). congruence.
    + specialize (Hlt p _ H3). lia.
    + eauto.
  - exists n. split; [reflexivity |]. destruct (Hcr p r H) as [[-> _]|H3]; [lia |].
    specialize (Hlt p r H3). lia.
  - injection H as <-. exists r0. rewrite Htr. left. reflexivity.
  - destruct (Hcr p (Some q) H) as [[-> E]|H3].
    + rewrite <- Hr0 in E. destruct (Hrunc q (eq_sym E)) as [r Hr]. eauto.
    + destruct (Hprevc p q H3) as [r Hr]. eauto.
  - eauto.
  - destruct (Hqs p s H) as (q & H1 & H2). eauto 7.
  - intros H1. exact (Hjs p H (Hst p H1)).
  - exact Hnd.
  - destruct (Hjf p H) as (H1 & H2 & H3 & H4). repeat split; auto.
  - exact (Hrk q j H).
  - eauto.
  - eauto.
  - eauto.
  - destruct (Hwd w H (Hfu w H0)) as (p & H1 & H2). eauto.
  - eauto.
  - destruct (Hjaq w x H) as (p & H1 & H2). eauto.
  - rewrite Htr. cbn. rewrite Hcc. reflexivity.
  - eauto.
  - rewrite Htr. apply bstarted_cons; [exact Hbst | discriminate].
Qed.

(** [runWatch]'s fresh handle [p]: the run [p] is created, waits on the
    previous handle and becomes [watch.running]. *)
Lemma Inv_create v :
  Inv v ->
  Inv (vset_running (Some (length (v_proms v)))
         (vemit (ECreate (length (v_proms v)) (v_running v)) (vnew PKRun v))).
Proof.
  intros Hi. change (v_running v) with (v_running (vnew PKRun v)).
  apply Inv_create_at.
  - apply Inv_vnew. exact Hi.
  - apply kind_of_vnew_new.
  - intros p r H. exact (In_ECreate_lt v p r Hi H).
  - intros H. destruct (inv_start v Hi _ H) as [r Hr].
    specialize (In_ECreate_lt v _ r Hi Hr). lia.
Qed.

Lemma ordered_emit tr e :
  ordered tr -> (forall p r, e <> ECreate p r) ->
  (forall p, e = EStart p -> forall q, In (ECreate p (Some q)) tr -> In (EFulfil q) tr) ->
  ordered (e :: tr).
Proof.
  intros Ho Hc Hs. destruct e; try (apply ordered_cons; [exact Ho | discriminate | discriminate]).
  - exfalso. exact (Hc p prev eq_refl).
  - apply ordered_start; [exact Ho | exact (Hs p eq_refl)].
Qed.

Lemma vset_destroy_same v : vset_destroy (v_destroy v) v = v.
Proof. destruct v; reflexivity. Qed.

(** Emitting one event and setting the cleanup slot to [d]: a run starts
    only when its turn has come, a body only inside its run, and the slot
    follows [cstep]. *)
Lemma Inv_emit v e d :
  Inv v -> (forall p r, e <> ECreate p r) -> (forall p, e <> EFulfil p) ->
  (forall p, e = EStart p ->
     ~ In (EStart p) (v_tr v) /\ ~ In (JStart p) (jobs v) /\ (exists r, In (ECreate p r) (v_tr v)) /\
     (forall q, In (ECreate p (Some q)) (v_tr v) -> In (EFulfil q) (v_tr v))) ->
  (forall p, e = EBodyStart p -> In (EStart p) (v_tr v)) ->
  cstep (v_destroy v) e = Some d ->
  (forall p, In (JFinish p) (jobs v) -> d = None) ->
  Inv (vemit e (vset_destroy d v)).
Proof.
  intros Hi Hnc Hnf Hes Hebs Hcs Hd.
  assert (Htr : v_tr (vemit e (vset_destroy d v)) = e :: v_tr v) by reflexivity.
  assert (Hk : forall p, kind_of (vemit e (vset_destroy d v)) p = kind_of v p) by reflexivity.
  assert (Hj : jobs (vemit e (vset_destroy d v)) = jobs v) by reflexivity.
  assert (Hpr : v_proms (vemit e (vset_destroy d v)) = v_proms v) by reflexivity.
  assert (Hre : v_reacts (vemit e (vset_destroy d v)) = v_reacts v) by reflexivity.
  assert (Hqu : v_queue (vemit e (vset_destroy d v)) = v_queue v) by reflexivity.
  assert (Hru : v_running (vemit e (vset_destroy d v)) = v_running v) by reflexivity.
  assert (Hde : v_destroy (vemit e (vset_destroy d v)) = d) by reflexivity.
  assert (Hwa : v_waiton (vemit e (vset_destroy d v)) = v_waiton v) by reflexivity.
  set (v' := vemit e (vset_destroy d v)) in *. clearbody v'.
  assert (Htr' : forall x, In x (v_tr v) -> In x (v_tr v')) by (intros x H; rewrite Htr; right; exact H).
  assert (Hcr : forall p r, In (ECreate p r) (v_tr v') -> In (ECreate p r) (v_tr v))
    by (intros p r H; rewrite Htr in H; destruct H as [H|H]; [exfalso; exact (Hnc p r H) | exact H]).
  assert (Hfu : forall p, In (EFulfil p) (v_tr v') -> In (EFulfil p) (v_tr v))
    by (intros p H; rewrite Htr in H; destruct H as [H|H]; [exfalso; exact (Hnf p H) | exact H]).
  assert (Hst : forall p, In (EStart p) (v_tr v') -> e = EStart p \/ In (EStart p) (v_tr v))
    by (intros p H; rewrite Htr in H; destruct H as [H|H]; [left; exact H | right; exact H]).
  pose proof (inv_ord v Hi) as Hord0.
  pose proof (inv_cc v Hi) as Hcc0.
  inv_intro Hi. constructor; rewrite ?Hj, ?Hpr, ?Hre, ?Hqu, ?Hru, ?Hde, ?Hwa; intros; rewrite ?Hk in *.
  - eauto.
  - eauto.
  - eauto.
  - eauto.
  - rewrite Htr. apply ordered_emit; [exact Hord | exact Hnc |].
    intros p E. exact (proj2 (proj2 (proj2 (Hes p E)))).
  - destruct (Hfin p (Hfu p H) H0). auto.
  - rewrite Htr in H. destruct H as [H|H]; [exact (Htr' _ (Hebs p H)) | eauto].
  - destruct (Hst p H) as [E|H1].
    + destruct (Hes p E) as (_ & _ & (r & Hr) & _). eauto.
    + destruct (Hstart p H1) as [r Hr]. eauto.
  - apply Htr'. apply Hcr in H. apply Hcr in H0.
    destruct (Hst p H2) as [E|H3]; [| eauto].
    destruct (Hes p E) as (_ & _ & _ & Hq).
    destruct r as [q|].
    + specialize (Hprev p q p' r' H H0 H1).
      destruct (Nat.eq_dec p' q) as [-> | Hne]; [exact (Hq q H) |].
      destruct (Hprevc p q H) as [rq Hrq].
      destruct (Hfin q (Hq q H) (Hkc q rq Hrq)) as [_ Hsq].
      apply (Hseq q p' rq r'); auto. lia.
    + specialize (Hnone p p' r' H H0). lia.
  - apply (Hprev p q p' r'); auto.
  - apply (Hnone p p' r'); auto.
  - apply (Hrmax p r); auto.
  - destruct (Hrunc q H) as [r Hr]. eauto.
  - destruct (Hprevc p q (Hcr _ _ H)) as [r Hr]. eauto.
  - eauto.
  - destruct (Hqs p s H) as (q & H1 & H2). eauto 7.
  - intros H1. destruct (Hst p H1) as [E|H2].
    + destruct (Hes p E) as (_ & Hn & _). exact (Hn H).
    + exact (Hjs p H H2).
  - exact Hnd.
  - destruct (Hjf p H) as (H1 & H2 & H3 & H4). repeat split; eauto.
  - exact (Hrk q j H).
  - eauto.
  - eauto.
  - eauto.
  - destruct (Hwd w H (Hfu w H0)) as (p & H1 & H2). eauto.
  - eauto.
  - destruct (Hjaq w x H) as (p & H1 & H2). eauto.
  - rewrite Htr. cbn. rewrite Hcc. exact Hcs.
  - eauto.
  - rewrite Htr. apply bstarted_cons; [exact Hbst | exact Hebs].
Qed.

Lemma Inv_emit_same v e :
  Inv v -> (forall p r, e <> ECreate p r) -> (forall p, e <> EFulfil p) ->
  (forall p, e = EStart p ->
     ~ In (EStart p) (v_tr v) /\ ~ In (JStart p) (jobs v) /\ (exists r, In (ECreate p r) (v_tr v)) /\
     (forall q, In (ECreate p (Some q)) (v_tr v) -> In (EFulfil q) (v_tr v))) ->
  (forall p, e = EBodyStart p -> In (EStart p) (v_tr v)) ->
  cstep (v_destroy v) e = Some (v_destroy v) ->
  Inv (vemit e v).
Proof.
  intros Hi H1 H2 H3 H4 H5. replace (vemit e v) with (vemit e (vset_destroy (v_destroy v) v)) by (rewrite vset_destroy_same; reflexivity).
  apply Inv_emit; auto.
  intros p H. exact (proj1 (proj2 (proj2 (inv_jf v Hi p H)))).
Qed.

Lemma Inv_enqueue v j s :
  Inv v -> ~ In j (jobs v) ->
  (forall p, j = JStart p -> ~ In (EStart p) (v_tr v) /\
     exists q, In (ECreate p (Some q)) (v_tr v) /\ (forall x, s = SOk x -> In (EFulfil q) (v_tr v))) ->
  (forall p, j = JFinish p -> In (EStart p) (v_tr v) /\ ~ In (EFulfil p) (v_tr v) /\
     v_destroy v = None /\ kind_of v p = Some PKRun /\ (forall x, s = SOk x -> In (EBodyEnd p) (v_tr v))) ->
  (forall w, j = JDeferredRun w -> kind_of v w = Some PKDeferred /\ ~ In (JAdopt w) (jobs v)) ->
  (forall w, j = JAdopt w -> kind_of v w = Some PKDeferred /\ ~ In (JDeferredRun w) (jobs v) /\
     (forall x, s = SOk x -> exists p, In (EDeferred w p) (v_tr v) /\ In (EFulfil p) (v_tr v))) ->
  Inv (vset_queue (v_queue v ++ [(j, s)]) v).
Proof.
  intros Hi Hn HS HF HD HA.
  set (v' := vset_queue (v_queue v ++ [(j, s)]) v).
  assert (Hperm : Permutation (jobs v') (j :: jobs v)).
  { unfold v', jobs. cbn. rewrite map_app. cbn. solve_Permutation. }
  assert (Hjin : forall j', In j' (jobs v') -> j' = j \/ In j' (jobs v)).
  { intros j' H. eapply Permutation_in in H; [| exact Hperm]. destruct H; auto. }
  assert (Hjold : forall j', In j' (jobs v) -> In j' (jobs v')).
  { intros j' H. eapply Permutation_in; [apply Permutation_sym; exact Hperm | right; exact H]. }
  assert (Hqin : forall j' s', In (j', s') (v_queue v') -> (j' = j /\ s' = s) \/ In (j', s') (v_queue v)).
  { intros j' s' H. cbn in H. apply in_app_or in H. destruct H as [H|[H|[]]]; [right; exact H |].
    injection H as -> ->. left. auto. }
  assert (Hnd' : NoDup (jobs v')).
  { rewrite Hperm. constructor; [intros H; apply Hn; apply list_elem_of_In; exact H | exact (inv_nodup v Hi)]. }
  inv_intro Hi. constructor; change (v_tr v') with (v_tr v); change (v_proms v') with (v_proms v);
    change (v_reacts v') with (v_reacts v); change (v_running v') with (v_running v);
    change (v_destroy v') with (v_destroy v); change (v_waiton v') with (v_waiton v); intros.
  all: change (kind_of v') with (kind_of v) in *.
  all: try assumption.
  - eauto.
  - eauto.
  - eauto.
  - eauto.
  - eauto.
  - eauto.
  - eauto.
  - exact (Hseq p p' r r' H H0 H1 H2).
  - exact (Hprev p q p' r' H H0 H1).
  - exact (Hnone p p' r' H H0).
  - eauto.
  - eauto.
  - eauto.
  - eauto.
  - destruct (Hqin _ _ H) as [[Ej Es]|H1]; [subst j s0; exact (proj2 (HS p eq_refl)) | eauto].
  - destruct (Hjin _ H) as [Ej|H1]; [subst j; exact (proj1 (HS p eq_refl)) | eauto].
  - destruct (Hjin _ H) as [Ej|H1]; [subst j | eauto].
    destruct (HF p eq_refl) as (H1 & H2 & H3 & H4 & _). auto.
  - exact (Hrk q j0 H).
  - destruct (Hqin _ _ H) as [[Ej Es]|H1]; [subst j s | eauto].
    exact (proj2 (proj2 (proj2 (proj2 (HF p eq_refl)))) x eq_refl).
  - destruct H as [H|H]; destruct (Hjin _ H) as [Ej|H1].
    + subst j. exact (proj1 (HD w eq_refl)).
    + eauto.
    + subst j. exact (proj1 (HA w eq_refl)).
    + eauto.
  - intros H1. destruct (Hjin _ H) as [Ej|H2]; destruct (Hjin _ H1) as [Ej'|H3].
    + rewrite <- Ej' in Ej. discriminate.
    + subst j. exact (proj1 (proj2 (HA w eq_refl)) H3).
    + subst j. exact (proj2 (HD w eq_refl) H2).
    + exact (Had w H2 H3).
  - eauto.
  - eauto.
  - destruct (Hqin _ _ H) as [[Ej Es]|H1]; [subst j s | eauto].
    exact (proj2 (proj2 (HA w eq_refl)) x eq_refl).
  - eauto.
Qed.

Lemma Inv_react v q j :
  Inv v -> ~ In j (jobs v) ->
  (forall p, j = JStart p -> ~ In (EStart p) (v_tr v) /\ In (ECreate p (Some q)) (v_tr v)) ->
  (forall p, j = JFinish p -> In (EStart p) (v_tr v) /\ ~ In (EFulfil p) (v_tr v) /\
     v_destroy v = None /\ kind_of v p = Some PKRun) ->
  (forall w, j = JDeferredRun w -> kind_of v w = Some PKDeferred /\ ~ In (JAdopt w) (jobs v)) ->
  (forall w, j = JAdopt w -> kind_of v w = Some PKDeferred /\ ~ In (JDeferredRun w) (jobs v) /\
     In (EDeferred w q) (v_tr v)) ->
  match j with
  | JFinish p => kind_of v q = Some (PKBody p)
  | _ => exists k, kind_of v q = Some k /\ forall p, k <> PKBody p
  end ->
  Inv (mkV (v_tr v) (v_proms v) (v_reacts v ++ [(q, j)]) (v_queue v) (v_running v) (v_destroy v)
           (v_waiton v)).
Proof.
  intros Hi Hn HS HF HD HA HK.
  set (v' := mkV (v_tr v) (v_proms v) (v_reacts v ++ [(q, j)]) (v_queue v) (v_running v)
                 (v_destroy v) (v_waiton v)).
  assert (Hperm : Permutation (jobs v') (j :: jobs v)).
  { unfold v', jobs. cbn. rewrite map_app. cbn. solve_Permutation. }
  assert (Hjin : forall j', In j' (jobs v') -> j' = j \/ In j' (jobs v)).
  { intros j' H. eapply Permutation_in in H; [| exact Hperm]. destruct H; auto. }
  assert (Hrin : forall q' j', In (q', j') (v_reacts v') -> (q' = q /\ j' = j) \/ In (q', j') (v_reacts v)).
  { intros q' j' H. cbn in H. apply in_app_or in H. destruct H as [H|[H|[]]]; [right; exact H |].
    injection H as -> ->. left. auto. }
  assert (Hnd' : NoDup (jobs v')).
  { rewrite Hperm. constructor; [intros H; apply Hn; apply list_elem_of_In; exact H | exact (inv_nodup v Hi)]. }
  inv_intro Hi. constructor; change (v_tr v') with (v_tr v); change (v_proms v') with (v_proms v);
    change (v_queue v') with (v_queue v); change (v_running v') with (v_running v);
    change (v_destroy v') with (v_destroy v); change (v_waiton v') with (v_waiton v); intros.
  all: change (kind_of v') with (kind_of v) in *.
  all: try assumption.
  - eauto.
  - eauto.
  - eauto.
  - eauto.
  - eauto.
  - eauto.
  - eauto.
  - exact (Hseq p p' r r' H H0 H1 H2).
  - exact (Hprev p q0 p' r' H H0 H1).
  - exact (Hnone p p' r' H H0).
  - eauto.
  - eauto.
  - eauto.
  - destruct (Hrin _ _ H) as [[Eq Ej]|H1]; [subst q0 j; exact (proj2 (HS p eq_refl)) | eauto].
  - eauto.
  - destruct (Hjin _ H) as [Ej|H1]; [subst j; exact (proj1 (HS p eq_refl)) | eauto].
  - destruct (Hjin _ H) as [Ej|H1]; [subst j | eauto].
    destruct (HF p eq_refl) as (H1 & H2 & H3 & H4). auto.
  - destruct (Hrin _ _ H) as [[Eq Ej]|H1]; [subst q0 j0; exact HK | exact (Hrk q0 j0 H1)].
  - eauto.
  - destruct H as [H|H]; destruct (Hjin _ H) as [Ej|H1].
    + subst j. exact (proj1 (HD w eq_refl)).
    + eauto.
    + subst j. exact (proj1 (HA w eq_refl)).
    + eauto.
  - intros H1. destruct (Hjin _ H) as [Ej|H2]; destruct (Hjin _ H1) as [Ej'|H3].
    + rewrite <- Ej' in Ej. discriminate.
    + subst j. exact (proj1 (proj2 (HA w eq_refl)) H3).
    + subst j. exact (proj2 (HD w eq_refl) H2).
    + exact (Had w H2 H3).
  - eauto.
  - destruct (Hrin _ _ H) as [[Eq Ej]|H1]; [subst p j; exact (proj2 (proj2 (HA w eq_refl))) | eauto].
  - eauto.
  - eauto.
Qed.

(** [add_then q j]: the reaction waits on a pending [q], or the job is
    queued with [q]'s outcome. *)
Lemma Inv_add v q j :
  Inv v -> ~ In j (jobs v) ->
  (forall p, j = JStart p -> ~ In (EStart p) (v_tr v) /\ In (ECreate p (Some q)) (v_tr v)) ->
  (forall p, j = JFinish p -> In (EStart p) (v_tr v) /\ ~ In (EFulfil p) (v_tr v) /\
     v_destroy v = None /\ kind_of v p = Some PKRun /\
     (forall x k, v_proms v !! q = Some (mkP (Fulfilled x) k) -> In (EBodyEnd p) (v_tr v))) ->
  (forall w, j <> JDeferredRun w) ->
  (forall w, j = JAdopt w -> kind_of v w = Some PKDeferred /\ ~ In (JDeferredRun w) (jobs v) /\
     In (EDeferred w q) (v_tr v)) ->
  match j with
  | JFinish p => kind_of v q = Some (PKBody p)
  | _ => exists k, kind_of v q = Some k /\ forall p, k <> PKBody p
  end ->
  Inv (vadd_then q j v).
Proof.
  intros Hi Hn HS HF HD HA HK. unfold vadd_then.
  destruct (v_proms v !! q) as [[st k]|] eqn:E; [destruct st as [|x|e] | exact Hi].
  - apply Inv_react; auto.
    + intros p Ej. destruct (HF p Ej) as (H1 & H2 & H3 & H4 & _). auto.
    + intros w Ej. exfalso. exact (HD w Ej).
  - apply Inv_enqueue; auto.
    + intros p Ej. destruct (HS p Ej) as [H1 H2]. split; [exact H1 |].
      exists q. split; [exact H2 |]. intros x0 _. exact (inv_ful v Hi q x k E).
    + intros p Ej. destruct (HF p Ej) as (H1 & H2 & H3 & H4 & H5). repeat split; auto.
      intros x0 _. exact (H5 x k eq_refl).
    + intros w Ej. exfalso. exact (HD w Ej).
    + intros w Ej. destruct (HA w Ej) as (H1 & H2 & H3). repeat split; auto.
      intros x0 _. exists q. split; [exact H3 | exact (inv_ful v Hi q x k E)].
  - apply Inv_enqueue; auto.
    + intros p Ej. destruct (HS p Ej) as [H1 H2]. split; [exact H1 |].
      exists q. split; [exact H2 | intros x0 Hx; discriminate].
    + intros p Ej. destruct (HF p Ej) as (H1 & H2 & H3 & H4 & H5). repeat split; auto.
      intros x0 Hx; discriminate.
    + intros w Ej. exfalso. exact (HD w Ej).
    + intros w Ej. destruct (HA w Ej) as (H1 & H2 & H3). repeat split; auto.
      intros x0 Hx; discriminate.
Qed.

Lemma Inv_cleanup v :
  Inv v ->
  Inv (vcleanup v) /\ v_destroy (vcleanup v) = None /\ jobs (vcleanup v) = jobs v /\
  v_proms (vcleanup v) = v_proms v /\
  (forall e, In e (v_tr v) -> In e (v_tr (vcleanup v))) /\
  (forall e, In e (v_tr (vcleanup v)) -> In e (v_tr v) \/ exists fn, e = ECall fn).
Proof.
  intros Hi. unfold vcleanup. destruct (v_destroy v) as [fn|] eqn:E.
  - split; [| split; [reflexivity | split; [reflexivity | split; [reflexivity | split]]]].
    + apply Inv_emit; auto; try discriminate.
      rewrite E. cbn. rewrite Nat.eqb_refl. reflexivity.
    + intros e H. right. exact H.
    + intros e [H|H]; [right; exists fn; auto | left; exact H].
  - split; [exact Hi | split; [exact E | split; [reflexivity | split; [reflexivity |]]]].
    split; [auto | intros e H; left; exact H].
Qed.

Lemma Inv_finish v p x :
  Inv v -> v_destroy v = None -> (forall p', ~ In (JFinish p') (jobs v)) ->
  kind_of v p = Some PKRun -> In (EBodyEnd p) (v_tr v) -> In (EStart p) (v_tr v) ->
  Inv (vfinish p x v).
Proof.
  intros Hi Hd Hnf Hk Hbe Hst. unfold vfinish.
  assert (Hpre : forall u, Inv u -> kind_of u p = Some PKRun -> In (EBodyEnd p) (v_tr u) ->
                   In (EStart p) (v_tr u) -> ~ In (JFinish p) (jobs u) -> Inv (vsettle p (SOk PWatch) u)).
  { intros u Hu Hku Hb Hs Hj. apply Inv_settle; [exact Hu |]. intros x0 _.
    rewrite Hku. split; [auto | split; intros; discriminate]. }
  destruct (isFunction x) as [fn|].
  - apply Hpre.
    + apply Inv_emit; auto; try discriminate.
      * rewrite Hd. reflexivity.
      * intros p' H. exfalso. exact (Hnf p' H).
    + exact Hk.
    + right. exact Hbe.
    + right. exact Hst.
    + exact (Hnf p).
  - apply Hpre; auto.
Qed.

(** The continuation of run [p] keeps the invariant when the run's turn
    has come and no other run is in its body. *)
Lemma Inv_watch_cont v p o :
  Inv v -> ~ In (EStart p) (v_tr v) -> ~ In (JStart p) (jobs v) ->
  (exists r, In (ECreate p r) (v_tr v)) ->
  (forall q, In (ECreate p (Some q)) (v_tr v) -> In (EFulfil q) (v_tr v)) ->
  (forall p', ~ In (JFinish p') (jobs v)) ->
  Inv (snd (vwatch_cont p o v)).
Proof.
  intros Hi Hns Hnj [r Hr] Hq Hnf.
  assert (Hk : kind_of v p = Some PKRun) by exact (inv_kcreate v Hi p r Hr).
  assert (Hi0 : Inv (vemit (EStart p) v)).
  { apply Inv_emit_same; auto; try discriminate;
      try (intros p' E; injection E as <-; repeat split; eauto; fail);
      destruct (v_destroy v); reflexivity. }
  destruct (Inv_cleanup _ Hi0) as (Hi1 & Hd1 & Hj1 & Hp1 & Hin1 & Hout1).
  set (c := vcleanup (vemit (EStart p) v)) in *.
  assert (Hi2 : Inv (vemit (EBodyStart p) c)).
  { apply Inv_emit_same; auto; try discriminate;
      try (intros p' E; injection E as <-; apply Hin1; left; reflexivity);
      rewrite Hd1; reflexivity. }
  assert (Hj2 : jobs (vemit (EBodyStart p) c) = jobs v) by exact Hj1.
  assert (Hk2 : kind_of (vemit (EBodyStart p) c) p = Some PKRun)
    by (unfold kind_of; cbn; rewrite Hp1; exact Hk).
  assert (Hs2 : In (EStart p) (v_tr (vemit (EBodyStart p) c)))
    by (right; apply Hin1; left; reflexivity).
  assert (Hnfu : ~ In (EFulfil p) (v_tr (vemit (EBodyStart p) c))).
  { intros [H|H]; [discriminate |]. destruct (Hout1 _ H) as [[H1|H1]|[fn H1]]; try discriminate.
    exact (Hns (proj2 (inv_fin v Hi p H1 Hk))). }
  set (v1 := vemit (EBodyStart p) c) in *.
  unfold vwatch_cont. fold c. fold v1. destruct o as [e|x|]; cbn [snd].
  - apply Inv_quiet; [exact Hi2 | reflexivity].
  - apply Inv_finish.
    + apply Inv_quiet; [exact Hi2 | reflexivity].
    + exact Hd1.
    + intros p'. change (jobs (vemit (EBodyEnd p) v1)) with (jobs v1). rewrite Hj2. exact (Hnf p').
    + exact Hk2.
    + left. reflexivity.
    + right. exact Hs2.
  - apply Inv_add.
    + apply Inv_vnew. exact Hi2.
    + change (jobs (vnew (PKBody p) v1)) with (jobs v1). rewrite Hj2. exact (Hnf p).
    + intros p' E. discriminate.
    + intros p' E. injection E as <-. repeat split.
      * exact Hs2.
      * exact Hnfu.
      * exact Hd1.
      * apply kind_of_vnew_some. exact Hk2.
      * intros x k E. cbn in E. rewrite list_lookup_middle in E by reflexivity. discriminate.
    + intros w E. discriminate.
    + intros w E. discriminate.
    + apply kind_of_vnew_new.
Qed.

Lemma JStart_created v p : Inv v -> In (JStart p) (jobs v) -> exists r, In (ECreate p r) (v_tr v).
Proof.
  intros Hi H. unfold jobs in H. apply in_app_or in H. destruct H as [H|H]; apply in_map_iff in H.
  - destruct H as [[q j] [E H]]. cbn in E. subst j. exists (Some q). exact (inv_rs v Hi q p H).
  - destruct H as [[j s] [E H]]. cbn in E. subst j. destruct (inv_qs v Hi p s H) as (q & H1 & _).
    exists (Some q). exact H1.
Qed.

Lemma JFinish_started v p : Inv v -> In (JFinish p) (jobs v) -> exists r, In (ECreate p r) (v_tr v).
Proof. intros Hi H. exact (inv_start v Hi p (proj1 (inv_jf v Hi p H))). Qed.

Lemma kind_of_vwatch_cont p o v w k :
  kind_of v w = Some k -> kind_of (snd (vwatch_cont p o v)) w = Some k.
Proof.
  intros H. unfold vwatch_cont, vcleanup, vfinish.
  change (v_destroy (vemit (EStart p) v)) with (v_destroy v).
  destruct o as [e|x|]; cbn [snd].
  - destruct (v_destroy v); exact H.
  - rewrite kind_of_vsettle. destruct (isFunction (PRet x)); destruct (v_destroy v); exact H.
  - rewrite kind_of_vadd_then. apply kind_of_vnew_some. destruct (v_destroy v); exact H.
Qed.

Lemma jobs_vwatch_cont p o v j :
  In j (jobs (snd (vwatch_cont p o v))) -> In j (jobs v) \/ j = JFinish p.
Proof.
  unfold vwatch_cont, vcleanup, vfinish. intros H.
  change (v_destroy (vemit (EStart p) v)) with (v_destroy v) in H.
  destruct o as [e|x|]; cbn [snd] in H.
  - left. destruct (v_destroy v); exact H.
  - left. eapply Permutation_in in H; [| apply jobs_vsettle].
    destruct (isFunction (PRet x)); destruct (v_destroy v); exact H.
  - eapply Permutation_in in H; [| apply jobs_vadd_then].
    destruct (v_destroy v); cbn in H; destruct (_ !! _) in H; try (destruct H as [H|H]); auto.
Qed.

(** [runWatch] keeps the invariant; its handle is a run handle or a
    resolved promise, and it adds only start and finish continuations. *)
Lemma Inv_runWatch v d o :
  Inv v ->
  Inv (snd (vrunWatch d o v)) /\
  (kind_of (snd (vrunWatch d o v)) (fst (vrunWatch d o v)) = Some PKRun \/
   kind_of (snd (vrunWatch d o v)) (fst (vrunWatch d o v)) = Some PKResolved) /\
  (forall w k, kind_of v w = Some k -> kind_of (snd (vrunWatch d o v)) w = Some k) /\
  (forall j, In j (jobs (snd (vrunWatch d o v))) -> In j (jobs v) \/ exists p, j = JStart p \/ j = JFinish p).
Proof.
  intros Hi. unfold vrunWatch. destruct d; cbn [negb].
  2: { destruct (Inv_resolve PWatch v Hi) as (H1 & _ & H3). split; [exact H1 | split; [right; exact H3 |]].
       split; [intros w k H; rewrite kind_of_vresolve; apply kind_of_vnew_some; exact H |].
       intros j H. left. exact H. }
  set (n := length (v_proms v)).
  assert (Hw1 := Inv_create v Hi). fold n in Hw1.
  set (v1 := vemit (ECreate n (v_running v)) (vnew PKRun v)) in *.
  assert (Hk1 : forall w k, kind_of v w = Some k -> kind_of v1 w = Some k)
    by (intros w k H; apply kind_of_vnew_some; exact H).
  assert (Hkn : kind_of v1 n = Some PKRun) by apply kind_of_vnew_new.
  assert (Hj1 : jobs v1 = jobs v) by reflexivity.
  assert (HnJ : ~ In (JStart n) (jobs v)).
  { intros H. destruct (JStart_created v n Hi H) as [r Hr]. specialize (In_ECreate_lt v n r Hi Hr). lia. }
  assert (HnS : ~ In (EStart n) (v_tr (vset_running (Some n) v1))).
  { intros [H|H]; [discriminate |]. destruct (inv_start v Hi n H) as [r Hr].
    specialize (In_ECreate_lt v n r Hi Hr). lia. }
  cbv zeta. cbn [fst snd]. destruct (v_running v) as [r|] eqn:Er.
  - rewrite <- vadd_then_running. split; [| split; [| split]].
    + apply Inv_add; [exact Hw1 | exact HnJ | | | intros w E; discriminate | intros w E; discriminate |].
      * intros p E. injection E as <-. split; [exact HnS |]. left. unfold v1. rewrite ?Er. reflexivity.
      * intros p E. discriminate.
      * destruct (inv_runc v Hi r Er) as [r' Hr']. exists PKRun.
        split; [apply Hk1; exact (inv_kcreate v Hi r r' Hr') | intros p E; discriminate].
    + left. rewrite kind_of_vadd_then. exact Hkn.
    + intros w k H. rewrite kind_of_vadd_then. apply Hk1. exact H.
    + intros j H. eapply Permutation_in in H; [| apply jobs_vadd_then].
      destruct (_ !! _) in H; [destruct H as [<-|H] |]; eauto.
  - assert (Hnf : forall p', ~ In (JFinish p') (jobs (vset_running (Some n) v1))).
    { intros p' H. destruct (JFinish_started v p' Hi H) as [r' Hr'].
      destruct (inv_runmax v Hi p' r' Hr') as (q & Eq & _). congruence. }
    assert (Hc := Inv_watch_cont (vset_running (Some n) v1) n o Hw1 HnS HnJ).
    rewrite vwatch_cont_running in Hc.
    assert (Hq : forall q, In (ECreate n (Some q)) (v_tr (vset_running (Some n) v1)) ->
                   In (EFulfil q) (v_tr (vset_running (Some n) v1))).
    { intros q [H|H].
      - unfold v1 in H. rewrite ?Er in H. discriminate.
      - specialize (In_ECreate_lt v n _ Hi H). lia. }
    specialize (Hc (ex_intro _ None (or_introl eq_refl)) Hq Hnf).
    cbn [snd] in Hc.
    assert (Hkw : forall w k, kind_of v1 w = Some k -> kind_of (snd (vwatch_cont n o v1)) w = Some k)
      by (intros; apply kind_of_vwatch_cont; assumption).
    assert (Hjw := jobs_vwatch_cont n o v1).
    destruct (vwatch_cont n o v1) as [[e|] v'].
    + rewrite <- vsettle_running. cbn [snd] in Hkw, Hjw. split; [| split; [| split]].
      * apply Inv_settle; [exact Hc | intros x E; discriminate].
      * left. rewrite kind_of_vsettle. apply Hkw. exact Hkn.
      * intros w k H. rewrite kind_of_vsettle. apply Hkw. apply Hk1. exact H.
      * intros j H. eapply Permutation_in in H; [| apply jobs_vsettle].
        destruct (Hjw j H) as [H1|H1]; eauto.
    + cbn [snd] in Hkw, Hjw. split; [exact Hc | split; [| split]].
      * left. apply Hkw. exact Hkn.
      * intros w k H. apply Hkw. apply Hk1. exact H.
      * intros j H. destruct (Hjw j H) as [H1|H1]; eauto.
Qed.

(** ** The view of each operation *)

Lemma view_settle p s m : view_of (snd (settle p s m)) = vsettle p s (view_of m).
Proof. unfold settle, vsettle. cbn. destruct (m_proms m !! p) as [[[| |] k]|]; reflexivity. Qed.

Lemma view_add_then q j m :
  add_then q j m = (Ok tt, snd (add_then q j m)) /\
  view_of (snd (add_then q j m)) = vadd_then q j (view_of m).
Proof. unfold add_then, vadd_then. cbn. destruct (m_proms m !! q) as [[[| |] k]|]; split; reflexivity. Qed.

Lemma view_track o prop m : view_of (snd (track o prop m)) = view_of m.
Proof.
  unfold track, bind, get, assertDefined. destruct (getProxyTarget (m_heap m) o); cbn;
    [destruct (truthy prop)|]; reflexivity.
Qed.

Lemma view_run_acts acts m : view_of (snd (run_acts acts m)) = view_of m.
Proof.
  revert m. induction acts as [|a acts IH]; intros m; [reflexivity |].
  destruct a as [o prop|]; simpl run_acts; unfold bind.
  - pose proof (view_track o prop m) as H.
    destruct (track o prop m) as [[v|e] m1]; simpl in H |- *; [rewrite IH|]; exact H.
  - change (notify m) with (Ok tt, snd (notify m)). cbv beta iota. rewrite IH. reflexivity.
Qed.

Lemma view_body_state p m :
  view_of (body_state p m) = vemit (EBodyStart p) (vcleanup (vemit (EStart p) (view_of m))).
Proof.
  unfold body_state, vcleanup. rewrite cleanupWatch_eq. cbn.
  destruct (destroy (m_watch m)) eqn:Hd; [destruct (m_fns m _)|]; cbn; reflexivity.
Qed.

Lemma body_part_cases p b m :
  exists m2 o, view_of m2 = view_of m /\
  match o with
  | BOThrow e => body_part p b m = (Throw e, set_trace m2 (EBodyEnd p :: m_trace m2))
  | BORet x => body_part p b m = (Ok (RVal (PRet x)), set_trace m2 (EBodyEnd p :: m_trace m2))
  | BOAsync => body_part p b m =
                 (Ok (RProm (length (m_proms m2))), set_proms m2 (m_proms m2 ++ [mkP Pending (PKBody p)]))
  end.
Proof.
  pose proof (view_run_acts (b_acts b) m) as Hv.
  unfold body_part, catch, bind.
  destruct (run_acts (b_acts b) m) as [[u|e] m2]; simpl in Hv.
  - exists m2. destruct (b_res b) as [x|e|].
    + exists (BORet x). split; [exact Hv | reflexivity].
    + exists (BOThrow e). split; [exact Hv | reflexivity].
    + exists BOAsync. split; [exact Hv | reflexivity].
  - exists m2, (BOThrow e). split; [exact Hv | reflexivity].
Qed.

Lemma view_finish p x m :
  finish p x m = (Ok tt, snd (finish p x m)) /\
  view_of (snd (finish p x m)) = vfinish p x (view_of m).
Proof.
  unfold finish, vfinish. destruct (isFunction x); cbn -[settle];
    (split; [apply settle_ok | rewrite view_settle; reflexivity]).
Qed.

Lemma view_watch_cont p b m :
  exists o, res_match (fst (watch_cont p b m)) (fst (vwatch_cont p o (view_of m))) /\
            view_of (snd (watch_cont p b m)) = snd (vwatch_cont p o (view_of m)).
Proof.
  rewrite watch_cont_eq. pose proof (view_body_state p m) as Hb.
  destruct (body_part_cases p b (body_state p m)) as (m2 & o & Hv & Ho).
  exists o. unfold vwatch_cont. rewrite <- Hb, <- Hv.
  destruct o as [e|x|].
  - rewrite (bind_throw _ _ _ _ _ Ho). split; reflexivity.
  - rewrite (bind_ok _ _ _ _ _ Ho). simpl result_part.
    destruct (view_finish p (PRet x) (set_trace m2 (EBodyEnd p :: m_trace m2))) as [E V].
    rewrite E. split; [exact I | exact V].
  - rewrite (bind_ok _ _ _ _ _ Ho). simpl result_part.
    destruct (view_add_then (length (m_proms m2)) (JFinish p)
                (set_proms m2 (m_proms m2 ++ [mkP Pending (PKBody p)]))) as [E V].
    rewrite E. split; [exact I | exact V].
Qed.

Lemma view_runWatch b m :
  exists d o, fst (runWatch b m) = Ok (fst (vrunWatch d o (view_of m))) /\
              view_of (snd (runWatch b m)) = snd (vrunWatch d o (view_of m)).
Proof.
  destruct (has_flag (f (m_watch m)) WatchFlagsIsDirty) eqn:Hd.
  - exists true. rewrite (runWatch_dirty_eq b m Hd). unfold vrunWatch, run_start. cbn [negb].
    change (v_proms (view_of m)) with (m_proms m).
    change (v_running (view_of m)) with (running (m_watch m)).
    assert (Hv : view_of (run_state m) =
                 vemit (ECreate (length (m_proms m)) (running (m_watch m))) (vnew PKRun (view_of m)))
      by reflexivity.
    destruct (running (m_watch m)) as [r|] eqn:Hr.
    + exists BOAsync. destruct (view_add_then r (JStart (length (m_proms m))) (run_state m)) as [E V].
      rewrite (bind_ok _ _ _ _ _ E). cbn [fst snd]. rewrite <- Hv, <- V. split; reflexivity.
    + destruct (view_watch_cont (length (m_proms m)) b (run_state m)) as (o & R & V).
      exists o. rewrite <- Hv.
      destruct (watch_cont (length (m_proms m)) b (run_state m)) as [[u|e] m1] eqn:E;
        simpl in R, V; destruct (vwatch_cont (length (m_proms m)) o (view_of (run_state m))) as [[e'|] v'];
        simpl in R, V; try contradiction; subst v'.
      * rewrite (bind_ok _ _ _ _ _ (catch_ok _ _ _ _ _ E)). cbn. split; reflexivity.
      * subst e'. rewrite (bind_ok _ _ _ tt (snd (settle (length (m_proms m)) (SErr e) m1)))
          by (erewrite catch_throw by exact E; apply settle_ok).
        cbn. rewrite <- view_settle. split; reflexivity.
  - exists false, BOAsync. unfold runWatch, vrunWatch.
    rewrite (bind_ok get_watch _ m (m_watch m) m) by reflexivity. rewrite Hd. split; reflexivity.
Qed.

Lemma view_exec_job b j s m :
  exists d o, res_match (fst (exec_job b j s m)) (fst (vexec d o j s (view_of m))) /\
              view_of (snd (exec_job b j s m)) = snd (vexec d o j s (view_of m)).
Proof.
  destruct j as [p|p|w|w]; destruct s as [x|e]; cbn [exec_job vexec].
  - exists true. apply view_watch_cont.
  - exists true, BOAsync. split; reflexivity.
  - exists true, BOAsync. destruct (view_finish p x m) as [E V]. rewrite E. split; [exact I | exact V].
  - exists true, BOAsync. split; reflexivity.
  - destruct (view_runWatch b m) as (d & o & R & V). exists d, o.
    destruct (runWatch b m) as [r m1] eqn:E. simpl in R, V. subst r.
    destruct (vrunWatch d o (view_of m)) as [p v'] eqn:Ev. simpl in V |- *.
    unfold catch, bind. rewrite E. cbn -[add_then].
    destruct (view_add_then p (JAdopt w) (set_trace m1 (EDeferred w p :: m_trace m1))) as [E2 V2].
    rewrite E2. split; [exact I |]. cbn. rewrite V2.
    change (view_of (set_trace m1 (EDeferred w p :: m_trace m1))) with (vemit (EDeferred w p) (view_of m1)).
    rewrite V. reflexivity.
  - exists true, BOAsync. rewrite settle_ok. split; [exact I | apply view_settle].
  - exists true, BOAsync. rewrite settle_ok. split; [exact I | apply view_settle].
  - exists true, BOAsync. rewrite settle_ok. split; [exact I | apply view_settle].
Qed.

Lemma view_step m m' : step m m' -> vstep (view_of m) (view_of m').
Proof.
  intros H. destruct H as [b j s rest Hq | b | | q p v Hp | q p e Hp].
  - destruct (view_exec_job b j s (set_queue m rest)) as (d & o & R & V).
    unfold run_task. rewrite Hq.
    replace (view_of (set_queue m rest)) with (vset_queue rest (view_of m)) in R, V by reflexivity.
    destruct (exec_job b j s (set_queue m rest)) as [r m1].
    eassert (Hs : _) by exact (vstep_task (view_of m) d o j s rest Hq).
    unfold vuncaught in Hs. simpl in R, V.
    destruct (vexec d o j s (vset_queue rest (view_of m))) as [[e|] v'].
    + destruct r as [u|e1]; [contradiction|]. simpl in R. subst e1. simpl in V |- *.
      replace (view_of (set_trace m1 (EUncaught e :: m_trace m1))) with (vemit (EUncaught e) (view_of m1))
        by reflexivity. rewrite V. exact Hs.
    + destruct r as [u|e1]; [|contradiction]. rewrite V. exact Hs.
  - destruct (view_runWatch b m) as (d & o & _ & V). rewrite V. apply vstep_run.
  - apply vstep_same.
  - unfold settle_body. rewrite Hp. rewrite view_settle. exact (vstep_settle (view_of m) q p _ Hp).
  - unfold settle_body. rewrite Hp. rewrite view_settle. exact (vstep_settle (view_of m) q p _ Hp).
Qed.

(** ** The invariant holds on every reachable state *)

(** When run [p]'s turn has come (it waited on a fulfilled [q]) and it has
    not started, no run is inside its body. *)
Lemma no_finish_at_turn v p q :
  Inv v -> ~ In (EStart p) (v_tr v) -> In (ECreate p (Some q)) (v_tr v) -> In (EFulfil q) (v_tr v) ->
  forall p', ~ In (JFinish p') (jobs v).
Proof.
  intros Hi Hns Hc Hf p' Hj.
  destruct (inv_jf v Hi p' Hj) as (Hs' & Hnf' & _ & _).
  destruct (inv_start v Hi p' Hs') as [r' Hr'].
  destruct (lt_eq_lt_dec p' p) as [[Hlt| ->]|Hgt].
  - pose proof (inv_prev v Hi p q p' r' Hc Hr' Hlt) as Hle.
    destruct (Nat.eq_dec p' q) as [-> | Hne]; [exact (Hnf' Hf) |].
    destruct (inv_prevc v Hi p q Hc) as [rq Hrq].
    destruct (inv_fin v Hi q Hf (inv_kcreate v Hi q rq Hrq)) as [_ Hsq].
    apply Hnf'. apply (inv_seq v Hi q p' rq r' Hrq Hr'); [lia | exact Hsq].
  - exact (Hns Hs').
  - pose proof (inv_seq v Hi p' p r' (Some q) Hr' Hc Hgt Hs') as Hfp.
    exact (Hns (proj2 (inv_fin v Hi p Hfp (inv_kcreate v Hi p _ Hc)))).
Qed.

(** At most one run is inside its body. *)
Lemma finish_unique v p p' :
  Inv v -> In (JFinish p) (jobs v) -> In (JFinish p') (jobs v) -> p = p'.
Proof.
  intros Hi H1 H2.
  destruct (inv_jf v Hi p H1) as (Hs1 & Hn1 & _ & _).
  destruct (inv_jf v Hi p' H2) as (Hs2 & Hn2 & _ & _).
  destruct (inv_start v Hi p Hs1) as [r1 Hr1]. destruct (inv_start v Hi p' Hs2) as [r2 Hr2].
  destruct (lt_eq_lt_dec p p') as [[Hlt|E]|Hgt]; [| exact E |].
  - exfalso. exact (Hn1 (inv_seq v Hi p' p r2 r1 Hr2 Hr1 Hlt Hs2)).
  - exfalso. exact (Hn2 (inv_seq v Hi p p' r1 r2 Hr1 Hr2 Hgt Hs1)).
Qed.

Lemma Inv_uncaught r : Inv (snd r) -> Inv (vuncaught r).
Proof. destruct r as [[e|] v]; cbn; intros H; [apply Inv_quiet; [exact H | reflexivity] | exact H]. Qed.

Lemma Inv_exec v d o j s rest :
  Inv v -> v_queue v = (j, s) :: rest -> Inv (snd (vexec d o j s (vset_queue rest v))).
Proof.
  intros Hi Hq.
  destruct (Inv_pop v j s rest Hi Hq) as [Hu Hnu].
  set (u := vset_queue rest v) in *.
  assert (Hju : forall j', In j' (jobs u) -> In j' (jobs v)).
  { intros j' H. unfold jobs in *. cbn in H. rewrite Hq. cbn. apply in_app_or in H.
    apply in_or_app. destruct H as [H|H]; [left; exact H | right; right; exact H]. }
  assert (Hjv : In j (jobs v)) by (unfold jobs; rewrite Hq; apply in_or_app; right; left; reflexivity).
  assert (Hqv : In (j, s) (v_queue v)) by (rewrite Hq; left; reflexivity).
  assert (Hku : forall w, kind_of u w = kind_of v w) by reflexivity.
  assert (Htu : v_tr u = v_tr v) by reflexivity.
  destruct j as [p|p|w|w]; destruct s as [x|e]; cbn [vexec snd]; try exact Hu.
  - destruct (inv_qs v Hi p _ Hqv) as (q & Hc & Hf). specialize (Hf x eq_refl).
    pose proof (inv_js v Hi p Hjv) as Hns.
    apply Inv_watch_cont; rewrite ?Htu; auto.
    + exists (Some q). exact Hc.
    + intros q' Hc'. pose proof (inv_cuniq v Hi p _ _ Hc' Hc) as E. injection E as ->. exact Hf.
    + intros p' H. exact (no_finish_at_turn v p q Hi Hns Hc Hf p' (Hju _ H)).
  - destruct (inv_jf v Hi p Hjv) as (Hs & _ & Hd & Hk).
    apply Inv_finish; rewrite ?Htu, ?Hku; auto.
    + intros p' H. pose proof (finish_unique v p p' Hi Hjv (Hju _ H)) as E. subst p'. exact (Hnu H).
    + exact (inv_jfq v Hi p x Hqv).
  - destruct (vrunWatch d o u) as [p v'] eqn:R.
    destruct (Inv_runWatch u d o Hu) as (H1 & H2 & H3 & H4). rewrite R in H1, H2, H3, H4.
    cbn [fst snd] in H1, H2, H3, H4.
    assert (Hkw : kind_of v w = Some PKDeferred) by (apply (inv_kdef v Hi); left; exact Hjv).
    apply Inv_add.
    + apply Inv_quiet; [exact H1 | reflexivity].
    + intros H. change (jobs (vemit (EDeferred w p) v')) with (jobs v') in H.
      destruct (H4 _ H) as [H5|(p0 & [H5|H5])]; try discriminate.
      exact (inv_adopt v Hi w (Hju _ H5) Hjv).
    + intros p0 E. discriminate.
    + intros p0 E. discriminate.
    + intros w0 E. discriminate.
    + intros w0 E. injection E as <-. split; [| split].
      * apply H3. rewrite Hku. exact Hkw.
      * intros H. change (jobs (vemit (EDeferred w p) v')) with (jobs v') in H.
        destruct (H4 _ H) as [H5|(p0 & [H5|H5])]; try discriminate. exact (Hnu H5).
      * left. reflexivity.
    + destruct H2 as [E|E]; exists (match kind_of v' p with Some k => k | None => PKRun end);
        split; change (kind_of (vemit (EDeferred w p) v') p) with (kind_of v' p); rewrite E;
        try reflexivity; intros p0 E'; discriminate.
  - apply Inv_settle; [exact Hu | intros x E; discriminate].
  - apply Inv_settle; [exact Hu |]. intros x0 E. injection E as <-.
    assert (Hkw : kind_of u w = Some PKDeferred)
      by (rewrite Hku; apply (inv_kdef v Hi); right; exact Hjv).
    rewrite Hkw. split; [intros E; discriminate | split; [| intros p0 E; discriminate]].
    intros _. rewrite Htu. exact (inv_jaq v Hi w x Hqv).
  - apply Inv_settle; [exact Hu | intros x E; discriminate].
Qed.

Lemma Inv_vstep v v' : Inv v -> vstep v v' -> Inv v'.
Proof.
  intros Hi H. destruct H as [d o j s rest Hq | d o | | q p s Hp].
  - apply Inv_uncaught. exact (Inv_exec v d o j s rest Hi Hq).
  - exact (proj1 (Inv_runWatch v d o Hi)).
  - exact Hi.
  - apply Inv_settle; [apply Inv_quiet; [exact Hi | reflexivity] |].
    assert (Hk : kind_of (vemit (EBodyEnd p) v) q = Some (PKBody p))
      by (unfold kind_of; cbn; rewrite Hp; reflexivity).
    intros x _. rewrite Hk. split; [intros E; discriminate | split; [intros E; discriminate |]].
    intros p0 E. injection E as <-. left. reflexivity.
Qed.

Lemma bstarted_none tr : (forall p, In (EBodyStart p) tr -> False) -> bstarted tr.
Proof.
  intros H post pre p E. exfalso. apply (H p). rewrite E.
  apply in_or_app. right. left. reflexivity.
Qed.

Ltac inv_concrete :=
  constructor; [..| apply bstarted_none]; unfold ordered, jobs, kind_of; cbn; intros;
  repeat match goal with
         | H : _ \/ _ |- _ => destruct H
         | H : False |- _ => contradiction
         end;
  try discriminate.

Lemma Inv_initial m : initial m -> Inv (view_of m).
Proof.
  intros H. destruct H as [w h fns Hd Hr | w h fns q el0 i0 srv run].
  - unfold view_of, fresh_machine. cbn. rewrite Hd, Hr. inv_concrete.
    + constructor.
    + reflexivity.
  - assert (E : view_of (snd (useWatchQrl false q el0 i0 srv run (fresh_machine w h fns))) =
                mkV (match srv, run with
                     | true, Some TLoad => [ERegister TLoad]
                     | true, Some TVisible => [ERegister TVisible]
                     | _, _ => [] end ++ [EFulfil 0])
                    [mkP (Fulfilled (PRet None)) PKResolved; mkP Pending PKDeferred] []
                    [(JDeferredRun 1, SOk (PRet None))] None None [1%nat]).
    { destruct srv; [destruct run as [[|]|] |]; reflexivity. }
    rewrite E. clear E.
    destruct srv; [destruct run as [[|]|] |]; inv_concrete;
      repeat match goal with
             | H : EFulfil _ = EFulfil _ |- _ => injection H as <-
             | H : JDeferredRun _ = JDeferredRun _ |- _ => injection H as <-
             | H : _ = ?w |- _ => is_var w; subst w
             end;
      try discriminate; try reflexivity; eauto 8.
    all: try apply NoDup_singleton.
    all: destruct p as [|[|p]]; cbn in *; try discriminate; auto.
Qed.

Lemma Inv_reach m0 m : initial m0 -> reach m0 m -> Inv (view_of m).
Proof.
  intros H0 H. induction H as [|m1 m2 _ IH Hs].
  - apply Inv_initial. exact H0.
  - exact (Inv_vstep _ _ IH (view_step m1 m2 Hs)).
Qed.

(** ** C1: the runs of a descriptor are single-flight *)

(** C1: in every reachable state, a run created while [watch.running] was
    the handle [q] of a previous run begins its continuation (which calls
    [cleanupWatch], then the body) only after [q] was fulfilled, earlier in
    the trace, and invokes its body only after that too; and at most one
    body is active (invoked and not yet ended) at any time. *)
Theorem runs_single_flight (m0 m : machine) :
  initial m0 -> reach m0 m ->
  (forall post pre p q, m_trace m = post ++ EStart p :: pre ->
     In (ECreate p (Some q)) (m_trace m) -> In (EFulfil q) pre) /\
  (forall post pre p q, m_trace m = post ++ EBodyStart p :: pre ->
     In (ECreate p (Some q)) (m_trace m) -> In (EFulfil q) pre) /\
  (forall p p', body_active m p -> body_active m p' -> p = p').
Proof.
  intros H0 H. pose proof (Inv_reach m0 m H0 H) as Hi.
  inv_intro Hi. cbn in *.
  split; [exact Hord | split].
  - intros post pre p q E Hc.
    destruct (in_split _ _ (Hbst post pre p E)) as [l1 [l2 E2]].
    assert (E3 : m_trace m = (post ++ EBodyStart p :: l1) ++ EStart p :: l2)
      by (rewrite E, E2, <- app_assoc; reflexivity).
    rewrite E2. apply in_or_app. right. right. exact (Hord _ _ p q E3 Hc).
  - intros p p' [Hb Hne] [Hb' Hne'].
    destruct (Hstart p (Hbody p Hb)) as [r Hr].
    destruct (Hstart p' (Hbody p' Hb')) as [r' Hr'].
    destruct (Nat.lt_total p p') as [Hlt|[Heq|Hgt]]; [exfalso | exact Heq | exfalso].
    + pose proof (Hseq p' p r' r Hr' Hr Hlt (Hbody p' Hb')) as Hf.
      exact (Hne (proj1 (Hfin p Hf (Hkc p r Hr)))).
    + pose proof (Hseq p p' r r' Hr Hr' Hgt (Hbody p Hb)) as Hf.
      exact (Hne' (proj1 (Hfin p' Hf (Hkc p' r' Hr')))).
Qed.

(** ** C4: a stored cleanup is invoked once, before the next body *)

Lemma ccheck_suffix post tr d : ccheck (post ++ tr) = Some d -> exists d', ccheck tr = Some d'.
Proof.
  revert d. induction post as [|e post IH]; intros d H; [exists d; exact H |].
  cbn in H. destruct (ccheck (post ++ tr)) as [pend|] eqn:E; [exact (IH pend eq_refl) | discriminate].
Qed.

Lemma ccheck_at post e pre d :
  ccheck (post ++ e :: pre) = Some d ->
  exists pend d', ccheck pre = Some pend /\ cstep pend e = Some d'.
Proof.
  intros H. destruct (ccheck_suffix post (e :: pre) d H) as [d1 H1].
  cbn in H1. destruct (ccheck pre) as [pend|]; [| discriminate].
  exists pend, d1. split; [reflexivity | exact H1].
Qed.

(** C4: in every reachable state the trace follows the cleanup slot
    [watch.destroy]: read oldest first, a cleanup [fn] is invoked only while
    the slot holds [fn] (and [cstep] says the call empties it), a run
    stores its cleanup only in an empty slot, and a body is invoked only on
    an empty slot.  So the cleanup a run stored is invoked once, strictly
    before the next body, and never again; the slot the trace ends with is
    [watch.destroy]. *)
Theorem cleanup_before_body (m0 m : machine) :
  initial m0 -> reach m0 m ->
  ccheck (m_trace m) = Some (destroy (m_watch m)) /\
  (forall post pre fn, m_trace m = post ++ ECall fn :: pre -> ccheck pre = Some (Some fn)) /\
  (forall post pre p, m_trace m = post ++ EBodyStart p :: pre -> ccheck pre = Some None) /\
  (forall post pre p fn, m_trace m = post ++ EStore p fn :: pre -> ccheck pre = Some None).
Proof.
  intros H0 H. pose proof (inv_cc _ (Inv_reach m0 m H0 H)) as Hc. cbn in Hc.
  split; [exact Hc | split; [| split]].
  - intros post pre fn E. rewrite E in Hc.
    destruct (ccheck_at _ _ _ _ Hc) as [pend [d' [Hp Hs]]].
    rewrite Hp. cbn in Hs. destruct pend as [g|]; [| discriminate].
    destruct (Nat.eqb fn g) eqn:Eg; [| discriminate].
    apply Nat.eqb_eq in Eg. subst. reflexivity.
  - intros post pre p E. rewrite E in Hc.
    destruct (ccheck_at _ _ _ _ Hc) as [pend [d' [Hp Hs]]].
    rewrite Hp. cbn in Hs. destruct pend; [discriminate | reflexivity].
  - intros post pre p fn E. rewrite E in Hc.
    destruct (ccheck_at _ _ _ _ Hc) as [pend [d' [Hp Hs]]].
    rewrite Hp. cbn in Hs. destruct pend; [discriminate | reflexivity].
Qed.

(** ** C6: what the registrars make setup wait on *)

(** C6 (counterexample): once [useWatchQrl] has registered a watch whose
    body is asynchronous, and its deferred initial run has invoked that
    body (run [2]), setup still waits on the registered promise [1], which
    is pending while the body is active. *)
Lemma useWatchQrl_setup_waits_cex :
  initial setup_m0 /\ reach setup_m0 setup_m1 /\
  m_waiton setup_m1 = [1%nat] /\ body_active setup_m1 2 /\ ~ setup_settled setup_m1.
Proof.
  split; [exact (initial_watch (sample_watch 0) sample_heap sample_fns 100 1 0 false None) |].
  split.
  { apply (reach_step setup_m0 setup_m0 setup_m1 (reach_refl setup_m0)).
    exact (step_task setup_m0 (mkB [] BAsync) (JDeferredRun 1) (SOk (PRet None)) [] eq_refl). }
  split; [vm_compute; reflexivity |].
  split.
  - unfold body_active. vm_compute. split; [right; left; reflexivity |].
    intros H. repeat destruct H as [H|H]; try discriminate; exact H.
  - unfold setup_settled. vm_compute. intros H. inversion H as [|x l Hf _ Hx]; subst.
    destruct Hf as [v [k E]]. vm_compute in E. discriminate.
Qed.


Lemma add_then_keeps q j m :
  exists m', add_then q j m = (Ok tt, m') /\ m_trace m' = m_trace m /\
             m_proms m' = m_proms m /\ m_waiton m' = m_waiton m.
Proof. unfold add_then. repeat case_match; eexists; repeat split. Qed.

(** What [useWatchQrl] does to the trace, to what setup waits on and to
    the promise it registers. *)
Lemma useWatchQrl_effect q el0 i0 srv run m :
  m_trace (snd (useWatchQrl false q el0 i0 srv run m)) =
    (if srv then match run with Some t => [ERegister t] | None => [] end else [])
      ++ EFulfil (length (m_proms m)) :: m_trace m /\
  m_waiton (snd (useWatchQrl false q el0 i0 srv run m)) = S (length (m_proms m)) :: m_waiton m /\
  m_proms (snd (useWatchQrl false q el0 i0 srv run m)) !! S (length (m_proms m)) =
    Some (mkP Pending PKDeferred).
Proof.
  unfold useWatchQrl, bind, modify_watch, modify, promise_resolve, new_pending, ret. cbn -[add_then].
  match goal with |- context [add_then ?q ?j ?m] =>
    destruct (add_then_keeps q j m) as [m1 [E [Ht [Hp Hw]]]]; rewrite E end.
  unfold useWaitOn, modify. cbn.
  assert (Hl : m_proms m1 !! S (length (m_proms m)) = Some (mkP Pending PKDeferred)).
  { rewrite Hp. cbn. rewrite <- app_assoc. cbn.
    rewrite lookup_app_r by lia. rewrite Nat.sub_succ_l, Nat.sub_diag by lia. reflexivity. }
  destruct srv; [destruct run as [[|]|] |]; cbn; rewrite Ht, Hw; cbn;
    (split; [reflexivity | split; [rewrite length_app; cbn; f_equal; lia | exact Hl]]).
Qed.


(** C6 (amended): registering starts no run: neither [useWatchQrl] nor
    [useClientEffectQrl] adds an [EStart] or an [EBodyStart] to the trace,
    and [useClientEffectQrl] adds nothing that setup waits on.  But
    [useWatchQrl] makes setup wait on a fresh pending promise, the one
    derived from its deferred initial run; and in every reachable state a
    promise setup waits on is fulfilled only after the run handle it
    followed was fulfilled and, if that handle is a run, after its body
    completed: setup waits on the initial run's body. *)
Theorem registrars_defer_watch_awaits_body (m0 m : machine) :
  initial m0 -> reach m0 m ->
  (forall scoped q el0 i0 srv run m1 p,
     (In (EStart p) (m_trace (snd (useWatchQrl scoped q el0 i0 srv run m1))) ->
        In (EStart p) (m_trace m1)) /\
     (In (EBodyStart p) (m_trace (snd (useWatchQrl scoped q el0 i0 srv run m1))) ->
        In (EBodyStart p) (m_trace m1))) /\
  (forall scoped q el0 i0 run obs m1 p,
     m_waiton (snd (useClientEffectQrl scoped q el0 i0 run obs m1)) = m_waiton m1 /\
     (In (EStart p) (m_trace (snd (useClientEffectQrl scoped q el0 i0 run obs m1))) ->
        In (EStart p) (m_trace m1)) /\
     (In (EBodyStart p) (m_trace (snd (useClientEffectQrl scoped q el0 i0 run obs m1))) ->
        In (EBodyStart p) (m_trace m1))) /\
  (forall q el0 i0 srv run m1,
     m_waiton (snd (useWatchQrl false q el0 i0 srv run m1)) = S (length (m_proms m1)) :: m_waiton m1 /\
     m_proms (snd (useWatchQrl false q el0 i0 srv run m1)) !! S (length (m_proms m1)) =
       Some (mkP Pending PKDeferred)) /\
  (forall w, In w (m_waiton m) -> fulfilled m w ->
     exists p, In (EDeferred w p) (m_trace m) /\ In (EFulfil p) (m_trace m) /\
       (forall r, In (ECreate p r) (m_trace m) -> In (EBodyEnd p) (m_trace m))).
Proof.
  intros H0 H. split; [| split; [| split]].
  - intros scoped q el0 i0 srv run m1 p.
    destruct scoped; [split; intros Hin; exact Hin |].
    destruct (useWatchQrl_effect q el0 i0 srv run m1) as [Ht _]. rewrite Ht.
    split; intros Hin; apply in_app_or in Hin as [Hin|Hin];
      try (destruct srv; [destruct run as [[|]|] |]; cbn in Hin;
           repeat destruct Hin as [Hin|Hin]; try discriminate; contradiction);
      (destruct Hin as [Hin|Hin]; [discriminate | exact Hin]).
  - intros scoped q el0 i0 run obs m1 p.
    destruct scoped; [split; [reflexivity | split; intros Hin; exact Hin] |].
    unfold useClientEffectQrl, useRunWatch, bind, modify_watch, modify, emit, ret.
    destruct run as [[|]|], obs; cbn;
      (split; [reflexivity | split; intros Hin; repeat (destruct Hin as [Hin|Hin]; [discriminate |]); exact Hin]).
  - intros q el0 i0 srv run m1.
    destruct (useWatchQrl_effect q el0 i0 srv run m1) as [_ [Hw Hp]]. split; [exact Hw | exact Hp].
  - intros w Hw [x [k Hf]]. pose proof (Inv_reach m0 m H0 H) as Hi. inv_intro Hi. cbn in *.
    pose proof (Hful w x k Hf) as Hfw.
    destruct (Hwd w (Hwt w Hw) Hfw) as [p [Hd Hfp]].
    exists p. split; [exact Hd | split; [exact Hfp |]].
    intros r Hc. exact (proj1 (Hfin p Hfp (Hkc p r Hc))).
Qed.

(** * Further properties of the code *)

(** ** [destroyWatch] *)

(** The teardown branch of [destroyWatch] runs at most once: whether or
    not the registered function throws, the first call clears IS_CLEANUP
    and keeps the cleanup slot, so a second [destroyWatch] is
    [cleanupWatch]; with no stored cleanup it does nothing at all. *)
Theorem destroyWatch_teardown_once (m : machine) :
  has_flag (f (m_watch m)) WatchFlagsIsCleanup = true ->
  has_flag (f (m_watch (snd (destroyWatch m)))) WatchFlagsIsCleanup = false /\
  destroy (m_watch (snd (destroyWatch m))) = destroy (m_watch m) /\
  destroyWatch (snd (destroyWatch m)) = cleanupWatch (snd (destroyWatch m)) /\
  (destroy (m_watch m) = None -> destroyWatch (snd (destroyWatch m)) = (Ok tt, snd (destroyWatch m))).
Proof.
  intros Hc.
  assert (Hf : has_flag (f (m_watch (snd (destroyWatch m)))) WatchFlagsIsCleanup = false /\
               destroy (m_watch (snd (destroyWatch m))) = destroy (m_watch m)).
  { unfold destroyWatch, bind, get_watch. cbn. rewrite Hc.
    unfold modify_watch, modify, call_fn. cbn.
    destruct (m_fns m (qrl (m_watch m))); cbn;
      (split; [apply (has_flag_clear _ 3); lia | reflexivity]). }
  destruct Hf as [Hf Hd].
  assert (He : destroyWatch (snd (destroyWatch m)) = cleanupWatch (snd (destroyWatch m))).
  { unfold destroyWatch at 1. unfold bind at 1, get_watch at 1. cbn [fst snd]. rewrite Hf. reflexivity. }
  split; [exact Hf | split; [exact Hd | split; [exact He |]]].
  intros Hn. rewrite He, cleanupWatch_eq, Hd, Hn. reflexivity.
Qed.

(** ** The registrars' descriptors *)

(** [useClientEffectQrl] replaces the slot's descriptor by a fresh effect
    descriptor (IS_EFFECT only, no cleanup, no run in flight), records a
    run trigger ([visible] by default) and observes the element when
    [doc.qO] exists.  That descriptor is clean and not a cleanup: a
    [runWatch] right after registration runs nothing and answers a resolved
    promise, and [destroyWatch] does nothing. *)
Theorem useClientEffectQrl_descriptor q el0 i0 run obs b m :
  m_watch (snd (useClientEffectQrl false q el0 i0 run obs m)) =
    mkWatch q el0 WatchFlagsIsEffect i0 None None /\
  m_trace (snd (useClientEffectQrl false q el0 i0 run obs m)) =
    (if obs then [EObserve el0] else []) ++
    ERegister (match run with Some t => t | None => TVisible end) :: m_trace m /\
  runWatch b (snd (useClientEffectQrl false q el0 i0 run obs m)) =
    promise_resolve PWatch (snd (useClientEffectQrl false q el0 i0 run obs m)) /\
  destroyWatch (snd (useClientEffectQrl false q el0 i0 run obs m)) =
    (Ok tt, snd (useClientEffectQrl false q el0 i0 run obs m)).
Proof.
  assert (Hw : m_watch (snd (useClientEffectQrl false q el0 i0 run obs m)) =
               mkWatch q el0 WatchFlagsIsEffect i0 None None)
    by (unfold useClientEffectQrl, useRunWatch, bind, modify_watch, modify, emit, ret;
        destruct run as [[|]|], obs; reflexivity).
  split; [exact Hw | split].
  - unfold useClientEffectQrl, useRunWatch, bind, modify_watch, modify, emit, ret.
    destruct run as [[|]|], obs; reflexivity.
  - split.
    + unfold runWatch, bind at 1, get_watch. cbn [fst snd]. rewrite Hw. reflexivity.
    + assert (Hn : has_flag (f (m_watch (snd (useClientEffectQrl false q el0 i0 run obs m))))
                     WatchFlagsIsCleanup = false) by (rewrite Hw; reflexivity).
      unfold destroyWatch, bind at 1, get_watch. cbn [fst snd]. rewrite Hn.
      rewrite cleanupWatch_eq, Hw. reflexivity.
Qed.



Lemma useWatchQrl_state q el0 i0 srv run m :
  m_queue (snd (useWatchQrl false q el0 i0 srv run m)) =
    m_queue m ++ [(JDeferredRun (S (length (m_proms m))), SOk (PRet None))] /\
  m_watch (snd (useWatchQrl false q el0 i0 srv run m)) =
    mkWatch q el0 (Z.lor WatchFlagsIsDirty WatchFlagsIsWatch) i0 None None /\
  length (m_proms (snd (useWatchQrl false q el0 i0 srv run m))) = S (S (length (m_proms m))).
Proof.
  unfold useWatchQrl, bind, modify_watch, modify, promise_resolve, new_pending, ret. cbn -[add_then].
  assert (Hlk : forall a b : promise, ((m_proms m ++ [a]) ++ [b]) !! length (m_proms m) = Some a)
    by (intros a b; rewrite <- app_assoc, lookup_app_r, Nat.sub_diag by lia; reflexivity).
  unfold add_then. cbn. rewrite !Hlk.
  unfold useWaitOn, modify. cbn.
  destruct srv; [destruct run as [[|]|] |]; cbn;
    (split; [rewrite length_app; cbn; rewrite Nat.add_1_r; reflexivity
            | split; [reflexivity | rewrite !length_app; cbn; lia]]).
Qed.

Lemma watch_cont_started p b m : In (EStart p) (m_trace (snd (watch_cont p b m))).
Proof.
  assert (G : stable grows (let! _ := cleanupWatch in
                            let! r := invoke_watchFn p b in
                            match r with RVal v => finish p v | RProm q => add_then q (JFinish p) end))
    by (unfold invoke_watchFn; stab; unfold result_part; stab).
  unfold watch_cont. rewrite (bind_ok _ _ _ tt (set_trace m (EStart p :: m_trace m))) by reflexivity.
  destruct (G (set_trace m (EStart p :: m_trace m))) as [[l Hl] _].
  rewrite Hl. apply in_app_iff. right. left. reflexivity.
Qed.


(** [useWatchQrl] on an empty queue queues its deferred run as the only
    job.  The descriptor it installs is dirty and has no run in flight, so
    running that job creates a run [p] without a predecessor, starts its
    continuation, invokes its body (whatever the body does) and hands [p]
    to the awaited promise. *)
Theorem useWatchQrl_initial_run q el0 i0 srv run m b :
  m_queue m = [] ->
  m_queue (snd (useWatchQrl false q el0 i0 srv run m)) =
    [(JDeferredRun (S (length (m_proms m))), SOk (PRet None))] /\
  (forall p, p = length (m_proms (snd (useWatchQrl false q el0 i0 srv run m))) ->
   In (ECreate p None) (m_trace (run_task b (snd (useWatchQrl false q el0 i0 srv run m)))) /\
   In (EStart p) (m_trace (run_task b (snd (useWatchQrl false q el0 i0 srv run m)))) /\
   In (EBodyStart p) (m_trace (run_task b (snd (useWatchQrl false q el0 i0 srv run m)))) /\
   In (EDeferred (S (length (m_proms m))) p)
      (m_trace (run_task b (snd (useWatchQrl false q el0 i0 srv run m))))).
Proof.
  intros Hq0. destruct (useWatchQrl_state q el0 i0 srv run m) as [Hq1 [Hw1 _]].
  rewrite Hq0, app_nil_l in Hq1. split; [exact Hq1 |]. intros p Hp.
  set (w := S (length (m_proms m))) in *.
  set (m1 := snd (useWatchQrl false q el0 i0 srv run m)) in *. clearbody m1.
  unfold run_task. rewrite Hq1.
  set (m1q := set_queue m1 []).
  assert (Hd : has_flag (f (m_watch m1q)) WatchFlagsIsDirty = true) by (cbn; rewrite Hw1; reflexivity).
  assert (Hr : running (m_watch m1q) = None) by (cbn; rewrite Hw1; reflexivity).
  assert (Hlen : length (m_proms m1q) = p) by (cbn; symmetry; exact Hp).
  assert (HR : exists m3, runWatch b m1q = (Ok p, m3) /\ In (ECreate p None) (m_trace m3) /\
                          In (EStart p) (m_trace m3) /\ In (EBodyStart p) (m_trace m3)).
  { rewrite (runWatch_dirty_eq b m1q Hd), Hr, Hlen. unfold run_start.
    assert (Hc : In (ECreate p None) (m_trace (run_state m1q)))
      by (rewrite <- Hlen at 1; rewrite <- Hr; exact (in_eq _ _)).
    pose proof (watch_cont_started p b (run_state m1q)) as Hs.
    pose proof (watch_cont_body_started p b (run_state m1q)) as Hb.
    destruct (grows_watch_cont p b (run_state m1q)) as [[l Hl] _].
    destruct (watch_cont p b (run_state m1q)) as [r3 m3] eqn:Ew. cbn in Hs, Hb, Hl.
    assert (Hc3 : In (ECreate p None) (m_trace m3)) by (rewrite Hl; apply in_or_app; right; exact Hc).
    destruct r3 as [u|e].
    - unfold bind at 1, catch. cbv beta. rewrite Ew. cbn.
      eexists. split; [reflexivity | split; [exact Hc3 | split; assumption]].
    - unfold bind at 1, catch. cbv beta. rewrite Ew. rewrite settle_ok. cbn.
      destruct (grows_settle p (SErr e) m3) as [[l' Hl'] _].
      eexists. split; [reflexivity |].
      cbn. rewrite Hl'. split; [| split]; apply in_or_app; right; assumption. }
  destruct HR as [m3 [HR [H1 [H2 H3]]]].
  destruct (add_then_frame p (JAdopt w) (set_trace m3 (EDeferred w p :: m_trace m3)))
    as [m5 [E5 [_ [Ht5 _]]]].
  assert (E6 : exec_job b (JDeferredRun w) (SOk (PRet None)) m1q = (Ok tt, m5)).
  { unfold exec_job. apply catch_ok. rewrite (bind_ok _ _ _ _ _ HR).
    rewrite (bind_ok _ _ _ tt (set_trace m3 (EDeferred w p :: m_trace m3))) by reflexivity.
    exact E5. }
  rewrite E6, Ht5.
  split; [right; exact H1 | split; [right; exact H2 | split; [right; exact H3 | left; reflexivity]]].
Qed.


(** ** The chain of runs *)

(** In every reachable state the runs of the descriptor form one chain:
    [watch.running] is the handle of a run and no run is newer; a run
    created with no run in flight is the oldest run; and a run created
    while [watch.running] was [q] waits on a run [q] that is at least as
    new as every older run. *)
Theorem runs_form_chain (m0 m : machine) :
  initial m0 -> reach m0 m ->
  (forall q, running (m_watch m) = Some q -> exists r, In (ECreate q r) (m_trace m)) /\
  (forall p r, In (ECreate p r) (m_trace m) -> exists q, running (m_watch m) = Some q /\ (p <= q)%nat) /\
  (forall p p' r', In (ECreate p None) (m_trace m) -> In (ECreate p' r') (m_trace m) -> (p <= p')%nat) /\
  (forall p q, In (ECreate p (Some q)) (m_trace m) ->
     (exists r, In (ECreate q r) (m_trace m)) /\
     forall p' r', In (ECreate p' r') (m_trace m) -> (p' < p)%nat -> (p' <= q)%nat).
Proof.
  intros H0 H. pose proof (Inv_reach m0 m H0 H) as Hi. inv_intro Hi. cbn in *.
  split; [exact Hrunc | split; [exact Hrmax | split; [exact Hnone |]]].
  intros p q Hc. split; [exact (Hprevc p q Hc) |].
  intros p' r' Hc' Hlt. exact (Hprev p q p' r' Hc Hc' Hlt).
Qed.


(** A run whose handle is rejected, because its body or its tracker
    threw while no run was in flight, stops the chain for good: no newer
    run ever begins its continuation, invokes its body or fulfils its
    handle, since each of them waits on the rejected handle. *)
Theorem rejected_run_blocks_later (m0 m : machine) (p p' : nat) (r r' : option nat) (e : exn) (k : origin) :
  initial m0 -> reach m0 m ->
  m_proms m !! p = Some (mkP (Rejected e) k) ->
  In (ECreate p r) (m_trace m) -> In (ECreate p' r') (m_trace m) -> (p < p')%nat ->
  ~ In (EStart p') (m_trace m) /\ ~ In (EBodyStart p') (m_trace m) /\ ~ In (EFulfil p') (m_trace m).
Proof.
  intros H0 H Hp Hc Hc' Hlt. pose proof (Inv_reach m0 m H0 H) as Hi. inv_intro Hi. cbn in *.
  assert (Hs : ~ In (EStart p') (m_trace m)).
  { intros Hs. destruct (Hful' p (Hseq p' p r' r Hc' Hc Hlt Hs)) as [x [k' Hx]].
    rewrite Hp in Hx. discriminate. }
  split; [exact Hs | split].
  - intros Hb. exact (Hs (Hbody p' Hb)).
  - intros Hf. apply Hs. exact (proj2 (Hfin p' Hf (Hkc p' r' Hc'))).
Qed.

(** ** A run whose queued continuation throws *)

(** Run [p] has begun its continuation, its handle is still pending and no
    job is left that could finish it. *)
Definition hung (v : view) (p : nat) : Prop :=
  v_proms v !! p = Some (mkP Pending PKRun) /\ In (EStart p) (v_tr v) /\ ~ In (JFinish p) (jobs v).

Lemma hung_vemit e v p : hung v p -> hung (vemit e v) p.
Proof. intros [H1 [H2 H3]]. split; [exact H1 | split; [right; exact H2 | exact H3]]. Qed.

Lemma hung_vnew k v p : hung v p -> hung (vnew k v) p.
Proof.
  intros [H1 [H2 H3]]. split; [apply lookup_app_l_Some; exact H1 | split; [exact H2 | exact H3]].
Qed.

Lemma hung_vset_destroy d v p : hung v p -> hung (vset_destroy d v) p.
Proof. intros H. exact H. Qed.

Lemma hung_vset_running r v p : hung v p -> hung (vset_running r v) p.
Proof. intros H. exact H. Qed.

Lemma hung_vsettle w s v p : w <> p -> hung v p -> hung (vsettle w s v) p.
Proof.
  intros Hne Hh. pose proof (jobs_vsettle w s v) as Hp.
  unfold vsettle in *. destruct (v_proms v !! w) as [[[| |] k]|] eqn:Ew; try exact Hh.
  destruct Hh as [H1 [H2 H3]]. split; [| split].
  - cbn. rewrite list_lookup_insert_ne by congruence. exact H1.
  - right. exact H2.
  - intros Hj. apply H3. eapply Permutation_in; [exact Hp | exact Hj].
Qed.

Lemma hung_vadd_then q j v p : j <> JFinish p -> hung v p -> hung (vadd_then q j v) p.
Proof.
  intros Hj [H1 [H2 H3]]. pose proof (jobs_vadd_then q j v) as Hp.
  assert (Hpr : v_proms (vadd_then q j v) = v_proms v /\ v_tr (vadd_then q j v) = v_tr v)
    by (unfold vadd_then; destruct (v_proms v !! q) as [[[| |] k]|]; split; reflexivity).
  destruct Hpr as [Hpr Htr].
  split; [rewrite Hpr; exact H1 | split; [rewrite Htr; exact H2 |]].
  intros Hin. apply (Permutation_in _ Hp) in Hin.
  destruct (v_proms v !! q);
    [destruct Hin as [E|Hin]; [exact (Hj E) | exact (H3 Hin)] | exact (H3 Hin)].
Qed.

Lemma hung_vcleanup v p : hung v p -> hung (vcleanup v) p.
Proof.
  intros H. unfold vcleanup. destruct (v_destroy v); [apply hung_vemit, hung_vset_destroy |]; exact H.
Qed.

Lemma hung_vfinish p' x v p : p' <> p -> hung v p -> hung (vfinish p' x v) p.
Proof.
  intros Hne H. unfold vfinish. apply hung_vsettle; [exact Hne |].
  destruct (isFunction x); [apply hung_vemit, hung_vset_destroy |]; exact H.
Qed.

Lemma hung_vwatch_cont p' o v p : p' <> p -> hung v p -> hung (snd (vwatch_cont p' o v)) p.
Proof.
  intros Hne Hh.
  assert (H1 : hung (vemit (EBodyStart p') (vcleanup (vemit (EStart p') v))) p)
    by (apply hung_vemit, hung_vcleanup, hung_vemit, Hh).
  unfold vwatch_cont. destruct o; cbn [snd].
  - apply hung_vemit, H1.
  - apply hung_vfinish; [exact Hne |]. apply hung_vemit, H1.
  - apply hung_vadd_then; [congruence |]. apply hung_vnew, H1.
Qed.

Lemma hung_vrunWatch d o v p : hung v p -> hung (snd (vrunWatch d o v)) p.
Proof.
  intros Hh. pose proof (proj1 Hh) as Hl. apply lookup_lt_Some in Hl.
  unfold vrunWatch. destruct d; cbn [negb].
  - assert (H1 : hung (vemit (ECreate (length (v_proms v)) (v_running v)) (vnew PKRun v)) p)
      by (apply hung_vemit, hung_vnew, Hh).
    cbn [snd]. apply hung_vset_running.
    destruct (v_running v) as [r|].
    + apply hung_vadd_then; [discriminate | exact H1].
    + assert (Hne : length (v_proms v) <> p) by lia.
      pose proof (hung_vwatch_cont _ o _ p Hne H1) as H2.
      destruct (vwatch_cont (length (v_proms v)) o _) as [[e|] v']; cbn in H2.
      * apply hung_vsettle; [exact Hne | exact H2].
      * exact H2.
  - destruct Hh as [A [B C]]. cbn [snd vresolve].
    split; [apply lookup_app_l_Some; exact A | split; [right; exact B | exact C]].
Qed.

Lemma hung_vexec v d o j s rest p :
  Inv v -> hung v p -> v_queue v = (j, s) :: rest ->
  hung (vuncaught (vexec d o j s (vset_queue rest v))) p.
Proof.
  intros Hi Hh Hq.
  assert (Hjv : In j (jobs v))
    by (unfold jobs; rewrite Hq; apply in_or_app; right; left; reflexivity).
  assert (H0 : hung (vset_queue rest v) p).
  { destruct Hh as [A [B C]]. split; [exact A | split; [exact B |]].
    intros Hin. apply C. unfold jobs in *. cbn in Hin. rewrite Hq. cbn.
    apply in_app_or in Hin. apply in_or_app. destruct Hin; [left | right; right]; assumption. }
  destruct Hh as [A [B C]].
  assert (Hu : forall r, hung (snd r) p -> hung (vuncaught r) p)
    by (intros [[e|] v'] H; [apply hung_vemit |]; exact H).
  apply Hu.
  assert (Hkp : kind_of v p = Some PKRun) by (unfold kind_of; rewrite A; reflexivity).
  destruct j as [p'|p'|w|w]; destruct s as [x|e]; cbn [vexec].
  - apply hung_vwatch_cont; [| exact H0]. intros <-. exact (inv_js v Hi p' Hjv B).
  - exact H0.
  - apply hung_vfinish; [intros <-; exact (C Hjv) | exact H0].
  - exact H0.
  - pose proof (hung_vrunWatch d o _ p H0) as H1.
    destruct (vrunWatch d o (vset_queue rest v)) as [p'' v']. cbn in H1 |- *.
    apply hung_vadd_then; [discriminate | apply hung_vemit, H1].
  - apply hung_vsettle; [| exact H0]. intros <-.
    rewrite (inv_kdef v Hi w (or_introl Hjv)) in Hkp. discriminate.
  - apply hung_vsettle; [| exact H0]. intros <-.
    rewrite (inv_kdef v Hi w (or_intror Hjv)) in Hkp. discriminate.
  - apply hung_vsettle; [| exact H0]. intros <-.
    rewrite (inv_kdef v Hi w (or_intror Hjv)) in Hkp. discriminate.
Qed.

Lemma hung_vstep v v' p : Inv v -> hung v p -> vstep v v' -> hung v' p.
Proof.
  intros Hi Hh Hs. destruct Hs as [d o j s rest Hq | d o | | q p' s Hq].
  - exact (hung_vexec v d o j s rest p Hi Hh Hq).
  - exact (hung_vrunWatch d o v p Hh).
  - exact Hh.
  - apply hung_vsettle; [| apply hung_vemit, Hh]. intros ->.
    destruct Hh as [A _]. rewrite A in Hq. discriminate.
Qed.

Lemma reach_trans m0 m m' : reach m0 m -> reach m m' -> reach m0 m'.
Proof.
  intros H1 H2. induction H2 as [|m1 m2 _ IH Hs]; [exact H1 | exact (reach_step m0 m1 m2 IH Hs)].
Qed.

Lemma hung_reach m0 m m' p :
  initial m0 -> reach m0 m -> reach m m' -> hung (view_of m) p -> hung (view_of m') p.
Proof.
  intros H0 H1 H2 Hh. induction H2 as [|m1 m2 H12 IH Hs]; [exact Hh |].
  apply (hung_vstep (view_of m1));
    [exact (Inv_reach m0 m1 H0 (reach_trans _ _ _ H1 H12)) | exact IH | exact (view_step m1 m2 Hs)].
Qed.

(** A hung run (begun, handle pending, no job left to finish it) stays
    pending in every later state, and no run created after it ever begins
    its continuation. *)
Lemma hung_blocks_later (m0 m m' : machine) (p : nat) :
  initial m0 -> reach m0 m -> reach m m' ->
  m_proms m !! p = Some (mkP Pending PKRun) -> In (EStart p) (m_trace m) ->
  ~ In (JFinish p) (map snd (m_reacts m) ++ map fst (m_queue m)) ->
  m_proms m' !! p = Some (mkP Pending PKRun) /\
  (forall p' r', In (ECreate p' r') (m_trace m') -> (p < p')%nat -> ~ In (EStart p') (m_trace m')).
Proof.
  intros H0 H1 H2 Hp Hs Hj.
  destruct (hung_reach m0 m m' p H0 H1 H2 (conj Hp (conj Hs Hj))) as [A [B _]].
  split; [exact A |].
  intros p' r' Hc Hlt Hs'.
  pose proof (Inv_reach m0 m' H0 (reach_trans _ _ _ H1 H2)) as Hi. inv_intro Hi. cbn in *.
  destruct (Hstart p B) as [r Hcp].
  destruct (Hful' p (Hseq p' p r' r Hc Hcp Hlt Hs')) as [x [k Hx]]. rewrite A in Hx. discriminate.
Qed.

(** ** A waiting run whose continuation throws *)

(** A rejected run handle belongs to a run whose continuation began: a run
    handle is rejected only by the executor of [runWatch], after the
    continuation ran at once and threw. *)
Definition rej_started (v : view) : Prop :=
  forall p e, v_proms v !! p = Some (mkP (Rejected e) PKRun) -> In (EStart p) (v_tr v).

Lemma vtr_vsettle w s v : incl (v_tr v) (v_tr (vsettle w s v)).
Proof.
  unfold vsettle. intros y H.
  destruct (v_proms v !! w) as [[[| |] k]|]; [right |..]; exact H.
Qed.

Lemma vtr_vadd_then q j v : v_tr (vadd_then q j v) = v_tr v /\ v_proms (vadd_then q j v) = v_proms v.
Proof. unfold vadd_then. destruct (v_proms v !! q) as [[[| |] k]|]; split; reflexivity. Qed.

Lemma vtr_vcleanup v : incl (v_tr v) (v_tr (vcleanup v)) /\ v_proms (vcleanup v) = v_proms v.
Proof.
  unfold vcleanup. destruct (v_destroy v); (split; [intros y H | reflexivity]); [right |]; exact H.
Qed.

Lemma vtr_vfinish p x v : incl (v_tr v) (v_tr (vfinish p x v)).
Proof.
  unfold vfinish. intros y H. apply vtr_vsettle.
  destruct (isFunction x); [right |]; exact H.
Qed.

Lemma vwatch_cont_started p o v : In (EStart p) (v_tr (snd (vwatch_cont p o v))).
Proof.
  assert (H1 : In (EStart p) (v_tr (vemit (EBodyStart p) (vcleanup (vemit (EStart p) v))))).
  { right. apply (proj1 (vtr_vcleanup _)). left. reflexivity. }
  unfold vwatch_cont. destruct o; cbn [snd].
  - right. exact H1.
  - apply vtr_vfinish. right. exact H1.
  - rewrite (proj1 (vtr_vadd_then _ _ _)). exact H1.
Qed.

Lemma rej_same v v' :
  v_proms v' = v_proms v -> incl (v_tr v) (v_tr v') -> rej_started v -> rej_started v'.
Proof. intros P T H p e E. apply T, (H p e). rewrite <- P. exact E. Qed.

Lemma rej_vemit e v : rej_started v -> rej_started (vemit e v).
Proof. apply rej_same; [reflexivity | intros y H; right; exact H]. Qed.
Lemma rej_vset_destroy d v : rej_started v -> rej_started (vset_destroy d v).
Proof. apply rej_same; [reflexivity | intros y H; exact H]. Qed.
Lemma rej_vset_running r v : rej_started v -> rej_started (vset_running r v).
Proof. apply rej_same; [reflexivity | intros y H; exact H]. Qed.
Lemma rej_vset_queue q v : rej_started v -> rej_started (vset_queue q v).
Proof. apply rej_same; [reflexivity | intros y H; exact H]. Qed.
Lemma rej_vadd_then q j v : rej_started v -> rej_started (vadd_then q j v).
Proof.
  apply rej_same; [exact (proj2 (vtr_vadd_then q j v)) |].
  rewrite (proj1 (vtr_vadd_then q j v)). intros y H. exact H.
Qed.
Lemma rej_vcleanup v : rej_started v -> rej_started (vcleanup v).
Proof. apply rej_same; [exact (proj2 (vtr_vcleanup v)) | exact (proj1 (vtr_vcleanup v))]. Qed.

Lemma rej_vnew k v : rej_started v -> rej_started (vnew k v).
Proof.
  intros H p e E. cbn in E. apply lookup_app_Some in E. destruct E as [E|[_ E]].
  - exact (H p e E).
  - apply list_lookup_singleton_Some in E. destruct E as [_ E]. discriminate.
Qed.

Lemma rej_vresolve x v : rej_started v -> rej_started (snd (vresolve x v)).
Proof.
  intros H p e E. cbn in E. right. apply lookup_app_Some in E. destruct E as [E|[_ E]].
  - exact (H p e E).
  - apply list_lookup_singleton_Some in E. destruct E as [_ E]. discriminate.
Qed.

Lemma rej_vsettle w s v :
  rej_started v ->
  (forall e, s = SErr e -> v_proms v !! w = Some (mkP Pending PKRun) -> In (EStart w) (v_tr v)) ->
  rej_started (vsettle w s v).
Proof.
  intros H Hc.
  destruct (v_proms v !! w) as [[[|x0|e0] k]|] eqn:Ew;
    [| rewrite vsettle_other by (intros k' E; rewrite Ew in E; discriminate); exact H ..].
  destruct (vsettle_pending w s v k Ew) as (T & P & _).
  intros p e E. rewrite T. rewrite P in E. right. destruct (decide (p = w)) as [->|Hne].
  - rewrite list_lookup_insert_eq in E by (eapply lookup_lt_Some; exact Ew).
    destruct s as [x|e']; cbn in E; [discriminate |]. injection E as <- ->.
    apply (Hc e' eq_refl); first [exact Ew | reflexivity].
  - rewrite list_lookup_insert_ne in E by congruence. exact (H p e E).
Qed.

Lemma rej_vfinish p x v : rej_started v -> rej_started (vfinish p x v).
Proof.
  intros H. unfold vfinish. apply rej_vsettle; [| intros e E; discriminate].
  destruct (isFunction x); [apply rej_vemit, rej_vset_destroy |]; exact H.
Qed.

Lemma rej_vwatch_cont p o v : rej_started v -> rej_started (snd (vwatch_cont p o v)).
Proof.
  intros H.
  assert (H1 : rej_started (vemit (EBodyStart p) (vcleanup (vemit (EStart p) v))))
    by (apply rej_vemit, rej_vcleanup, rej_vemit, H).
  unfold vwatch_cont. destruct o; cbn [snd].
  - apply rej_vemit, H1.
  - apply rej_vfinish, rej_vemit, H1.
  - apply rej_vadd_then, rej_vnew, H1.
Qed.

Lemma rej_vrunWatch d o v : rej_started v -> rej_started (snd (vrunWatch d o v)).
Proof.
  intros H. unfold vrunWatch. destruct d; cbn [negb].
  - set (v1 := vemit (ECreate (length (v_proms v)) (v_running v)) (vnew PKRun v)).
    assert (H1 : rej_started v1) by (apply rej_vemit, rej_vnew, H).
    cbn [snd]. apply rej_vset_running.
    destruct (v_running v) as [r|].
    + apply rej_vadd_then, H1.
    + pose proof (rej_vwatch_cont (length (v_proms v)) o v1 H1) as H2.
      pose proof (vwatch_cont_started (length (v_proms v)) o v1) as H3.
      destruct (vwatch_cont (length (v_proms v)) o v1) as [[e|] v']; cbn [snd] in H2, H3.
      * apply rej_vsettle; [exact H2 | intros e' _ _; exact H3].
      * exact H2.
  - apply rej_vresolve, H.
Qed.

Lemma rej_vexec v d o j s rest :
  Inv v -> rej_started v -> v_queue v = (j, s) :: rest ->
  rej_started (vuncaught (vexec d o j s (vset_queue rest v))).
Proof.
  intros Hi H Hq.
  assert (Hjv : In j (jobs v))
    by (unfold jobs; rewrite Hq; apply in_or_app; right; left; reflexivity).
  assert (H0 : rej_started (vset_queue rest v)) by (apply rej_vset_queue, H).
  assert (Hu : forall r, rej_started (snd r) -> rej_started (vuncaught r))
    by (intros [[e|] v'] H'; [apply rej_vemit |]; exact H').
  assert (Hdef : forall w, In (JDeferredRun w) (jobs v) \/ In (JAdopt w) (jobs v) ->
            v_proms (vset_queue rest v) !! w = Some (mkP Pending PKRun) ->
            In (EStart w) (v_tr (vset_queue rest v))).
  { intros w Hw E. change (v_proms (vset_queue rest v)) with (v_proms v) in E.
    assert (Kw : kind_of v w = Some PKRun) by (unfold kind_of; rewrite E; reflexivity).
    rewrite (inv_kdef v Hi w Hw) in Kw. discriminate. }
  apply Hu.
  destruct j as [p'|p'|w|w]; destruct s as [x|e]; cbn [vexec].
  - apply rej_vwatch_cont, H0.
  - exact H0.
  - apply rej_vfinish, H0.
  - exact H0.
  - pose proof (rej_vrunWatch d o _ H0) as H1.
    destruct (vrunWatch d o (vset_queue rest v)) as [p'' v']. cbn [snd] in H1 |- *.
    apply rej_vadd_then, rej_vemit, H1.
  - apply rej_vsettle; [exact H0 |]. intros e' _. exact (Hdef w (or_introl Hjv)).
  - apply rej_vsettle; [exact H0 |]. intros e' _. exact (Hdef w (or_intror Hjv)).
  - apply rej_vsettle; [exact H0 |]. intros e' _. exact (Hdef w (or_intror Hjv)).
Qed.

Lemma rej_vstep v v' : Inv v -> rej_started v -> vstep v v' -> rej_started v'.
Proof.
  intros Hi H Hs. destruct Hs as [d o j s rest Hq | d o | | q p' s Hq].
  - exact (rej_vexec v d o j s rest Hi H Hq).
  - exact (rej_vrunWatch d o v H).
  - exact H.
  - apply rej_vsettle; [apply rej_vemit, H |]. intros e _ E.
    change (v_proms (vemit (EBodyEnd p') v)) with (v_proms v) in E. rewrite Hq in E. discriminate.
Qed.

Lemma rej_initial m : initial m -> rej_started (view_of m).
Proof.
  intros H. destruct H as [w h fns Hd Hr | w h fns q el0 i0 srv run].
  - intros p e E. change (v_proms (view_of (fresh_machine w h fns))) with (@nil promise) in E.
    rewrite lookup_nil in E. discriminate.
  - assert (P : v_proms (view_of (snd (useWatchQrl false q el0 i0 srv run (fresh_machine w h fns)))) =
                [mkP (Fulfilled (PRet None)) PKResolved; mkP Pending PKDeferred])
      by (destruct srv; [destruct run as [[|]|] |]; reflexivity).
    intros p e E. rewrite P in E. destruct p as [|[|p]]; cbn in E; discriminate E.
Qed.

Lemma rej_reach m0 m : initial m0 -> reach m0 m -> rej_started (view_of m).
Proof.
  intros H0 H. induction H as [|m1 m2 H1 IH Hs].
  - apply rej_initial. exact H0.
  - exact (rej_vstep _ _ (Inv_reach m0 m1 H0 H1) IH (view_step m1 m2 Hs)).
Qed.

(** A run that waited on a previous run (its continuation is the job
    [then(watch.running, ..)] queued) and whose continuation throws (its
    tracker or its body threw) leaves an unhandled rejection, not a
    rejected handle: the job ends with the error uncaught, the run's
    handle stays pending in every later state, and no run created after
    it ever begins its continuation. *)
Theorem waiting_run_throw_hangs (m0 m m' : machine) (b : behaviour) (p : nat) (x : pval)
    (rest : list (job * settlement)) (e : exn) :
  initial m0 -> reach m0 m ->
  m_queue m = (JStart p, SOk x) :: rest ->
  fst (watch_cont p b (set_queue m rest)) = Throw e ->
  reach (run_task b m) m' ->
  (exists tl, m_trace (run_task b m) = EUncaught e :: tl) /\
  m_proms m' !! p = Some (mkP Pending PKRun) /\
  (forall p' r', In (ECreate p' r') (m_trace m') -> (p < p')%nat -> ~ In (EStart p') (m_trace m')).
Proof.
  intros H0 H1 Hq Ht H2.
  pose proof (Inv_reach m0 m H0 H1) as Hi.
  pose proof (rej_reach m0 m H0 H1) as Hrj.
  assert (Hjv : In (JStart p) (jobs (view_of m)))
    by (unfold jobs; cbn [v_queue view_of]; rewrite Hq; apply in_or_app; right; left; reflexivity).
  pose proof (inv_js _ Hi p Hjv) as Hns. cbn [v_tr view_of] in Hns.
  assert (Hqv : In (JStart p, SOk x) (v_queue (view_of m)))
    by (cbn [v_queue view_of]; rewrite Hq; left; reflexivity).
  destruct (inv_qs _ Hi p (SOk x) Hqv) as [q [Hc _]].
  pose proof (inv_kcreate _ Hi p (Some q) Hc) as K0.
  assert (Hp : m_proms m !! p = Some (mkP Pending PKRun)).
  { change (kind_of (view_of m) p) with (pkind <$> (m_proms m !! p)) in K0.
    destruct (m_proms m !! p) as [[st k]|] eqn:E; simpl in K0; [| discriminate].
    injection K0 as ->. destruct st as [|y|e'].
    - reflexivity.
    - exfalso. apply Hns.
      assert (Kp : kind_of (view_of m) p = Some PKRun)
        by (change (pkind <$> (m_proms m !! p) = Some PKRun); rewrite E; reflexivity).
      exact (proj2 (inv_fin _ Hi p (inv_ful _ Hi p y PKRun E) Kp)).
    - exfalso. apply Hns. exact (Hrj p e' E). }
  destruct (view_watch_cont p b (set_queue m rest)) as (o & R & V).
  destruct (watch_cont p b (set_queue m rest)) as [r m2] eqn:Ew. cbn [fst snd] in Ht, R, V. subst r.
  assert (Er : run_task b m = set_trace m2 (EUncaught e :: m_trace m2))
    by (unfold run_task; rewrite Hq; cbv beta iota delta [exec_job]; rewrite Ew; reflexivity).
  set (v0 := vemit (EStart p) (vset_queue rest (view_of m))).
  assert (Vm2 : view_of m2 = vemit (EBodyEnd p) (vemit (EBodyStart p) (vcleanup v0))).
  { rewrite V. destruct o as [e'| |]; cbn in R; [reflexivity | contradiction ..]. }
  assert (Hh0 : hung v0 p).
  { split; [exact Hp | split; [left; reflexivity |]].
    intros Hin. apply Hns. refine (proj1 (inv_jf _ Hi p _)).
    unfold jobs in Hin |- *. cbn [v_reacts v_queue vemit vset_queue view_of] in Hin |- *.
    rewrite Hq. cbn [map]. apply in_app_or in Hin. apply in_or_app.
    destruct Hin; [left | right; right]; assumption. }
  assert (Hh : hung (view_of (run_task b m)) p).
  { rewrite Er.
    change (view_of (set_trace m2 (EUncaught e :: m_trace m2))) with (vemit (EUncaught e) (view_of m2)).
    rewrite Vm2. apply hung_vemit, hung_vemit, hung_vemit, hung_vcleanup, Hh0. }
  assert (H1' : reach m0 (run_task b m))
    by exact (reach_step m0 m (run_task b m) H1 (step_task m b (JStart p) (SOk x) rest Hq)).
  destruct Hh as (Hp1 & Hs1 & Hj1).
  split; [exists (m_trace m2); rewrite Er; reflexivity |].
  exact (hung_blocks_later m0 (run_task b m) m' p H0 H1' H2 Hp1 Hs1 Hj1).
Qed.

(** ** What the handles resolve to *)

(** The promises that must resolve to the descriptor: the run handles and
    the promises of the deferred initial run. *)
Definition watchy (k : origin) : Prop := k = PKRun \/ k = PKDeferred.

(** A fulfilled run handle or deferred promise holds the descriptor, an
    adoption job queued with a value carries the descriptor, and an
    adoption reaction waits on a run handle. *)
Record vals_ok (v : view) : Prop := {
  vo_ful : forall p x k, v_proms v !! p = Some (mkP (Fulfilled x) k) -> watchy k -> x = PWatch;
  vo_queue : forall w x, In (JAdopt w, SOk x) (v_queue v) -> x = PWatch;
  vo_reacts : forall q w, In (q, JAdopt w) (v_reacts v) -> kind_of v q = Some PKRun
}.

Lemma vals_vemit e v : vals_ok v -> vals_ok (vemit e v).
Proof. intros [A B C]. constructor; [exact A | exact B | exact C]. Qed.

Lemma vals_vset_destroy d v : vals_ok v -> vals_ok (vset_destroy d v).
Proof. intros [A B C]. constructor; [exact A | exact B | exact C]. Qed.

Lemma vals_vset_running r v : vals_ok v -> vals_ok (vset_running r v).
Proof. intros [A B C]. constructor; [exact A | exact B | exact C]. Qed.

Lemma vals_vnew k v : vals_ok v -> vals_ok (vnew k v).
Proof.
  intros [A B C]. constructor.
  - intros p x k' E Hw. cbn in E. apply lookup_app_Some in E. destruct E as [E|[_ E]].
    + exact (A p x k' E Hw).
    + apply list_lookup_singleton_Some in E. destruct E as [_ E]. discriminate.
  - exact B.
  - intros q w H. apply kind_of_vnew_some. exact (C q w H).
Qed.

Lemma vals_vresolve x v : vals_ok v -> vals_ok (snd (vresolve x v)).
Proof.
  intros [A B C]. constructor.
  - intros p x' k' E Hw. cbn in E. apply lookup_app_Some in E. destruct E as [E|[_ E]].
    + exact (A p x' k' E Hw).
    + apply list_lookup_singleton_Some in E. destruct E as [_ E]. injection E as _ <-.
      destruct Hw; discriminate.
  - exact B.
  - intros q w H. rewrite kind_of_vresolve. apply kind_of_vnew_some. exact (C q w H).
Qed.

Lemma vals_vsettle w s v :
  vals_ok v -> (forall k x, kind_of v w = Some k -> watchy k -> s = SOk x -> x = PWatch) ->
  vals_ok (vsettle w s v).
Proof.
  intros Hv Hc. destruct Hv as [A B C].
  destruct (v_proms v !! w) as [[[|x0|e0] k]|] eqn:Ew;
    [| rewrite vsettle_other by (intros k' E; rewrite Ew in E; discriminate);
       constructor; [exact A | exact B | exact C] ..].
  destruct (vsettle_pending w s v k Ew) as (T & P & R & Q & _).
  constructor.
  - intros p x k' E Hw. rewrite P in E. destruct (decide (p = w)) as [->|Hne].
    + rewrite list_lookup_insert_eq in E by (eapply lookup_lt_Some; exact Ew).
      destruct s as [x'|e]; cbn in E; [| discriminate]. injection E as -> <-.
      apply (Hc k x); [unfold kind_of; rewrite Ew; reflexivity | exact Hw | reflexivity].
    + rewrite list_lookup_insert_ne in E by congruence. exact (A p x k' E Hw).
  - intros w' x H. rewrite Q in H. apply in_app_or in H. destruct H as [H|H]; [exact (B w' x H) |].
    apply in_map_iff in H. destruct H as [j [Ej Hj]]. injection Ej as -> ->.
    unfold jobs_on in Hj. apply in_map_iff in Hj. destruct Hj as [[q j'] [Ej' Hf]]. cbn in Ej'. subst j'.
    apply filter_In in Hf. destruct Hf as [Hr Heq]. cbn in Heq. apply Nat.eqb_eq in Heq. subst q.
    apply (Hc PKRun x); [exact (C w w' Hr) | left; reflexivity | reflexivity].
  - intros q w' H. rewrite kind_of_vsettle. rewrite R in H. apply In_not_on in H.
    exact (C q w' (proj1 H)).
Qed.

Lemma vals_vadd_then q j v :
  vals_ok v ->
  (forall w, j = JAdopt w ->
     kind_of v q = Some PKRun \/ v_proms v !! q = Some (mkP (Fulfilled PWatch) PKResolved)) ->
  vals_ok (vadd_then q j v).
Proof.
  intros [A B C] Hc. unfold vadd_then.
  destruct (v_proms v !! q) as [[[|x|e] k]|] eqn:Eq.
  - constructor; cbn; [exact A | exact B |].
    intros q' w H. apply in_app_or in H. destruct H as [H|[H|[]]]; [exact (C q' w H) |].
    injection H as <- ->. destruct (Hc w eq_refl) as [H|H]; [exact H | discriminate H].
  - constructor; cbn; [exact A | | exact C].
    intros w x' H. apply in_app_or in H. destruct H as [H|[H|[]]]; [exact (B w x' H) |].
    injection H as Hj <-. destruct (Hc w Hj) as [H|H].
    + unfold kind_of in H. rewrite Eq in H. cbn in H. injection H as ->.
      exact (A q x PKRun Eq (or_introl eq_refl)).
    + injection H as -> _. reflexivity.
  - constructor; cbn; [exact A | | exact C].
    intros w x' H. apply in_app_or in H. destruct H as [H|[H|[]]]; [exact (B w x' H) | discriminate].
  - constructor; [exact A | exact B | exact C].
Qed.

Lemma vals_vcleanup v : vals_ok v -> vals_ok (vcleanup v).
Proof.
  intros H. unfold vcleanup. destruct (v_destroy v); [apply vals_vemit, vals_vset_destroy |]; exact H.
Qed.

Lemma vals_vfinish p x v : vals_ok v -> vals_ok (vfinish p x v).
Proof.
  intros H. unfold vfinish. apply vals_vsettle; [| intros k x0 _ _ E; injection E as <-; reflexivity].
  destruct (isFunction x); [apply vals_vemit, vals_vset_destroy |]; exact H.
Qed.

Lemma vals_vwatch_cont p o v : vals_ok v -> vals_ok (snd (vwatch_cont p o v)).
Proof.
  intros Hv.
  assert (H1 : vals_ok (vemit (EBodyStart p) (vcleanup (vemit (EStart p) v))))
    by (apply vals_vemit, vals_vcleanup, vals_vemit, Hv).
  unfold vwatch_cont. destruct o; cbn [snd].
  - apply vals_vemit, H1.
  - apply vals_vfinish, vals_vemit, H1.
  - apply vals_vadd_then; [apply vals_vnew, H1 | intros w E; discriminate].
Qed.

Lemma vals_vrunWatch d o v :
  vals_ok v ->
  vals_ok (snd (vrunWatch d o v)) /\
  (kind_of (snd (vrunWatch d o v)) (fst (vrunWatch d o v)) = Some PKRun \/
   v_proms (snd (vrunWatch d o v)) !! fst (vrunWatch d o v) = Some (mkP (Fulfilled PWatch) PKResolved)).
Proof.
  intros Hv. unfold vrunWatch. destruct d; cbn [negb].
  - set (v1 := vemit (ECreate (length (v_proms v)) (v_running v)) (vnew PKRun v)).
    assert (H1 : vals_ok v1) by (apply vals_vemit, vals_vnew, Hv).
    assert (K1 : kind_of v1 (length (v_proms v)) = Some PKRun) by apply kind_of_vnew_new.
    cbn [fst snd]. split; [apply vals_vset_running | left; change (kind_of (vset_running (Some (length (v_proms v))) ?x)) with (kind_of x)].
    + destruct (v_running v) as [r|].
      * apply vals_vadd_then; [exact H1 | intros w E; discriminate].
      * pose proof (vals_vwatch_cont (length (v_proms v)) o v1 H1) as H2.
        destruct (vwatch_cont (length (v_proms v)) o v1) as [[e|] v']; cbn in H2.
        -- apply vals_vsettle; [exact H2 | intros k x _ _ E; discriminate].
        -- exact H2.
    + destruct (v_running v) as [r|].
      * rewrite kind_of_vadd_then. exact K1.
      * pose proof (kind_of_vwatch_cont (length (v_proms v)) o v1 _ _ K1) as K2.
        destruct (vwatch_cont (length (v_proms v)) o v1) as [[e|] v']; cbn in K2.
        -- rewrite kind_of_vsettle. exact K2.
        -- exact K2.
  - split; [apply vals_vresolve, Hv |]. right. cbn.
    rewrite lookup_app_r, Nat.sub_diag by lia. reflexivity.
Qed.

Lemma vals_vexec v d o j s rest :
  vals_ok v -> v_queue v = (j, s) :: rest ->
  vals_ok (vuncaught (vexec d o j s (vset_queue rest v))).
Proof.
  intros Hv Hq.
  assert (H0 : vals_ok (vset_queue rest v)).
  { destruct Hv as [A B C]. constructor; [exact A | | exact C].
    intros w x H. apply (B w x). rewrite Hq. right. exact H. }
  assert (Hu : forall r, vals_ok (snd r) -> vals_ok (vuncaught r))
    by (intros [[e|] v'] H; [apply vals_vemit |]; exact H).
  apply Hu.
  destruct j as [p'|p'|w|w]; destruct s as [x|e]; cbn [vexec].
  - apply vals_vwatch_cont, H0.
  - exact H0.
  - apply vals_vfinish, H0.
  - exact H0.
  - pose proof (vals_vrunWatch d o _ H0) as [H1 K1].
    destruct (vrunWatch d o (vset_queue rest v)) as [p'' v']. cbn in H1, K1 |- *.
    apply vals_vadd_then; [apply vals_vemit, H1 |]. intros w' _. exact K1.
  - apply vals_vsettle; [exact H0 | intros k x _ _ E; discriminate].
  - apply vals_vsettle; [exact H0 |]. intros k x' _ _ E. injection E as <-.
    apply (vo_queue v Hv w). rewrite Hq. left. reflexivity.
  - apply vals_vsettle; [exact H0 | intros k x _ _ E; discriminate].
Qed.

Lemma vals_vstep v v' : vals_ok v -> vstep v v' -> vals_ok v'.
Proof.
  intros Hv Hs. destruct Hs as [d o j s rest Hq | d o | | q p' s Hq].
  - exact (vals_vexec v d o j s rest Hv Hq).
  - exact (proj1 (vals_vrunWatch d o v Hv)).
  - exact Hv.
  - apply vals_vsettle; [apply vals_vemit, Hv |]. intros k x Hk Hw _.
    unfold kind_of in Hk. cbn in Hk. rewrite Hq in Hk. cbn in Hk. injection Hk as <-.
    destruct Hw; discriminate.
Qed.

Lemma vals_initial m : initial m -> vals_ok (view_of m).
Proof.
  intros H. destruct H as [w h fns Hd Hr | w h fns q el0 i0 srv run].
  - constructor; cbn.
    + intros p x k E. rewrite lookup_nil in E. discriminate.
    + intros w' x [].
    + intros q w' [].
  - assert (E : view_of (snd (useWatchQrl false q el0 i0 srv run (fresh_machine w h fns))) =
                mkV (match srv, run with
                     | true, Some TLoad => [ERegister TLoad]
                     | true, Some TVisible => [ERegister TVisible]
                     | _, _ => [] end ++ [EFulfil 0])
                    [mkP (Fulfilled (PRet None)) PKResolved; mkP Pending PKDeferred] []
                    [(JDeferredRun 1, SOk (PRet None))] None None [1%nat]).
    { destruct srv; [destruct run as [[|]|] |]; reflexivity. }
    rewrite E. clear E. constructor; cbn.
    + intros p x k E Hw. destruct p as [|[|p]]; cbn in E.
      * injection E as _ <-. destruct Hw; discriminate.
      * discriminate.
      * discriminate E.
    + intros w' x [H|[]]. discriminate.
    + intros q' w' [].
Qed.

Lemma vals_reach m0 m : initial m0 -> reach m0 m -> vals_ok (view_of m).
Proof.
  intros H0 H. induction H as [|m1 m2 _ IH Hs].
  - apply vals_initial. exact H0.
  - exact (vals_vstep _ _ IH (view_step m1 m2 Hs)).
Qed.

(** The promise of a run resolves to the descriptor ([resolve(watch)]),
    and so does every promise setup waits on, which for a watch is
    [Promise.resolve().then(() => runWatch(..))] adopting the promise of
    the initial run: in every reachable state, a fulfilled run handle and
    a fulfilled promise registered with [useWaitOn] hold the descriptor. *)
Theorem handles_hold_descriptor (m0 m : machine) :
  initial m0 -> reach m0 m ->
  (forall p r x k, In (ECreate p r) (m_trace m) ->
     m_proms m !! p = Some (mkP (Fulfilled x) k) -> x = PWatch) /\
  (forall w x k, In w (m_waiton m) -> m_proms m !! w = Some (mkP (Fulfilled x) k) -> x = PWatch).
Proof.
  intros H0 H. pose proof (vals_reach m0 m H0 H) as Hv. pose proof (Inv_reach m0 m H0 H) as Hi.
  split.
  - intros p r x k Hc E. pose proof (inv_kcreate _ Hi p r Hc) as Hk.
    unfold kind_of in Hk. cbn in Hk. rewrite E in Hk. cbn in Hk. injection Hk as ->.
    exact (vo_ful _ Hv p x PKRun E (or_introl eq_refl)).
  - intros w x k Hw E. pose proof (inv_wait _ Hi w Hw) as Hk.
    unfold kind_of in Hk. cbn in Hk. rewrite E in Hk. cbn in Hk. injection Hk as ->.
    exact (vo_ful _ Hv w x PKDeferred E (or_intror eq_refl)).
Qed.

(** ** A synchronous run *)

(** With no run in flight, [then(undefined, ..)] calls the continuation
    inside the promise executor: when every tracked object is a proxy and
    the body returns a value, [runWatch] has finished the whole run when it
    returns.  The handle it returns is already fulfilled, a function
    returned by the body is the new cleanup (and otherwise the slot is
    empty), and [watch.running] is that handle. *)
Theorem runWatch_sync_body b m v :
  has_flag (f (m_watch m)) WatchFlagsIsDirty = true -> running (m_watch m) = None ->
  Forall (act_ok (m_heap m)) (b_acts b) -> b_res b = BRet v ->
  fst (runWatch b m) = Ok (length (m_proms m)) /\
  m_proms (snd (runWatch b m)) !! length (m_proms m) = Some (mkP (Fulfilled PWatch) PKRun) /\
  destroy (m_watch (snd (runWatch b m))) = v /\
  running (m_watch (snd (runWatch b m))) = Some (length (m_proms m)).
Proof.
  intros Hd Hr Hok Hb.
  rewrite (runWatch_dirty_eq b m Hd), Hr. unfold run_start.
  set (p := length (m_proms m)).
  set (m0 := body_state p (run_state m)).
  assert (Hv0 : v_proms (view_of m0) = m_proms m ++ [mkP Pending PKRun] /\ v_destroy (view_of m0) = None).
  { unfold m0. rewrite view_body_state. unfold vcleanup. cbn.
    destruct (destroy (m_watch m)) eqn:E; cbn; [split; reflexivity | rewrite E; split; reflexivity]. }
  assert (Hok0 : Forall (act_ok (m_heap m0)) (b_acts b))
    by (unfold m0; rewrite body_state_heap; exact Hok).
  destruct (run_acts_ok (b_acts b) m0 Hok0) as [m2 [Hr2 _]].
  pose proof (view_run_acts (b_acts b) m0) as Hv2. rewrite Hr2 in Hv2. cbn [snd] in Hv2.
  set (m3 := set_trace m2 (EBodyEnd p :: m_trace m2)).
  assert (Hbp : body_part p b m0 = (Ok (RVal (PRet v)), m3)).
  { unfold body_part. rewrite Hb. apply catch_ok. rewrite (bind_ok _ _ _ _ _ Hr2). reflexivity. }
  assert (Hv3 : view_of m3 = vemit (EBodyEnd p) (view_of m0)) by (unfold m3; rewrite <- Hv2; reflexivity).
  destruct (view_finish p (PRet v) m3) as [Ef Vf].
  set (m4 := snd (finish p (PRet v) m3)) in *.
  assert (Hw : watch_cont p b (run_state m) = (Ok tt, m4)).
  { rewrite watch_cont_eq. fold m0. rewrite (bind_ok _ _ _ _ _ Hbp). exact Ef. }
  rewrite (bind_ok _ _ _ tt m4) by (apply catch_ok; exact Hw).
  assert (Hl : (m_proms m ++ [mkP Pending PKRun]) !! p = Some (mkP Pending PKRun))
    by (unfold p; rewrite lookup_app_r, Nat.sub_diag by lia; reflexivity).
  assert (Hp4 : m_proms m4 !! p = Some (mkP (Fulfilled PWatch) PKRun) /\ destroy (m_watch m4) = v).
  { change (m_proms m4) with (v_proms (view_of m4)). change (destroy (m_watch m4)) with (v_destroy (view_of m4)).
    rewrite Vf, Hv3. destruct Hv0 as [P0 D0]. unfold vfinish.
    assert (Hl' : v_proms (view_of m0) !! p = Some (mkP Pending PKRun)) by (rewrite P0; exact Hl).
    destruct v as [fn|]; cbn [isFunction].
    - destruct (vsettle_pending p (SOk PWatch) (vemit (EStore p fn) (vset_destroy (Some fn) (vemit (EBodyEnd p) (view_of m0)))) PKRun)
        as (_ & P & _ & _ & _ & D & _); [exact Hl' |].
      rewrite P, D. split; [| reflexivity].
      rewrite list_lookup_insert_eq by (eapply lookup_lt_Some; exact Hl'). reflexivity.
    - destruct (vsettle_pending p (SOk PWatch) (vemit (EBodyEnd p) (view_of m0)) PKRun)
        as (_ & P & _ & _ & _ & D & _); [exact Hl' |].
      rewrite P, D. split; [| exact D0].
      rewrite list_lookup_insert_eq by (eapply lookup_lt_Some; exact Hl'). reflexivity. }
  destruct Hp4 as [Hp4 Hd4].
  cbn. split; [reflexivity | split; [exact Hp4 | split; [exact Hd4 | reflexivity]]].
Qed.

(** ** A throwing first run fails setup *)

(** A body that tracks proxies only and then throws makes the run's
    continuation throw, after recording the end of the body. *)
Lemma watch_cont_throws p b m e :
  Forall (act_ok (m_heap m)) (b_acts b) -> b_res b = BThrow e ->
  exists m3, watch_cont p b m = (Throw e, m3) /\ view_of m3 = vemit (EBodyEnd p) (view_of (body_state p m)).
Proof.
  intros Hok Hb. rewrite watch_cont_eq.
  assert (Hok0 : Forall (act_ok (m_heap (body_state p m))) (b_acts b))
    by (rewrite body_state_heap; exact Hok).
  destruct (run_acts_ok (b_acts b) _ Hok0) as [m2 [Hr2 _]].
  pose proof (view_run_acts (b_acts b) (body_state p m)) as Hv2. rewrite Hr2 in Hv2. cbn [snd] in Hv2.
  exists (set_trace m2 (EBodyEnd p :: m_trace m2)). split.
  - apply bind_throw. unfold body_part. rewrite Hb.
    erewrite catch_throw by (rewrite (bind_ok _ _ _ _ _ Hr2); reflexivity). reflexivity.
  - rewrite <- Hv2. reflexivity.
Qed.


(** When the body of a newly registered watch throws in its deferred
    initial run (no run is in flight, so the throw rejects the run's
    promise inside the executor), the promise [useWatchQrl] gave to
    [useWaitOn] rejects with the same error once the adoption job runs:
    component setup fails with the body's error. *)
Theorem useWatchQrl_first_run_throws wd h fns q el0 i0 srv run b e :
  Forall (act_ok h) (b_acts b) -> b_res b = BThrow e ->
  m_waiton (snd (useWatchQrl false q el0 i0 srv run (fresh_machine wd h fns))) = [1%nat] /\
  m_proms (run_task b (run_task b (snd (useWatchQrl false q el0 i0 srv run (fresh_machine wd h fns)))))
    !! 1%nat = Some (mkP (Rejected e) PKDeferred).
Proof.
  intros Hok Hb.
  set (m1 := snd (useWatchQrl false q el0 i0 srv run (fresh_machine wd h fns))).
  assert (E1 : m_queue m1 = [(JDeferredRun 1, SOk (PRet None))] /\
               m_proms m1 = [mkP (Fulfilled (PRet None)) PKResolved; mkP Pending PKDeferred] /\
               m_reacts m1 = [] /\ m_waiton m1 = [1%nat] /\ m_heap m1 = h /\
               m_watch m1 = mkWatch q el0 (Z.lor WatchFlagsIsDirty WatchFlagsIsWatch) i0 None None)
    by (unfold m1; destruct srv; [destruct run as [[|]|] |]; repeat split).
  destruct E1 as (Q1 & P1 & R1 & W1 & H1 & Wd1).
  split; [exact W1 |].
  set (m1q := set_queue m1 []).
  assert (Hd : has_flag (f (m_watch m1q)) WatchFlagsIsDirty = true) by (cbn; rewrite Wd1; reflexivity).
  pose proof (runWatch_dirty_eq b m1q Hd) as ER.
  assert (Hrun : running (m_watch m1q) = None) by (cbn; rewrite Wd1; reflexivity).
  assert (Hlen : length (m_proms m1q) = 2%nat) by (cbn; rewrite P1; reflexivity).
  rewrite Hrun, Hlen in ER. unfold run_start in ER.
  assert (Hok2 : Forall (act_ok (m_heap (run_state m1q))) (b_acts b)) by (cbn; rewrite H1; exact Hok).
  destruct (watch_cont_throws 2 b (run_state m1q) e Hok2 Hb) as [m3 [E3 V3]].
  assert (P3 : m_proms m3 = [mkP (Fulfilled (PRet None)) PKResolved; mkP Pending PKDeferred; mkP Pending PKRun] /\
               m_reacts m3 = [] /\ m_queue m3 = []).
  { change (m_proms m3) with (v_proms (view_of m3)). change (m_reacts m3) with (v_reacts (view_of m3)).
    change (m_queue m3) with (v_queue (view_of m3)).
    rewrite V3, view_body_state. unfold vcleanup. cbn. rewrite Wd1. cbn. rewrite P1, R1. repeat split. }
  destruct P3 as (P3 & R3 & Q3).
  set (m4 := snd (settle 2 (SErr e) m3)).
  assert (P4 : m_proms m4 = [mkP (Fulfilled (PRet None)) PKResolved; mkP Pending PKDeferred; mkP (Rejected e) PKRun] /\
               m_queue m4 = []).
  { unfold m4, settle. rewrite P3. cbn. rewrite R3, Q3. split; reflexivity. }
  destruct P4 as (P4 & Q4).
  set (m5 := set_watch m4 (with_running (m_watch m4) (Some 2%nat))).
  assert (ERW : runWatch b m1q = (Ok 2%nat, m5)).
  { rewrite ER. rewrite (bind_ok _ _ _ tt m4) by (erewrite catch_throw by exact E3; apply settle_ok).
    reflexivity. }
  set (m6 := set_trace m5 (EDeferred 1 2 :: m_trace m5)).
  set (m7 := set_queue m6 (m_queue m6 ++ [(JAdopt 1, SErr e)])).
  assert (T1 : run_task b m1 = m7).
  { unfold run_task. rewrite Q1. fold m1q.
    assert (EX : exec_job b (JDeferredRun 1) (SOk (PRet None)) m1q = (Ok tt, m7)).
    { unfold exec_job. apply catch_ok. rewrite (bind_ok _ _ _ _ _ ERW).
      rewrite (bind_ok _ _ _ tt m6) by reflexivity.
      unfold add_then. change (m_proms m6) with (m_proms m4). rewrite P4. reflexivity. }
    rewrite EX. reflexivity. }
  rewrite T1. unfold run_task. change (m_queue m7) with (m_queue m4 ++ [(JAdopt 1, SErr e)]).
  rewrite Q4. cbn [app exec_job]. unfold settle. change (m_proms (set_queue m7 [])) with (m_proms m4).
  rewrite P4. reflexivity.
Qed.

(** ** Repeated scheduling *)

(** A clear IS_DIRTY bit stays clear. *)
Definition clean_kept (m m' : machine) : Prop :=
  has_flag (f (m_watch m)) WatchFlagsIsDirty = false ->
  has_flag (f (m_watch m')) WatchFlagsIsDirty = false.

Lemma clean_kept_refl m : clean_kept m m.
Proof. unfold clean_kept. auto. Qed.

Lemma clean_kept_trans m1 m2 m3 : clean_kept m1 m2 -> clean_kept m2 m3 -> clean_kept m1 m3.
Proof. unfold clean_kept. auto. Qed.

Ltac ck_prim :=
  intros ?m; unfold clean_kept; cbn;
  repeat match goal with
         | |- context [match ?x with _ => _ end] => destruct x
         end;
  cbn; auto.

Lemma ck_emit e : stable clean_kept (emit e).
Proof. ck_prim. Qed.
Lemma ck_destroy d : stable clean_kept (modify_watch (fun w => with_destroy w d)).
Proof. ck_prim. Qed.
Lemma ck_running r : stable clean_kept (modify_watch (fun w => with_running w r)).
Proof. ck_prim. Qed.
Lemma ck_new_pending k : stable clean_kept (new_pending k).
Proof. ck_prim. Qed.
Lemma ck_settle p s : stable clean_kept (settle p s).
Proof. intros m. unfold settle, clean_kept. destruct (m_proms m !! p) as [[[] k]|]; cbn; auto. Qed.
Lemma ck_add_then q j : stable clean_kept (add_then q j).
Proof. intros m. unfold add_then, clean_kept. destruct (m_proms m !! q) as [[[] k]|]; cbn; auto. Qed.
Lemma ck_addSub t p : stable clean_kept (addSub t p).
Proof. ck_prim. Qed.
Lemma ck_clearSub : stable clean_kept clearSub.
Proof. ck_prim. Qed.
Lemma ck_call_fn fn : stable clean_kept (call_fn fn).
Proof. intros m. unfold call_fn, clean_kept. destruct (m_fns m fn); cbn; auto. Qed.
Lemma ck_logError e : stable clean_kept (logError e).
Proof. ck_prim. Qed.

#[export] Hint Resolve clean_kept_refl clean_kept_trans ck_emit ck_destroy ck_running
  ck_new_pending ck_settle ck_add_then ck_addSub ck_clearSub ck_call_fn ck_logError : stab.

Lemma ck_track o p : stable clean_kept (track o p).
Proof. unfold track, assertDefined. stab. Qed.
Lemma ck_cleanupWatch : stable clean_kept cleanupWatch.
Proof. unfold cleanupWatch. stab. Qed.
Lemma ck_finish p v : stable clean_kept (finish p v).
Proof. unfold finish. stab. Qed.
#[export] Hint Resolve ck_track ck_cleanupWatch ck_finish : stab.

Lemma ck_run_acts acts : ~ In ANotify acts -> stable clean_kept (run_acts acts).
Proof.
  induction acts as [|[] acts IH]; intros Hn; simpl.
  - stab.
  - assert (Hr : ~ In ANotify acts) by (intros H; apply Hn; right; exact H).
    pose proof (IH Hr). stab.
  - exfalso. apply Hn. left. reflexivity.
Qed.

Lemma ck_watch_cont p b : ~ In ANotify (b_acts b) -> stable clean_kept (watch_cont p b).
Proof.
  intros Hn. pose proof (ck_run_acts (b_acts b) Hn).
  unfold watch_cont, invoke_watchFn. stab.
Qed.

Lemma runWatch_leaves_clean b m :
  ~ In ANotify (b_acts b) -> has_flag (f (m_watch (snd (runWatch b m)))) WatchFlagsIsDirty = false.
Proof.
  intros Hn. destruct (has_flag (f (m_watch m)) WatchFlagsIsDirty) eqn:Hd.
  - rewrite (runWatch_dirty_eq b m Hd).
    assert (Hs : stable clean_kept
                   (bind (run_start b (length (m_proms m)) (running (m_watch m)))
                         (fun _ => bind (modify_watch (fun w => with_running w (Some (length (m_proms m)))))
                                        (fun _ => ret (length (m_proms m)))))).
    { pose proof (ck_watch_cont (length (m_proms m)) b Hn). unfold run_start. stab. }
    apply (Hs (run_state m)). apply run_state_dirty.
  - unfold runWatch, bind at 1, get_watch. cbn [fst snd]. rewrite Hd. cbn. exact Hd.
Qed.

(** Scheduling is coalesced: when the body writes no tracked property, a
    [runWatch] called again right after a [runWatch] finds the descriptor
    clean, whether the first call ran the body, queued the run behind the
    running one or did nothing; it creates no run and answers a resolved
    promise. *)
Theorem runWatch_coalesces b b' m :
  ~ In ANotify (b_acts b) ->
  runWatch b' (snd (runWatch b m)) = promise_resolve PWatch (snd (runWatch b m)).
Proof.
  intros Hn. pose proof (runWatch_leaves_clean b m Hn) as Hc.
  set (m1 := snd (runWatch b m)) in *. clearbody m1.
  unfold runWatch, bind at 1, get_watch. cbn [fst snd]. rewrite Hc. reflexivity.
Qed.

(** ** The subscriptions of a run *)

(** The subscriptions are untouched. *)
Definition subs_same (m m' : machine) : Prop := m_subs m' = m_subs m.

Lemma subs_same_refl m : subs_same m m.
Proof. reflexivity. Qed.
Lemma subs_same_trans m1 m2 m3 : subs_same m1 m2 -> subs_same m2 m3 -> subs_same m1 m3.
Proof. unfold subs_same. congruence. Qed.

Ltac ss_prim :=
  intros ?m; unfold subs_same; cbn;
  repeat match goal with
         | |- context [match ?x with _ => _ end] => destruct x
         end;
  cbn; reflexivity.

Lemma ss_emit e : stable subs_same (emit e).
Proof. ss_prim. Qed.
Lemma ss_modify_watch g : stable subs_same (modify_watch g).
Proof. ss_prim. Qed.
Lemma ss_new_pending k : stable subs_same (new_pending k).
Proof. ss_prim. Qed.
Lemma ss_settle p s : stable subs_same (settle p s).
Proof. intros m. unfold settle, subs_same. destruct (m_proms m !! p) as [[[] k]|]; reflexivity. Qed.
Lemma ss_add_then q j : stable subs_same (add_then q j).
Proof. intros m. unfold add_then, subs_same. destruct (m_proms m !! q) as [[[] k]|]; reflexivity. Qed.
#[export] Hint Resolve subs_same_refl subs_same_trans ss_emit ss_modify_watch ss_new_pending
  ss_settle ss_add_then : stab.
Lemma ss_finish p v : stable subs_same (finish p v).
Proof. unfold finish. stab. Qed.
#[export] Hint Resolve ss_finish : stab.
Lemma ss_result_part p r : stable subs_same (result_part p r).
Proof. unfold result_part. stab. Qed.

Lemma track_eq o pr m t :
  getProxyTarget (m_heap m) o = Some t -> exists v, track o pr m = (Ok v, snd (addSub t pr m)).
Proof.
  intros Ht. unfold track, bind, get, assertDefined. rewrite Ht. cbn.
  destruct (truthy pr); eexists; reflexivity.
Qed.

Lemma run_acts_subs acts m m' :
  Forall (act_ok (m_heap m)) acts -> run_acts acts m = (Ok tt, m') ->
  watch_key (m_watch m') = watch_key (m_watch m) /\ m_heap m' = m_heap m /\
  (forall e, In e (m_subs m') <->
     In e (m_subs m) \/
     exists o pr t, In (ATrack o pr) acts /\ getProxyTarget (m_heap m) o = Some t /\
                    e = (watch_key (m_watch m), t, pr)) /\
  (NoDup (m_subs m) -> NoDup (m_subs m')).
Proof.
  revert m. induction acts as [|a acts IH]; intros m Hok Hr.
  - cbn in Hr. injection Hr as <-. split; [reflexivity | split; [reflexivity | split; [| tauto]]].
    intros e. split; [tauto |]. intros [H|[o [pr [t [[] _]]]]]. exact H.
  - inversion Hok as [|? ? Ha Hrest]; subst. destruct a as [o pr|].
    + cbn in Ha. destruct (getProxyTarget (m_heap m) o) as [t|] eqn:Ht; [| congruence].
      destruct (track_eq o pr m t Ht) as [v Etr]. cbn [run_acts] in Hr.
      rewrite (bind_ok _ _ _ _ _ Etr) in Hr.
      set (m1 := snd (addSub t pr m)) in *.
      assert (Hk1 : watch_key (m_watch m1) = watch_key (m_watch m)) by reflexivity.
      assert (Hh1 : m_heap m1 = m_heap m) by reflexivity.
      assert (Hs1 : m_subs m1 = if decide ((watch_key (m_watch m), t, pr) ∈ m_subs m) then m_subs m
                                else m_subs m ++ [(watch_key (m_watch m), t, pr)]) by reflexivity.
      clearbody m1. rewrite <- Hh1 in Hrest.
      destruct (IH m1 Hrest Hr) as [Hk [Hh [Hin Hnd]]].
      split; [congruence | split; [congruence | split]].
      * intros e. rewrite Hin, Hs1, Hk1, Hh1.
        destruct (decide _) as [Hm|Hm]; rewrite ?in_app_iff; cbn; split.
        -- intros [H|[o' [pr' [t' [H1 [H2 H3]]]]]]; [left; exact H | right; exists o', pr', t'; auto].
        -- intros [H|[o' [pr' [t' [[H1|H1] [H2 H3]]]]]];
             [left; exact H | | right; exists o', pr', t'; auto].
           left. injection H1 as -> ->. rewrite Ht in H2. injection H2 as ->. subst e.
           apply list_elem_of_In. exact Hm.
        -- intros [[H|[H|[]]]|[o' [pr' [t' [H1 [H2 H3]]]]]];
             [left; exact H | right; exists o, pr, t; auto | right; exists o', pr', t'; auto].
        -- intros [H|[o' [pr' [t' [[H1|H1] [H2 H3]]]]]];
             [left; left; exact H | | right; exists o', pr', t'; auto].
           left. right. left. injection H1 as -> ->. rewrite Ht in H2. injection H2 as ->. subst e.
           reflexivity.
      * intros Hnd0. apply Hnd. rewrite Hs1. destruct (decide _) as [Hm|Hm]; [exact Hnd0 |].
        apply NoDup_app. split; [exact Hnd0 | split; [| apply NoDup_singleton]].
        intros x Hx Hx'. apply list_elem_of_singleton in Hx'. subst x. contradiction.
    + cbn [run_acts] in Hr. rewrite (bind_ok _ _ _ tt (snd (notify m))) in Hr by reflexivity.
      destruct (IH (snd (notify m)) Hrest Hr) as [Hk [Hh [Hin Hnd]]].
      split; [exact Hk | split; [exact Hh | split; [| exact Hnd]]].
      intros e. rewrite Hin. cbn. split.
      * intros [H|[o' [pr' [t' [H1 [H2 H3]]]]]]; [left; exact H | right; exists o', pr', t'; auto].
      * intros [H|[o' [pr' [t' [[H1|H1] [H2 H3]]]]]]; [left; exact H | discriminate |].
        right. exists o', pr', t'. auto.
Qed.


Lemma subs_bind_result {A B} (c : M A) (k : A -> M B) m :
  (forall a, stable subs_same (k a)) -> m_subs (snd (bind c k m)) = m_subs (snd (c m)).
Proof.
  intros Hk. unfold bind. destruct (c m) as [[a|e] m'] eqn:E; cbn; [apply (Hk a m') | reflexivity].
Qed.

Lemma subs_catch_after {A B} (c : M A) (k : A -> M B) h m a m2 :
  c m = (Ok a, m2) -> stable subs_same (k a) -> (forall e, stable subs_same (h e)) ->
  m_subs (snd (catch (bind c k) h m)) = m_subs m2.
Proof.
  intros Hc Hk Hh. unfold catch. rewrite (bind_ok _ _ _ _ _ Hc).
  specialize (Hk m2). unfold subs_same in Hk.
  destruct (k a m2) as [[x|e] m3] eqn:E; cbn in *; [exact Hk |].
  rewrite (Hh e m3). exact Hk.
Qed.

Lemma body_state_subs p m :
  m_subs (body_state p m) =
    List.filter (fun e : sub => negb (bool_decide (e.1.1 = watch_key (m_watch m)))) (m_subs m) /\
  watch_key (m_watch (body_state p m)) = watch_key (m_watch m).
Proof.
  unfold body_state, clearSub. rewrite cleanupWatch_eq. cbn.
  destruct (destroy (m_watch m)); [destruct (m_fns m n)|]; split; reflexivity.
Qed.

(** The continuation of a run whose body tracks only store proxies
    replaces the descriptor's subscriptions by exactly the ones its body
    tracked, each once: every (target, property) pair given to the tracker
    is recorded, no older subscription of the descriptor survives, and the
    subscriptions of other descriptors are kept.  The body may then return,
    throw or go asynchronous. *)
Theorem run_replaces_subscriptions p b m :
  Forall (act_ok (m_heap m)) (b_acts b) ->
  (forall e, In e (m_subs (snd (watch_cont p b m))) <->
     (e.1.1 <> watch_key (m_watch m) /\ In e (m_subs m)) \/
     exists o pr t, In (ATrack o pr) (b_acts b) /\ getProxyTarget (m_heap m) o = Some t /\
                    e = (watch_key (m_watch m), t, pr)) /\
  (NoDup (m_subs m) -> NoDup (m_subs (snd (watch_cont p b m)))).
Proof.
  intros Hok. rewrite watch_cont_eq.
  rewrite (subs_bind_result (body_part p b) (result_part p) _ (fun r => ss_result_part p r)).
  destruct (body_state_subs p m) as [Hs0 Hk0].
  pose proof (body_state_heap p m) as Hh0.
  set (m0 := body_state p m) in *. clearbody m0.
  assert (Hok0 : Forall (act_ok (m_heap m0)) (b_acts b)) by (rewrite Hh0; exact Hok).
  destruct (run_acts_ok (b_acts b) m0 Hok0) as [m2 [Hr2 _]].
  destruct (run_acts_subs (b_acts b) m0 m2 Hok0 Hr2) as [_ [_ [Hin Hnd]]].
  unfold body_part.
  rewrite (subs_catch_after _ _ _ m0 tt m2 Hr2);
    [| cbv beta; stab | intros e; cbv beta; stab].
  rewrite Hh0, Hk0 in Hin. split.
  - intros e. rewrite Hin, Hs0, filter_In, negb_true_iff, bool_decide_eq_false.
    split; (intros [[H1 H2]|H]; [left; split; assumption | right; exact H]).
  - intros Hnd1. apply Hnd. rewrite Hs0. apply NoDup_ListNoDup.
    apply List.NoDup_filter. apply NoDup_ListNoDup. exact Hnd1.
Qed.

(** * Witnesses *)

Lemma runWatch_clean_noop_witness :
  has_flag (f (m_watch (sample WatchFlagsIsWatch))) WatchFlagsIsDirty = false /\
  (let p := length (m_proms (sample WatchFlagsIsWatch)) in
   let (r, m') := runWatch (mkB [] (BRet None)) (sample WatchFlagsIsWatch) in
   r = Ok p /\ m_proms m' !! p = Some (mkP (Fulfilled PWatch) PKResolved) /\
   m_watch m' = m_watch (sample WatchFlagsIsWatch) /\
   m_subs m' = m_subs (sample WatchFlagsIsWatch) /\
   m_trace m' = EFulfil p :: m_trace (sample WatchFlagsIsWatch) /\
   m_queue m' = m_queue (sample WatchFlagsIsWatch) /\
   m_reacts m' = m_reacts (sample WatchFlagsIsWatch)).
Proof.
  split; [reflexivity |].
  apply (runWatch_clean_noop (mkB [] (BRet None)) (sample WatchFlagsIsWatch)). reflexivity.
Defined.

Lemma cleanup_failure_suppressed_witness :
  destroy (m_watch (sample WatchFlagsIsDirty)) = Some 7%nat /\
  m_fns (sample WatchFlagsIsDirty) 7 = Some (ExnUser 1) /\
  fst (cleanupWatch (sample WatchFlagsIsDirty)) = Ok tt /\
  m_log (snd (cleanupWatch (sample WatchFlagsIsDirty))) = ExnUser 1 :: m_log (sample WatchFlagsIsDirty) /\
  destroy (m_watch (snd (cleanupWatch (sample WatchFlagsIsDirty)))) = None /\
  (forall p b, exists l,
     m_trace (snd (watch_cont p b (sample WatchFlagsIsDirty))) =
       l ++ EBodyStart p :: ECall 7 :: EStart p :: m_trace (sample WatchFlagsIsDirty)).
Proof.
  split; [reflexivity | split; [reflexivity |]].
  apply (cleanup_failure_suppressed (sample WatchFlagsIsDirty) 7 (ExnUser 1)); reflexivity.
Defined.

Lemma destroyWatch_teardown_witness :
  has_flag (f (m_watch (sample WatchFlagsIsCleanup))) WatchFlagsIsCleanup = true /\
  (let (r, m') := destroyWatch (sample WatchFlagsIsCleanup) in
   has_flag (f (m_watch m')) WatchFlagsIsCleanup = false /\
   m_trace m' = ECall (qrl (m_watch (sample WatchFlagsIsCleanup))) :: m_trace (sample WatchFlagsIsCleanup) /\
   m_log m' = m_log (sample WatchFlagsIsCleanup) /\
   m_subs m' = m_subs (sample WatchFlagsIsCleanup) /\
   destroy (m_watch m') = destroy (m_watch (sample WatchFlagsIsCleanup)) /\
   r = match m_fns (sample WatchFlagsIsCleanup) (qrl (m_watch (sample WatchFlagsIsCleanup))) with
       | None => Ok tt | Some e => Throw e end).
Proof.
  split; [reflexivity |].
  apply (destroyWatch_teardown (sample WatchFlagsIsCleanup)). reflexivity.
Defined.

Lemma tracker_plain_object_fails_witness :
  getProxyTarget (m_heap (sample WatchFlagsIsDirty)) (VObj 1) = None /\
  track (VObj 1) (Some "count") (sample WatchFlagsIsDirty) =
    (Throw (ExnAssert "Expected a Proxy object to track"), sample WatchFlagsIsDirty) /\
  (forall p b pre rest,
     b_acts b = pre ++ ATrack (VObj 1) (Some "count") :: rest ->
     Forall (act_ok (m_heap (sample WatchFlagsIsDirty))) pre ->
     fst (watch_cont p b (sample WatchFlagsIsDirty)) = Throw (ExnAssert "Expected a Proxy object to track")).
Proof.
  split; [reflexivity |].
  apply (tracker_plain_object_fails (VObj 1) (Some "count") (sample WatchFlagsIsDirty)). reflexivity.
Defined.

Lemma runWatch_clears_dirty_first_witness :
  has_flag (f (m_watch (sample WatchFlagsIsDirty))) WatchFlagsIsDirty = true /\
  (let p := length (m_proms (sample WatchFlagsIsDirty)) in
   (has_flag (f (m_watch (run_state (sample WatchFlagsIsDirty)))) WatchFlagsIsDirty = false /\
    runWatch (mkB [ANotify] (BRet None)) (sample WatchFlagsIsDirty) =
      bind (run_start (mkB [ANotify] (BRet None)) p (running (m_watch (sample WatchFlagsIsDirty))))
           (fun _ => bind (modify_watch (fun w => with_running w (Some p))) (fun _ => ret p))
           (run_state (sample WatchFlagsIsDirty))) /\
   (forall q, running (m_watch (sample WatchFlagsIsDirty)) = Some q ->
      let (r, m') := runWatch (mkB [ANotify] (BRet None)) (sample WatchFlagsIsDirty) in
      r = Ok p /\ has_flag (f (m_watch m')) WatchFlagsIsDirty = false /\
      m_trace m' = ECreate p (Some q) :: m_trace (sample WatchFlagsIsDirty)) /\
   (forall rest, running (m_watch (sample WatchFlagsIsDirty)) = None ->
      b_acts (mkB [ANotify] (BRet None)) = ANotify :: rest ->
      has_flag (f (m_watch (snd (runWatch (mkB [ANotify] (BRet None)) (sample WatchFlagsIsDirty)))))
        WatchFlagsIsDirty = true /\
      In (EBodyStart p) (m_trace (snd (runWatch (mkB [ANotify] (BRet None)) (sample WatchFlagsIsDirty))))) /\
   (forall p' b' m2, has_flag (f (m_watch m2)) WatchFlagsIsDirty = true ->
      has_flag (f (m_watch (snd (watch_cont p' b' m2)))) WatchFlagsIsDirty = true)).
Proof.
  split; [reflexivity |].
  apply (runWatch_clears_dirty_first (mkB [ANotify] (BRet None)) (sample WatchFlagsIsDirty)).
  reflexivity.
Defined.

Lemma runs_single_flight_witness :
  initial cleanup_m0 /\ reach cleanup_m0 cleanup_m4 /\
  In (ECreate 1 (Some 0%nat)) (m_trace cleanup_m4) /\
  In (EStart 1) (m_trace cleanup_m4) /\ In (EBodyStart 1) (m_trace cleanup_m4) /\
  In (EBodyStart 0) (m_trace cleanup_m4) /\
  (forall post pre p q, m_trace cleanup_m4 = post ++ EStart p :: pre ->
     In (ECreate p (Some q)) (m_trace cleanup_m4) -> In (EFulfil q) pre) /\
  (forall post pre p q, m_trace cleanup_m4 = post ++ EBodyStart p :: pre ->
     In (ECreate p (Some q)) (m_trace cleanup_m4) -> In (EFulfil q) pre) /\
  (forall p p', body_active cleanup_m4 p -> body_active cleanup_m4 p' -> p = p').
Proof.
  assert (H0 : initial cleanup_m0)
    by exact (initial_fresh (mkWatch 100 1 WatchFlagsIsDirty 0 None None) sample_heap sample_fns
                            eq_refl eq_refl).
  assert (H1 : reach cleanup_m0 cleanup_m4).
  { apply (reach_step cleanup_m0 cleanup_m3 cleanup_m4).
    - apply (reach_step cleanup_m0 cleanup_m2 cleanup_m3).
      + apply (reach_step cleanup_m0 cleanup_m1 cleanup_m2).
        * apply (reach_step cleanup_m0 cleanup_m0 cleanup_m1 (reach_refl cleanup_m0)).
          exact (step_run cleanup_m0 cleanup_b).
        * exact (step_notify cleanup_m1).
      + exact (step_run cleanup_m2 cleanup_b).
    - exact (step_task cleanup_m3 cleanup_b (JStart 1) (SOk PWatch) [] eq_refl). }
  split; [exact H0 | split; [exact H1 |]].
  split; [vm_compute; tauto | split; [vm_compute; tauto | split; [vm_compute; tauto |]]].
  split; [vm_compute; tauto |].
  exact (runs_single_flight cleanup_m0 cleanup_m4 H0 H1).
Defined.

Lemma cleanup_before_body_witness :
  initial cleanup_m0 /\ reach cleanup_m0 cleanup_m4 /\
  ccheck (m_trace cleanup_m4) = Some (destroy (m_watch cleanup_m4)) /\
  (forall post pre fn, m_trace cleanup_m4 = post ++ ECall fn :: pre -> ccheck pre = Some (Some fn)) /\
  (forall post pre p, m_trace cleanup_m4 = post ++ EBodyStart p :: pre -> ccheck pre = Some None) /\
  (forall post pre p fn, m_trace cleanup_m4 = post ++ EStore p fn :: pre -> ccheck pre = Some None).
Proof.
  assert (H0 : initial cleanup_m0)
    by exact (initial_fresh (mkWatch 100 1 WatchFlagsIsDirty 0 None None) sample_heap sample_fns
                            eq_refl eq_refl).
  assert (H1 : reach cleanup_m0 cleanup_m4).
  { apply (reach_step cleanup_m0 cleanup_m3 cleanup_m4).
    - apply (reach_step cleanup_m0 cleanup_m2 cleanup_m3).
      + apply (reach_step cleanup_m0 cleanup_m1 cleanup_m2).
        * apply (reach_step cleanup_m0 cleanup_m0 cleanup_m1 (reach_refl cleanup_m0)).
          exact (step_run cleanup_m0 cleanup_b).
        * exact (step_notify cleanup_m1).
      + exact (step_run cleanup_m2 cleanup_b).
    - exact (step_task cleanup_m3 cleanup_b (JStart 1) (SOk PWatch) [] eq_refl). }
  split; [exact H0 | split; [exact H1 |]].
  exact (cleanup_before_body cleanup_m0 cleanup_m4 H0 H1).
Defined.

Lemma registrars_defer_watch_awaits_body_witness :
  initial setup_m0 /\ reach setup_m0 setup_m4 /\
  (forall scoped q el0 i0 srv run m1 p,
     (In (EStart p) (m_trace (snd (useWatchQrl scoped q el0 i0 srv run m1))) ->
        In (EStart p) (m_trace m1)) /\
     (In (EBodyStart p) (m_trace (snd (useWatchQrl scoped q el0 i0 srv run m1))) ->
        In (EBodyStart p) (m_trace m1))) /\
  (forall scoped q el0 i0 run obs m1 p,
     m_waiton (snd (useClientEffectQrl scoped q el0 i0 run obs m1)) = m_waiton m1 /\
     (In (EStart p) (m_trace (snd (useClientEffectQrl scoped q el0 i0 run obs m1))) ->
        In (EStart p) (m_trace m1)) /\
     (In (EBodyStart p) (m_trace (snd (useClientEffectQrl scoped q el0 i0 run obs m1))) ->
        In (EBodyStart p) (m_trace m1))) /\
  (forall q el0 i0 srv run m1,
     m_waiton (snd (useWatchQrl false q el0 i0 srv run m1)) = S (length (m_proms m1)) :: m_waiton m1 /\
     m_proms (snd (useWatchQrl false q el0 i0 srv run m1)) !! S (length (m_proms m1)) =
       Some (mkP Pending PKDeferred)) /\
  (forall w, In w (m_waiton setup_m4) -> fulfilled setup_m4 w ->
     exists p, In (EDeferred w p) (m_trace setup_m4) /\ In (EFulfil p) (m_trace setup_m4) /\
       (forall r, In (ECreate p r) (m_trace setup_m4) -> In (EBodyEnd p) (m_trace setup_m4))).
Proof.
  assert (H0 : initial setup_m0)
    by exact (initial_watch (sample_watch 0) sample_heap sample_fns 100 1 0 false None).
  assert (H1 : reach setup_m0 setup_m4).
  { apply (reach_step setup_m0 setup_m3 setup_m4).
    - apply (reach_step setup_m0 setup_m2 setup_m3).
      + apply (reach_step setup_m0 setup_m1 setup_m2).
        * apply (reach_step setup_m0 setup_m0 setup_m1 (reach_refl setup_m0)).
          exact (step_task setup_m0 (mkB [] BAsync) (JDeferredRun 1) (SOk (PRet None)) [] eq_refl).
        * exact (step_settle setup_m1 3 2 None eq_refl).
      + exact (step_task setup_m2 (mkB [] BAsync) (JFinish 2) (SOk (PRet None)) [] eq_refl).
    - exact (step_task setup_m3 (mkB [] BAsync) (JAdopt 1) (SOk PWatch) [] eq_refl). }
  split; [exact H0 | split; [exact H1 |]].
  exact (registrars_defer_watch_awaits_body setup_m0 setup_m4 H0 H1).
Defined.

Lemma destroyWatch_teardown_once_witness :
  has_flag (f (m_watch (sample WatchFlagsIsCleanup))) WatchFlagsIsCleanup = true /\
  has_flag (f (m_watch (snd (destroyWatch (sample WatchFlagsIsCleanup))))) WatchFlagsIsCleanup = false /\
  destroy (m_watch (snd (destroyWatch (sample WatchFlagsIsCleanup)))) =
    destroy (m_watch (sample WatchFlagsIsCleanup)) /\
  destroyWatch (snd (destroyWatch (sample WatchFlagsIsCleanup))) =
    cleanupWatch (snd (destroyWatch (sample WatchFlagsIsCleanup))) /\
  (destroy (m_watch (sample WatchFlagsIsCleanup)) = None ->
   destroyWatch (snd (destroyWatch (sample WatchFlagsIsCleanup))) =
     (Ok tt, snd (destroyWatch (sample WatchFlagsIsCleanup)))).
Proof.
  split; [reflexivity |].
  apply (destroyWatch_teardown_once (sample WatchFlagsIsCleanup)). reflexivity.
Defined.

Lemma useWatchQrl_initial_run_witness :
  m_queue (sample 0) = [] /\
  m_queue (snd (useWatchQrl false 100 1 0 false None (sample 0))) =
    [(JDeferredRun (S (length (m_proms (sample 0)))), SOk (PRet None))] /\
  (forall p, p = length (m_proms (snd (useWatchQrl false 100 1 0 false None (sample 0)))) ->
   In (ECreate p None) (m_trace (run_task (mkB [] BAsync) (snd (useWatchQrl false 100 1 0 false None (sample 0))))) /\
   In (EStart p) (m_trace (run_task (mkB [] BAsync) (snd (useWatchQrl false 100 1 0 false None (sample 0))))) /\
   In (EBodyStart p) (m_trace (run_task (mkB [] BAsync) (snd (useWatchQrl false 100 1 0 false None (sample 0))))) /\
   In (EDeferred (S (length (m_proms (sample 0)))) p)
      (m_trace (run_task (mkB [] BAsync) (snd (useWatchQrl false 100 1 0 false None (sample 0)))))).
Proof.
  split; [reflexivity |].
  apply (useWatchQrl_initial_run 100 1 0 false None (sample 0) (mkB [] BAsync)). reflexivity.
Defined.

Lemma runs_form_chain_witness :
  initial cleanup_m0 /\ reach cleanup_m0 cleanup_m4 /\
  In (ECreate 0 None) (m_trace cleanup_m4) /\ In (ECreate 1 (Some 0%nat)) (m_trace cleanup_m4) /\
  running (m_watch cleanup_m4) = Some 1%nat /\
  (forall q, running (m_watch cleanup_m4) = Some q -> exists r, In (ECreate q r) (m_trace cleanup_m4)) /\
  (forall p r, In (ECreate p r) (m_trace cleanup_m4) ->
     exists q, running (m_watch cleanup_m4) = Some q /\ (p <= q)%nat) /\
  (forall p p' r', In (ECreate p None) (m_trace cleanup_m4) -> In (ECreate p' r') (m_trace cleanup_m4) ->
     (p <= p')%nat) /\
  (forall p q, In (ECreate p (Some q)) (m_trace cleanup_m4) ->
     (exists r, In (ECreate q r) (m_trace cleanup_m4)) /\
     forall p' r', In (ECreate p' r') (m_trace cleanup_m4) -> (p' < p)%nat -> (p' <= q)%nat).
Proof.
  assert (H0 : initial cleanup_m0)
    by exact (initial_fresh (mkWatch 100 1 WatchFlagsIsDirty 0 None None) sample_heap sample_fns
                            eq_refl eq_refl).
  assert (H1 : reach cleanup_m0 cleanup_m4).
  { apply (reach_step cleanup_m0 cleanup_m3 cleanup_m4).
    - apply (reach_step cleanup_m0 cleanup_m2 cleanup_m3).
      + apply (reach_step cleanup_m0 cleanup_m1 cleanup_m2).
        * apply (reach_step cleanup_m0 cleanup_m0 cleanup_m1 (reach_refl cleanup_m0)).
          exact (step_run cleanup_m0 cleanup_b).
        * exact (step_notify cleanup_m1).
      + exact (step_run cleanup_m2 cleanup_b).
    - exact (step_task cleanup_m3 cleanup_b (JStart 1) (SOk PWatch) [] eq_refl). }
  split; [exact H0 | split; [exact H1 |]].
  split; [vm_compute; tauto | split; [vm_compute; tauto | split; [reflexivity |]]].
  exact (runs_form_chain cleanup_m0 cleanup_m4 H0 H1).
Defined.

Lemma run_replaces_subscriptions_witness :
  Forall (act_ok (m_heap (sample WatchFlagsIsDirty)))
    (b_acts (mkB [ATrack (VObj 0) (Some "count"); ATrack (VObj 0) None] (BRet None))) /\
  (forall e, In e (m_subs (snd (watch_cont 1 (mkB [ATrack (VObj 0) (Some "count"); ATrack (VObj 0) None] (BRet None))
                                   (sample WatchFlagsIsDirty)))) <->
     (e.1.1 <> watch_key (m_watch (sample WatchFlagsIsDirty)) /\ In e (m_subs (sample WatchFlagsIsDirty))) \/
     exists o pr t, In (ATrack o pr) (b_acts (mkB [ATrack (VObj 0) (Some "count"); ATrack (VObj 0) None] (BRet None))) /\
                    getProxyTarget (m_heap (sample WatchFlagsIsDirty)) o = Some t /\
                    e = (watch_key (m_watch (sample WatchFlagsIsDirty)), t, pr)) /\
  (NoDup (m_subs (sample WatchFlagsIsDirty)) ->
   NoDup (m_subs (snd (watch_cont 1 (mkB [ATrack (VObj 0) (Some "count"); ATrack (VObj 0) None] (BRet None))
                          (sample WatchFlagsIsDirty))))).
Proof.
  assert (Hok : Forall (act_ok (m_heap (sample WatchFlagsIsDirty)))
    (b_acts (mkB [ATrack (VObj 0) (Some "count"); ATrack (VObj 0) None] (BRet None))))
    by (repeat constructor; unfold act_ok; cbn; discriminate).
  split; [exact Hok |].
  exact (run_replaces_subscriptions 1 _ (sample WatchFlagsIsDirty) Hok).
Defined.

Lemma rejected_run_blocks_later_witness :
  initial cleanup_m0 /\ reach cleanup_m0 reject_m4 /\
  m_proms reject_m4 !! 0%nat = Some (mkP (Rejected (ExnAssert "Expected a Proxy object to track")) PKRun) /\
  In (ECreate 0 None) (m_trace reject_m4) /\ In (ECreate 1 (Some 0%nat)) (m_trace reject_m4) /\
  (0 < 1)%nat /\
  ~ In (EStart 1) (m_trace reject_m4) /\ ~ In (EBodyStart 1) (m_trace reject_m4) /\
  ~ In (EFulfil 1) (m_trace reject_m4).
Proof.
  assert (H0 : initial cleanup_m0)
    by exact (initial_fresh (mkWatch 100 1 WatchFlagsIsDirty 0 None None) sample_heap sample_fns
                            eq_refl eq_refl).
  assert (H1 : reach cleanup_m0 reject_m4).
  { apply (reach_step cleanup_m0 reject_m3 reject_m4).
    - apply (reach_step cleanup_m0 reject_m2 reject_m3).
      + apply (reach_step cleanup_m0 reject_m1 reject_m2).
        * apply (reach_step cleanup_m0 cleanup_m0 reject_m1 (reach_refl cleanup_m0)).
          exact (step_run cleanup_m0 reject_b).
        * exact (step_notify reject_m1).
      + exact (step_run reject_m2 cleanup_b).
    - exact (step_task reject_m3 cleanup_b (JStart 1)
               (SErr (ExnAssert "Expected a Proxy object to track")) [] eq_refl). }
  assert (Hp : m_proms reject_m4 !! 0%nat =
               Some (mkP (Rejected (ExnAssert "Expected a Proxy object to track")) PKRun))
    by reflexivity.
  assert (Hc : In (ECreate 0 None) (m_trace reject_m4))
    by (vm_compute; right; right; right; right; right; left; reflexivity).
  assert (Hc' : In (ECreate 1 (Some 0%nat)) (m_trace reject_m4)) by (vm_compute; left; reflexivity).
  split; [exact H0 | split; [exact H1 | split; [exact Hp | split; [exact Hc | split; [exact Hc' |]]]]].
  split; [lia |].
  exact (rejected_run_blocks_later cleanup_m0 reject_m4 0 1 None (Some 0%nat) _ _ H0 H1 Hp Hc Hc' ltac:(lia)).
Defined.

Lemma runWatch_coalesces_witness :
  ~ In ANotify (b_acts cleanup_b) /\
  runWatch cleanup_b (snd (runWatch cleanup_b cleanup_m0)) =
    promise_resolve PWatch (snd (runWatch cleanup_b cleanup_m0)).
Proof.
  assert (Hn : ~ In ANotify (b_acts cleanup_b)) by (cbn; tauto).
  split; [exact Hn |].
  exact (runWatch_coalesces cleanup_b cleanup_b cleanup_m0 Hn).
Defined.

Lemma waiting_run_throw_hangs_witness :
  initial cleanup_m0 /\ reach cleanup_m0 hang_m3 /\
  m_queue hang_m3 = [(JStart 1, SOk PWatch)] /\
  fst (watch_cont 1 reject_b (set_queue hang_m3 [])) =
    Throw (ExnAssert "Expected a Proxy object to track") /\
  reach (run_task reject_b hang_m3) (snd (runWatch cleanup_b (snd (notify (run_task reject_b hang_m3))))) /\
  (exists tl, m_trace (run_task reject_b hang_m3) =
     EUncaught (ExnAssert "Expected a Proxy object to track") :: tl) /\
  m_proms (snd (runWatch cleanup_b (snd (notify (run_task reject_b hang_m3))))) !! 1%nat = Some (mkP Pending PKRun) /\
  (forall p' r', In (ECreate p' r') (m_trace (snd (runWatch cleanup_b (snd (notify (run_task reject_b hang_m3)))))) -> (1 < p')%nat -> ~ In (EStart p') (m_trace (snd (runWatch cleanup_b (snd (notify (run_task reject_b hang_m3))))))).
Proof.
  assert (H0 : initial cleanup_m0)
    by exact (initial_fresh (mkWatch 100 1 WatchFlagsIsDirty 0 None None) sample_heap sample_fns
                            eq_refl eq_refl).
  assert (H1 : reach cleanup_m0 hang_m3).
  { apply (reach_step cleanup_m0 cleanup_m2 hang_m3).
    - apply (reach_step cleanup_m0 cleanup_m1 cleanup_m2).
      + apply (reach_step cleanup_m0 cleanup_m0 cleanup_m1 (reach_refl cleanup_m0)).
        exact (step_run cleanup_m0 cleanup_b).
      + exact (step_notify cleanup_m1).
    - exact (step_run cleanup_m2 reject_b). }
  assert (Hq : m_queue hang_m3 = [(JStart 1, SOk PWatch)]) by reflexivity.
  assert (Ht : fst (watch_cont 1 reject_b (set_queue hang_m3 [])) =
                 Throw (ExnAssert "Expected a Proxy object to track")) by (vm_compute; reflexivity).
  set (m4 := run_task reject_b hang_m3).
  assert (H2 : reach m4 (snd (runWatch cleanup_b (snd (notify m4))))).
  { apply (reach_step m4 (snd (notify m4))).
    - exact (reach_step m4 m4 (snd (notify m4)) (reach_refl m4) (step_notify m4)).
    - exact (step_run (snd (notify m4)) cleanup_b). }
  split; [exact H0 | split; [exact H1 | split; [exact Hq | split; [exact Ht | split; [exact H2 |]]]]].
  exact (waiting_run_throw_hangs cleanup_m0 hang_m3 _ reject_b 1 PWatch []
           (ExnAssert "Expected a Proxy object to track") H0 H1 Hq Ht H2).
Defined.

Lemma handles_hold_descriptor_witness :
  initial setup_m0 /\ reach setup_m0 setup_m4 /\
  (forall p r x k, In (ECreate p r) (m_trace setup_m4) ->
     m_proms setup_m4 !! p = Some (mkP (Fulfilled x) k) -> x = PWatch) /\
  (forall w x k, In w (m_waiton setup_m4) -> m_proms setup_m4 !! w = Some (mkP (Fulfilled x) k) -> x = PWatch).
Proof.
  assert (H0 : initial setup_m0)
    by exact (initial_watch (sample_watch 0) sample_heap sample_fns 100 1 0 false None).
  assert (H1 : reach setup_m0 setup_m4).
  { apply (reach_step setup_m0 setup_m3 setup_m4).
    - apply (reach_step setup_m0 setup_m2 setup_m3).
      + apply (reach_step setup_m0 setup_m1 setup_m2).
        * apply (reach_step setup_m0 setup_m0 setup_m1 (reach_refl setup_m0)).
          exact (step_task setup_m0 (mkB [] BAsync) (JDeferredRun 1) (SOk (PRet None)) [] eq_refl).
        * exact (step_settle setup_m1 3 2 None eq_refl).
      + exact (step_task setup_m2 (mkB [] BAsync) (JFinish 2) (SOk (PRet None)) [] eq_refl).
    - exact (step_task setup_m3 (mkB [] BAsync) (JAdopt 1) (SOk PWatch) [] eq_refl). }
  split; [exact H0 | split; [exact H1 |]].
  exact (handles_hold_descriptor setup_m0 setup_m4 H0 H1).
Defined.

Lemma runWatch_sync_body_witness :
  has_flag (f (m_watch cleanup_m0)) WatchFlagsIsDirty = true /\ running (m_watch cleanup_m0) = None /\
  Forall (act_ok (m_heap cleanup_m0)) [ATrack (VObj 0) (Some "count")] /\
  b_res (mkB [ATrack (VObj 0) (Some "count")] (BRet (Some 5%nat))) = BRet (Some 5%nat) /\
  fst (runWatch (mkB [ATrack (VObj 0) (Some "count")] (BRet (Some 5%nat))) cleanup_m0) =
    Ok (length (m_proms cleanup_m0)) /\
  m_proms (snd (runWatch (mkB [ATrack (VObj 0) (Some "count")] (BRet (Some 5%nat))) cleanup_m0))
    !! length (m_proms cleanup_m0) = Some (mkP (Fulfilled PWatch) PKRun) /\
  destroy (m_watch (snd (runWatch (mkB [ATrack (VObj 0) (Some "count")] (BRet (Some 5%nat))) cleanup_m0))) =
    Some 5%nat /\
  running (m_watch (snd (runWatch (mkB [ATrack (VObj 0) (Some "count")] (BRet (Some 5%nat))) cleanup_m0))) =
    Some (length (m_proms cleanup_m0)).
Proof.
  assert (Hok : Forall (act_ok (m_heap cleanup_m0)) [ATrack (VObj 0) (Some "count")])
    by (repeat constructor; unfold act_ok; cbn; discriminate).
  split; [reflexivity | split; [reflexivity | split; [exact Hok | split; [reflexivity |]]]].
  exact (runWatch_sync_body (mkB [ATrack (VObj 0) (Some "count")] (BRet (Some 5%nat))) cleanup_m0 (Some 5%nat)
           eq_refl eq_refl Hok eq_refl).
Defined.

Lemma useWatchQrl_first_run_throws_witness :
  Forall (act_ok sample_heap) [ATrack (VObj 0) (Some "count")] /\
  b_res (mkB [ATrack (VObj 0) (Some "count")] (BThrow (ExnUser 3))) = BThrow (ExnUser 3) /\
  m_waiton (snd (useWatchQrl false 100 1 0 false None (sample 0))) = [1%nat] /\
  m_proms (run_task (mkB [ATrack (VObj 0) (Some "count")] (BThrow (ExnUser 3)))
             (run_task (mkB [ATrack (VObj 0) (Some "count")] (BThrow (ExnUser 3)))
                (snd (useWatchQrl false 100 1 0 false None (sample 0)))))
    !! 1%nat = Some (mkP (Rejected (ExnUser 3)) PKDeferred).
Proof.
  assert (Hok : Forall (act_ok sample_heap) [ATrack (VObj 0) (Some "count")])
    by (repeat constructor; unfold act_ok; cbn; discriminate).
  split; [exact Hok | split; [reflexivity |]].
  exact (useWatchQrl_first_run_throws (sample_watch 0) sample_heap sample_fns 100 1 0 false None
           (mkB [ATrack (VObj 0) (Some "count")] (BThrow (ExnUser 3))) (ExnUser 3) Hok eq_refl).
Defined.
